(** * MDNT residual / ResNeXt blocks (layers/residual.py)

    A shallow embedding of the block classes of [layers/residual.py]:
    the constructors ([__init__]), [build], [call], [compute_output_shape]
    and [get_config] of [_Residual], [_ResidualTranspose], [_Resnext] and
    [_ResnextTranspose], the constructors of the twelve public classes,
    and the two helpers [str2bool] and [plot_sample] of the demo script
    [demo-AGroupConvTranspose.py].

    Python integers are [Z]; Python floats are the kernel's binary64
    floats; a raised exception is the [Raise] case of [result]; a tensor
    shape is a list of optional dimensions ([None] is an unknown
    dimension); the tensors handled by [call] are terms recording which
    layers were applied, in which order. *)

From Stdlib Require Import Reals Lra.
From Stdlib Require Import ZArith List String Ascii Bool Floats Lia
  Permutation.
Import ListNotations.
Open Scope Z_scope.

(** ** Python exceptions *)

Inductive exn : Type :=
| ValueError (msg : string)
| TypeError (msg : string)
| IndexError
| AttributeError (attr : string)
| ZeroDivisionError
| OverflowError.

Inductive result (A : Type) : Type :=
| Ok (a : A)
| Raise (e : exn).

Arguments Ok {A} a.
Arguments Raise {A} e.

Definition bind {A B : Type} (m : result A) (f : A -> result B) : result B :=
  match m with
  | Ok a => f a
  | Raise e => Raise e
  end.

Notation "' x <- m ;; k" := (bind m (fun x => k))
  (at level 61, x pattern, m at next level, right associativity).
Notation "m ;;; k" := (bind m (fun _ => k))
  (at level 61, right associativity).

Definition raises {A : Type} (m : result A) : Prop :=
  exists e, m = Raise e.

Definition is_ValueError (e : exn) : bool :=
  match e with ValueError _ => true | _ => false end.

(** [m] raises some [ValueError], whatever its message. *)
Definition raises_ValueError {A : Type} (m : result A) : Prop :=
  exists msg, m = Raise (ValueError msg).

(** ** Framework values: shapes, data formats, tuple arguments *)

(** A size is [None] when it is unknown.  A known size is read as
    non-negative: the framework's [TensorShape] refuses a negative one
    with a [ValueError], a check that the shape functions below do not
    make. *)
Definition dim : Type := option Z.
Definition shape : Type := list dim.

Inductive data_format : Type := channels_last | channels_first.

Definition data_format_eqb (a b : data_format) : bool :=
  match a, b with
  | channels_last, channels_last => true
  | channels_first, channels_first => true
  | _, _ => false
  end.

(** [K.image_data_format()]: the framework's global default. *)
Definition image_data_format : data_format := channels_last.

(** [conv_utils.normalize_data_format]: [None] selects the global default. *)
Definition normalize_data_format (v : option data_format) : data_format :=
  match v with
  | Some d => d
  | None => image_data_format
  end.

(** An argument that is either one integer or a sequence of integers
    ([kernel_size], [strides], [dilation_rate]). *)
Inductive tuple_arg : Type :=
| IntArg (v : Z)
| SeqArg (vs : list Z).

(** [conv_utils.normalize_tuple(value, n, name)]: an integer is repeated
    [n] times, a sequence must have exactly [n] entries. *)
Definition normalize_tuple (value : tuple_arg) (n : nat) (name : string)
  : result (list Z) :=
  match value with
  | IntArg v => Ok (repeat v n)
  | SeqArg vs =>
      if Nat.eqb (List.length vs) n then Ok vs
      else Raise (ValueError
                    ("The " ++ name ++ " argument must be a tuple of n integers.")%string)
  end.

(** Padding or cropping amounts, one [(before, after)] pair per axis. *)
Definition pairs : Type := list (Z * Z).

(** ** Module-level helpers of residual.py *)

(** [_check_dl_func = lambda a: all(ai==1 for ai in a)] *)
Definition check_dl_func (a : list Z) : bool := forallb (fun ai => ai =? 1) a.

(** ASCII case folding, for [activation.casefold()]. *)
Definition casefold_ascii (c : ascii) : ascii :=
  let n := nat_of_ascii c in
  if (Nat.leb 65 n && Nat.leb n 90)%bool then ascii_of_nat (n + 32) else c.

Fixpoint casefold (s : string) : string :=
  match s with
  | EmptyString => EmptyString
  | String c r => String (casefold_ascii c) (casefold r)
  end.

(** [activations.get]: an activation function is named by its
    identifier; [None] is the linear activation.  A string is read as a
    name that the framework knows: on any other string [activations.get]
    raises [ValueError], a case that is left out. *)
Definition activations_get (a : option string) : string :=
  match a with
  | Some n => n
  | None => "linear"%string
  end.

(** [activations.serialize]: the identifier of the function. *)
Definition activations_serialize (f : string) : string := f.

Definition config_dict : Type := list (string * float).

(** The documented values of the [dropout] argument. *)
Inductive dropout_kind : Type :=
| drop_plain | drop_add | drop_mul | drop_alpha | drop_spatial.

(** ** Python float arithmetic *)

(** Conversion of an integer to a float (round to nearest even); an
    integer beyond the double range raises [OverflowError]. *)
Definition float_of_int (z : Z) : result float :=
  let f := SF2Prim (binary_normalize prec emax z 0 false) in
  if is_infinity f then Raise OverflowError else Ok f.

(** [n / 2] on an integer [n]: true division, correctly rounded. *)
Definition int_truediv_2 (n : Z) : result float :=
  let f := SF2Prim (binary_normalize prec emax n (-1) false) in
  if is_infinity f then Raise OverflowError else Ok f.

(** [math.sqrt] *)
Definition math_sqrt (x : float) : result float :=
  if (x <? 0)%float then Raise (ValueError "math domain error")
  else Ok (PrimFloat.sqrt x).

(** Float true division. *)
Definition float_truediv (x y : float) : result float :=
  if (y =? 0)%float then Raise ZeroDivisionError else Ok (x / y)%float.

(** [int(round(x))] on a float: round half to even. *)
Definition py_round (x : float) : result Z :=
  match Prim2SF x with
  | S754_zero _ => Ok 0
  | S754_infinity _ => Raise OverflowError
  | S754_nan => Raise (ValueError "cannot convert float NaN to integer")
  | S754_finite s m e =>
      let v :=
        match e with
        | Z0 => Zpos m
        | Zpos p => Zpos m * 2 ^ Zpos p
        | Zneg p =>
            let d := 2 ^ Zpos p in
            let q := Zpos m / d in
            let r := Zpos m mod d in
            if 2 * r <? d then q
            else if d <? 2 * r then q + 1
            else if Z.even q then q else q + 1
        end in
      Ok (if s then - v else v)
  end.

(** [_cal_quad_root = lambda a, b, c: (sqrt(b**2 - 4*a*c) - b)/(2*a)],
    at its call sites: [a] and [b] are integers, [c] is a float. *)
Definition cal_quad_root (a b : Z) (c : float) : result float :=
  'b2 <- float_of_int (b ^ 2) ;;
  'a4 <- float_of_int (4 * a) ;;
  'root <- math_sqrt (b2 - a4 * c)%float ;;
  'fb <- float_of_int b ;;
  'a2 <- float_of_int (2 * a) ;;
  float_truediv (root - fb)%float a2.

(** [_get_prod]: the product of the entries, folded from the left.  On an
    empty tuple [reduce] raises [TypeError], which the function catches
    to return the tuple itself: that case is [None] here. *)
Definition get_prod (x : list Z) : option Z :=
  match x with
  | [] => None
  | h :: t => Some (fold_left Z.mul t h)
  end.

Definition seq_times_float : exn :=
  TypeError "can't multiply sequence by non-int of type 'float'".

(** The [if self.lfilters is None] branch of the ResNeXt [build]. *)
Definition infer_lfilters (depth : Z) (kernel_size : list Z)
    (channelIn ofilters lgroups : Z) : result Z :=
  'cal_lfilters <- int_truediv_2 channelIn ;;
  match get_prod kernel_size with
  | None => Raise seq_times_float
  | Some K =>
      'dk <- float_of_int (depth * K) ;;
      'io <- float_of_int (channelIn + ofilters) ;;
      'x <- cal_quad_root (depth * K * lgroups)
                          ((channelIn + ofilters) * lgroups)
                          (- cal_lfilters * (io + dk * cal_lfilters))%float ;;
      'r <- py_round x ;;
      Ok (Z.max 1 r)
  end.

(** The [elif self.lgroups is None] branch of the ResNeXt [build]. *)
Definition infer_lgroups (depth : Z) (kernel_size : list Z)
    (channelIn ofilters lfilters : Z) : result Z :=
  'cal_lgroups <- int_truediv_2 channelIn ;;
  'fl <- float_of_int lfilters ;;
  'q <- float_truediv cal_lgroups fl ;;
  match get_prod kernel_size with
  | None => Raise seq_times_float
  | Some K =>
      'dk <- float_of_int (depth * K) ;;
      'fi <- float_of_int channelIn ;;
      'fo <- float_of_int ofilters ;;
      'den <- float_of_int (depth * K * lfilters + channelIn + ofilters) ;;
      'x <- float_truediv (q * (dk * cal_lgroups + fi + fo))%float den ;;
      'r <- py_round x ;;
      Ok (Z.max 1 r)
  end.

(** The inference of the latent counts at the head of the ResNeXt
    [build]: the values of [self.lgroups] and [self.lfilters] after it. *)
Definition infer_latent (depth : Z) (kernel_size : list Z)
    (channelIn ofilters : Z) (lgroups lfilters : option Z) : result (Z * Z) :=
  match lgroups, lfilters with
  | Some g, Some f => Ok (g, f)
  | None, None =>
      'f <- infer_lfilters depth kernel_size channelIn ofilters 32 ;;
      Ok (32, f)
  | Some g, None =>
      'f <- infer_lfilters depth kernel_size channelIn ofilters g ;;
      Ok (g, f)
  | None, Some f =>
      'g <- infer_lgroups depth kernel_size channelIn ofilters f ;;
      Ok (g, f)
  end.

(** ** Sub-layers

    The keyword arguments with which a block constructs its [_AConv]
    projection and its [NACUnit]s.  The values of the initializers,
    regularizers and constraints are left out: a unit receives the
    block's own, unchanged.  Three units of the transposed classes are
    constructed without [gamma_initializer], [gamma_regularizer] and
    [gamma_constraint], and keep the defaults of [NACUnit] for them:
    [u_gamma] records whether the three arguments are passed. *)

Inductive padding_mode : Type := same | valid.

Record unit_args : Type := mk_unit_args {
  u_rank : nat;
  u_filters : Z;
  u_lgroups : option Z;          (* [None]: the unit is not grouped *)
  u_kernel_size : tuple_arg;
  u_strides : tuple_arg;
  u_padding : padding_mode;
  u_data_format : data_format;
  u_dilation_rate : tuple_arg;
  u_normalization : option string;
  u_groups : Z;
  u_activation : option string;
  u_activity_config : option config_dict;
  u_high_activation : option string;
  u_use_bias : option bool;      (* [_use_bias], when it is passed *)
  u_gamma : bool                 (* the [gamma_*] arguments are passed *)
}.

Inductive layer : Type :=
| AConv (a : unit_args)
| NACUnit (a : unit_args)
| Dropout (kind : dropout_kind) (rate : float) (axis : Z) (rank : nat)
| UpSampling1D (size : Z)
| UpSampling2D (size : list Z) (df : data_format)
| UpSampling3D (size : list Z) (df : data_format)
| ZeroPadding1D (padding : Z * Z)
| ZeroPadding2D (padding : pairs) (df : data_format)
| ZeroPadding3D (padding : pairs) (df : data_format)
| Cropping1D (cropping : Z * Z)
| Cropping2D (cropping : pairs) (df : data_format)
| Cropping3D (cropping : pairs) (df : data_format)
| Add.

(** The forms a padding or cropping argument can take: one integer, a
    tuple of integers, or a tuple of [(before, after)] pairs. *)
Inductive pad_arg : Type :=
| PadInt (v : Z)
| PadInts (vs : list Z)
| PadPairs (ps : pairs).

(** Python truthiness of such an argument ([if output_cropping:]). *)
Definition pad_arg_truthy (p : pad_arg) : bool :=
  match p with
  | PadInt v => negb (v =? 0)
  | PadInts vs => negb (Nat.eqb (List.length vs) 0)
  | PadPairs ps => negb (Nat.eqb (List.length ps) 0)
  end.

Definition bad_pad (name : string) : exn :=
  ValueError ("The " ++ name ++ " argument has the wrong form.")%string.

(** Argument normalisation of the 1D padding and cropping layers: an
    integer or a tuple of two integers. *)
Definition normalize_pad_1d (name : string) (p : pad_arg) : result (Z * Z) :=
  match p with
  | PadInt v => Ok (v, v)
  | PadInts [a; b] => Ok (a, b)
  | _ => Raise (bad_pad name)
  end.

(** Argument normalisation of the [n]-dimensional padding and cropping
    layers ([n] is 2 or 3): an integer, [n] integers or [n] pairs. *)
Definition normalize_pad_nd (name : string) (n : nat) (p : pad_arg)
  : result pairs :=
  match p with
  | PadInt v => Ok (repeat (v, v) n)
  | PadInts vs =>
      if Nat.eqb (List.length vs) n then Ok (map (fun v => (v, v)) vs)
      else Raise (bad_pad name)
  | PadPairs ps =>
      if Nat.eqb (List.length ps) n then Ok ps else Raise (bad_pad name)
  end.

(** The framework's layer constructors, as [build] calls them.  The
    cropping layers are given no [data_format], so they take the global
    default. *)
Definition new_ZeroPadding1D (padding : pad_arg) : result layer :=
  'p <- normalize_pad_1d "padding" padding ;; Ok (ZeroPadding1D p).

Definition new_ZeroPadding2D (padding : pad_arg) (df : data_format)
  : result layer :=
  'p <- normalize_pad_nd "padding" 2 padding ;; Ok (ZeroPadding2D p df).

Definition new_ZeroPadding3D (padding : pad_arg) (df : data_format)
  : result layer :=
  'p <- normalize_pad_nd "padding" 3 padding ;; Ok (ZeroPadding3D p df).

Definition new_Cropping1D (cropping : pad_arg) : result layer :=
  'c <- normalize_pad_1d "cropping" cropping ;; Ok (Cropping1D c).

Definition new_Cropping2D (cropping : pad_arg) : result layer :=
  'c <- normalize_pad_nd "cropping" 2 cropping ;;
  Ok (Cropping2D c (normalize_data_format None)).

Definition new_Cropping3D (cropping : pad_arg) : result layer :=
  'c <- normalize_pad_nd "cropping" 3 cropping ;;
  Ok (Cropping3D c (normalize_data_format None)).

(** [layer[i]]: a framework layer defines no [__getitem__]. *)
Definition layer_getitem (l : layer) (i : Z) : result layer :=
  Raise (TypeError "object is not subscriptable").

(** Modelled from the spec: [return_dropout] (module [.dropout]) is not
    under src/.  It is the dropout factory: no layer when [dropout] is
    [None], the layer of the requested kind otherwise. *)
Definition return_dropout (dropout : option dropout_kind) (rate : float)
    (axis : Z) (rank : nat) : option layer :=
  match dropout with
  | None => None
  | Some k => Some (Dropout k rate axis rank)
  end.

(** ** Shape functions of the sub-layers *)

(** Batch, spatial and channel entries of a shape with [n] spatial axes.
    The shape must have exactly [n + 2] axes; the framework's layers
    read the axes by position and do not refuse a longer shape. *)
Definition split_shape (df : data_format) (n : nat) (s : shape)
  : result (dim * list dim * dim) :=
  if Nat.eqb (List.length s) (n + 2) then
    match df, s with
    | channels_last, b :: r => Ok (b, removelast r, last r None)
    | channels_first, b :: c :: r => Ok (b, r, c)
    | _, _ => Raise IndexError
    end
  else Raise (ValueError "Input has an incompatible number of axes.").

Definition join_shape (df : data_format) (b : dim) (space : list dim) (c : dim)
  : shape :=
  match df with
  | channels_last => b :: space ++ [c]
  | channels_first => b :: c :: space
  end.

(** [conv_utils.conv_output_length] *)
Definition conv_output_length (input_length : dim) (filter_size : Z)
    (padding : padding_mode) (stride dilation : Z) : result dim :=
  match input_length with
  | None => Ok None
  | Some n =>
      let dilated_filter_size :=
        filter_size + (filter_size - 1) * (dilation - 1) in
      let output_length :=
        match padding with
        | same => n
        | valid => n - dilated_filter_size + 1
        end in
      if stride =? 0 then Raise ZeroDivisionError
      else Ok (Some ((output_length + stride - 1) / stride))
  end.

Fixpoint conv_space (padding : padding_mode) (space : list dim)
    (kernel_size strides dilation_rate : list Z) : result (list dim) :=
  match space, kernel_size, strides, dilation_rate with
  | [], _, _, _ => Ok []
  | n :: space', k :: ks, st :: sts, d :: ds =>
      'n' <- conv_output_length n k padding st d ;;
      'r <- conv_space padding space' ks sts ds ;;
      Ok (n' :: r)
  | _, _, _, _ => Raise IndexError
  end.

(** Modelled from the spec: [NACUnit] (module [.unit]) and [_AConv]
    (module [.conv]) are not under src/.  The spec describes the unit as
    a fused normalization, activation and convolution; normalization and
    activation keep the shape, so the shape function of both is that of
    the framework convolution they wrap, with the arguments the block
    passes: [filters] output channels and, per spatial axis,
    [conv_output_length]. *)
Definition conv_compute_output_shape (a : unit_args) (s : shape)
  : result shape :=
  'kernel_size <- normalize_tuple (u_kernel_size a) (u_rank a) "kernel_size" ;;
  'strides <- normalize_tuple (u_strides a) (u_rank a) "strides" ;;
  'dilation_rate <-
     normalize_tuple (u_dilation_rate a) (u_rank a) "dilation_rate" ;;
  '(b, space, _) <- split_shape (u_data_format a) (u_rank a) s ;;
  'new_space <-
     conv_space (u_padding a) space kernel_size strides dilation_rate ;;
  Ok (join_shape (u_data_format a) b new_space (Some (u_filters a))).

Definition dim_mul (k : Z) (d : dim) : dim := option_map (Z.mul k) d.

Definition dim_pad (p : Z * Z) (d : dim) : dim :=
  option_map (fun n => n + fst p + snd p) d.

Definition dim_crop (c : Z * Z) (d : dim) : dim :=
  option_map (fun n => n - fst c - snd c) d.

(** [Cropping2D] tests the size itself for truth ([... if input_shape[i]
    else None]), so that a size of 0 counts as unknown. *)
Definition dim_crop_2d (c : Z * Z) (d : dim) : dim :=
  match d with
  | Some n => if n =? 0 then None else Some (n - fst c - snd c)
  | None => None
  end.

(** Apply [f] axis by axis; the amounts must cover every spatial axis. *)
Fixpoint map_space {A : Type} (f : A -> dim -> dim) (amounts : list A)
    (space : list dim) {struct space} : result (list dim) :=
  match space, amounts with
  | [], _ => Ok []
  | d :: space', a :: amounts' =>
      'r <- map_space f amounts' space' ;; Ok (f a d :: r)
  | _ :: _, [] => Raise IndexError
  end.

Definition spatial_layer_shape {A : Type} (f : A -> dim -> dim)
    (amounts : list A) (df : data_format) (n : nat) (s : shape)
  : result shape :=
  '(b, space, c) <- split_shape df n s ;;
  'new_space <- map_space f amounts space ;;
  Ok (join_shape df b new_space c).

(** [Add._compute_elemwise_op_output_shape] on one pair of entries. *)
Definition merge_dim (i j : dim) : result dim :=
  match i, j with
  | Some i, Some j =>
      if i =? 1 then Ok (Some j)
      else if j =? 1 then Ok (Some i)
      else if i =? j then Ok (Some i)
      else Raise (ValueError "Operands could not be broadcast together")
  | _, _ => Ok None
  end.

Fixpoint merge_dims (s1 s2 : list dim) : result (list dim) :=
  match s1, s2 with
  | i :: r1, j :: r2 =>
      'd <- merge_dim i j ;; 'r <- merge_dims r1 r2 ;; Ok (d :: r)
  | _, _ => Ok []
  end.

Definition compute_elemwise_op_output_shape (shape1 shape2 : list dim)
  : result (list dim) :=
  let '(l, s) :=
    if Nat.ltb (List.length shape1) (List.length shape2)
    then (shape2, shape1) else (shape1, shape2) in
  match s with
  | [] => Ok l
  | _ =>
      let k := (List.length l - List.length s)%nat in
      'r <- merge_dims (skipn k l) s ;; Ok (firstn k l ++ r)
  end.

Definition dim_eqb (a b : dim) : bool :=
  match a, b with
  | Some x, Some y => x =? y
  | None, None => true
  | _, _ => false
  end.

(** The known batch sizes of two shapes are compatible. *)
Definition batch_sizes (s1 s2 : shape) : result (list Z) :=
  match s1, s2 with
  | b1 :: _, b2 :: _ =>
      match b1, b2 with
      | Some x, Some y => if x =? y then Ok [x] else Ok [x; y]
      | Some x, None | None, Some x => Ok [x]
      | None, None => Ok []
      end
  | _, _ => Raise IndexError
  end.

(** [Add.build([s1, s2])]: pure shape validation. *)
Definition merge_build (s1 s2 : shape) : result unit :=
  'bs <- batch_sizes s1 s2 ;;
  if Nat.ltb 1 (List.length bs)
  then Raise (ValueError "Can not merge tensors with different batch sizes.")
  else 'out <- compute_elemwise_op_output_shape (tl s1) (tl s2) ;; Ok tt.

(** [Add.compute_output_shape([s1, s2])] *)
Definition merge_compute_output_shape (s1 s2 : shape) : result shape :=
  'out <- compute_elemwise_op_output_shape (tl s1) (tl s2) ;;
  'bs <- batch_sizes s1 s2 ;;
  match bs with
  | [b] => Ok (Some b :: out)
  | _ => Ok (None :: out)
  end.

(** [layer.compute_output_shape(s)] for the layers of one input. *)
Definition layer_compute_output_shape (l : layer) (s : shape) : result shape :=
  match l with
  | AConv a | NACUnit a => conv_compute_output_shape a s
  | Dropout _ _ _ _ => Ok s
  | UpSampling1D size => spatial_layer_shape dim_mul [size] channels_last 1 s
  | UpSampling2D size df => spatial_layer_shape dim_mul size df 2 s
  | UpSampling3D size df => spatial_layer_shape dim_mul size df 3 s
  | ZeroPadding1D p => spatial_layer_shape dim_pad [p] channels_last 1 s
  | ZeroPadding2D p df => spatial_layer_shape dim_pad p df 2 s
  | ZeroPadding3D p df => spatial_layer_shape dim_pad p df 3 s
  | Cropping1D c => spatial_layer_shape dim_crop [c] channels_last 1 s
  | Cropping2D c df => spatial_layer_shape dim_crop_2d c df 2 s
  | Cropping3D c df => spatial_layer_shape dim_crop c df 3 s
  | Add => Raise (TypeError "a merge layer takes a list of shapes")
  end.

(** [layer.build(s)]: creates the weights; it succeeds on the shapes the
    layer can process. *)
Definition layer_build (l : layer) (s : shape) : result unit :=
  'out <- layer_compute_output_shape l s ;; Ok tt.

(** ** Tensors

    A tensor is the record of how it was computed: an input of some
    shape, a layer applied to a tensor, a merge layer applied to a pair. *)
Inductive tensor : Type :=
| Input (s : shape)
| Apply (l : layer) (x : tensor)
| Merge (l : layer) (x y : tensor).

Fixpoint tensor_shape (t : tensor) : result shape :=
  match t with
  | Input s => Ok s
  | Apply l x => 's <- tensor_shape x ;; layer_compute_output_shape l s
  | Merge Add x y =>
      's1 <- tensor_shape x ;; 's2 <- tensor_shape y ;;
      merge_compute_output_shape s1 s2
  | Merge _ _ _ => Raise (TypeError "not a merge layer")
  end.

(** ** The block classes *)

(** The four abstract bases [_Residual], [_ResidualTranspose], [_Resnext]
    and [_ResnextTranspose]; the public classes [Residual1D], ...,
    [Resnext3DTranspose] only fix [rank] to 1, 2 or 3. *)
Inductive klass : Type :=
| Residual | ResidualTranspose | Resnext | ResnextTranspose.

Definition is_transpose (k : klass) : bool :=
  match k with
  | ResidualTranspose | ResnextTranspose => true
  | _ => false
  end.

Definition is_resnext (k : klass) : bool :=
  match k with
  | Resnext | ResnextTranspose => true
  | _ => false
  end.

(** The arguments of [__init__].  [a_lgroups] is read by the ResNeXt
    classes only, the three [a_output_*] by the transposed classes only. *)
Record init_args : Type := mk_init_args {
  a_rank : nat;
  a_depth : Z;
  a_ofilters : Z;
  a_kernel_size : tuple_arg;
  a_lgroups : option Z;
  a_lfilters : option Z;
  a_strides : tuple_arg;
  a_output_mshape : option shape;
  a_output_padding : option pad_arg;
  a_output_cropping : option pad_arg;
  a_data_format : option data_format;
  a_dilation_rate : tuple_arg;
  a_normalization : option string;
  a_groups : Z;
  a_dropout : option dropout_kind;
  a_dropout_rate : float;
  a_activation : option string;
  a_activity_config : option config_dict;
  a_high_activation : option string
}.

(** The sub-layers that [build] creates. *)
Record sublayers : Type := mk_sublayers {
  layer_uppool : option layer;       (* transposed classes only *)
  layer_padding : option layer;
  layer_branch_left : option layer;
  layer_dropout : option layer;
  layer_first : layer;
  layer_middle : list layer;         (* [layer_middle_NN], in order *)
  layer_last : layer;
  layer_merge : layer;
  layer_cropping : option layer
}.

(** The attributes of an instance.  [activation] and [activity_config]
    are [None] while the attribute has never been assigned; [layers] is
    [None] until [build] has run. *)
Record block : Type := mk_block {
  cls : klass;
  rank : nat;
  depth : Z;                         (* [self.depth]: the middle-unit count *)
  ofilters : Z;
  lgroups : option Z;
  lfilters : option Z;
  kernel_size : list Z;
  strides : list Z;
  output_mshape : option shape;
  output_padding : option pad_arg;
  output_cropping : option pad_arg;
  data_format_ : data_format;
  dilation_rate : list Z;
  normalization : option string;
  groups : Z;
  dropout : option dropout_kind;
  dropout_rate : float;
  activation : option string;
  activity_config : option (option config_dict);
  high_activation : option string;
  channelIn : option Z;
  layers : option sublayers
}.

Definition depth_message (k : klass) : string :=
  if is_resnext k
  then "The depth of the ResNeXt block should be >= 3."
  else "The depth of the residual block should be >= 3.".

Definition channels_first_1d_message : string :=
  "Does not support channels_first data format for 1D case due to the limitation of upsampling method.".

Definition dilation_message : string :=
  "Does not support dilation_rate when strides > 1.".

(** Python truthiness of [output_mshape] (a shape or a list). *)
Definition shape_truthy (s : shape) : bool :=
  negb (Nat.eqb (List.length s) 0).

Definition keep_if {A : Type} (truthy : A -> bool) (v : option A) : option A :=
  match v with
  | Some x => if truthy x then Some x else None
  | None => None
  end.

Definition is_prelu_lrelu (s : string) : bool :=
  (String.eqb s "prelu" || String.eqb s "lrelu")%bool.

(** The tail of [__init__]: the values of [self.activation],
    [self.high_activation] and [self.activity_config], the first and the
    last being assigned only when an activation is given. *)
Definition init_activation (a : init_args)
  : option string * option string * option (option config_dict) :=
  let activation :=
    match a_high_activation a with
    | Some h => Some h
    | None => a_activation a
    end in
  match activation with
  | Some s =>
      if is_prelu_lrelu (casefold s)
      then (Some (activations_get None), Some (casefold s),
            Some (a_activity_config a))
      else (Some (activations_get (Some s)), a_high_activation a, Some None)
  | None => (None, a_high_activation a, None)
  end.

(** [__init__] of the four bases. *)
Definition init (k : klass) (a : init_args) : result block :=
  let rank := a_rank a in
  let depth := a_depth a - 2 in
  if depth <? 1 then Raise (ValueError (depth_message k)) else
  'kernel_size <- normalize_tuple (a_kernel_size a) rank "kernel_size" ;;
  'strides <- normalize_tuple (a_strides a) rank "strides" ;;
  let output_padding :=
    if is_transpose k then a_output_padding a else None in
  let output_mshape :=
    if is_transpose k then keep_if shape_truthy (a_output_mshape a) else None in
  let output_cropping :=
    if is_transpose k then keep_if pad_arg_truthy (a_output_cropping a)
    else None in
  let data_format := normalize_data_format (a_data_format a) in
  if (is_transpose k && Nat.eqb rank 1
      && data_format_eqb data_format channels_first)%bool
  then Raise (ValueError channels_first_1d_message) else
  'dilation_rate <- normalize_tuple (a_dilation_rate a) rank "dilation_rate" ;;
  if (negb (check_dl_func dilation_rate) && negb (check_dl_func strides))%bool
  then Raise (ValueError dilation_message) else
  let '(activation, high_activation, activity_config) := init_activation a in
  Ok {| cls := k;
        rank := rank;
        depth := depth;
        ofilters := a_ofilters a;
        lgroups := if is_resnext k then a_lgroups a else None;
        lfilters := a_lfilters a;
        kernel_size := kernel_size;
        strides := strides;
        output_mshape := output_mshape;
        output_padding := output_padding;
        output_cropping := output_cropping;
        data_format_ := data_format;
        dilation_rate := dilation_rate;
        normalization := a_normalization a;
        groups := a_groups a;
        dropout := a_dropout a;
        dropout_rate := a_dropout_rate a;
        activation := activation;
        activity_config := activity_config;
        high_activation := high_activation;
        channelIn := None;
        layers := None |}.

(** Reading an attribute that may never have been assigned. *)
Definition getattr {A : Type} (name : string) (v : option A) : result A :=
  match v with
  | Some x => Ok x
  | None => Raise (AttributeError name)
  end.

(** The serialised constructor arguments that [get_config] returns.  The
    entries for initializers, regularizers and constraints are left out
    as in [unit_args]; the ['activity_regularizer'] entry is added by
    [get_config_regularized] below. *)
Record config : Type := mk_config {
  c_depth : Z;
  c_ofilters : Z;
  c_lgroups : option Z;
  c_lfilters : option Z;
  c_kernel_size : list Z;
  c_strides : list Z;
  c_output_mshape : option shape;
  c_output_padding : option pad_arg;
  c_output_cropping : option pad_arg;
  c_data_format : data_format;
  c_dilation_rate : list Z;
  c_normalization : option string;
  c_groups : Z;
  c_dropout : option dropout_kind;
  c_dropout_rate : float;
  c_activation : string;
  c_activity_config : option config_dict;
  c_high_activation : option string
}.

(** [get_config] *)
Definition get_config (self : block) : result config :=
  'activation <- getattr "activation" (activation self) ;;
  'activity_config <- getattr "activity_config" (activity_config self) ;;
  Ok {| c_depth := depth self + 2;
        c_ofilters := ofilters self;
        c_lgroups := lgroups self;
        c_lfilters := lfilters self;
        c_kernel_size := kernel_size self;
        c_strides := strides self;
        c_output_mshape := output_mshape self;
        c_output_padding := output_padding self;
        c_output_cropping := output_cropping self;
        c_data_format := data_format_ self;
        c_dilation_rate := dilation_rate self;
        c_normalization := normalization self;
        c_groups := groups self;
        c_dropout := dropout self;
        c_dropout_rate := dropout_rate self;
        c_activation := activations_serialize activation;
        c_activity_config := activity_config;
        c_high_activation := high_activation self |}.

(** [cls(rank, **config)]: the constructor call that rebuilds a block
    from a configuration. *)
Definition from_config (k : klass) (rank : nat) (c : config) : result block :=
  init k {| a_rank := rank;
            a_depth := c_depth c;
            a_ofilters := c_ofilters c;
            a_kernel_size := SeqArg (c_kernel_size c);
            a_lgroups := c_lgroups c;
            a_lfilters := c_lfilters c;
            a_strides := SeqArg (c_strides c);
            a_output_mshape := c_output_mshape c;
            a_output_padding := c_output_padding c;
            a_output_cropping := c_output_cropping c;
            a_data_format := Some (c_data_format c);
            a_dilation_rate := SeqArg (c_dilation_rate c);
            a_normalization := c_normalization c;
            a_groups := c_groups c;
            a_dropout := c_dropout c;
            a_dropout_rate := c_dropout_rate c;
            a_activation := Some (c_activation c);
            a_activity_config := c_activity_config c;
            a_high_activation := c_high_activation c |}.

(** ** [build] *)

(** Python indexing [l[i]], negative indices counting from the end. *)
Definition getitem {A : Type} (l : list A) (i : Z) : result A :=
  let n := Z.of_nat (List.length l) in
  let j := if i <? 0 then i + n else i in
  if j <? 0 then Raise IndexError
  else match nth_error l (Z.to_nat j) with
       | Some x => Ok x
       | None => Raise IndexError
       end.

(** The slice [l[1:-1]]. *)
Definition slice_1_m1 {A : Type} (l : list A) : list A := removelast (tl l).

(** [b_inf = d // 2; b_sup = b_inf + d % 2] *)
Definition split_amount (d : Z) : Z * Z :=
  let b_inf := d / 2 in
  let b_sup := b_inf + d mod 2 in
  (b_inf, b_sup).

Definition none_arith : exn :=
  TypeError "unsupported operand type(s) for NoneType and int".

(** One round of the first loop of the inference of [output_padding] and
    [output_cropping]: the pair appended to each list for axis [i]. *)
Definition infer_axis (l_output_mshape l_input_shape : list dim)
    (strides dilation_rate : list Z) (i : nat)
  : result ((Z * Z) * (Z * Z)) :=
  'o <- getitem l_output_mshape (Z.of_nat i) ;;
  'n <- getitem l_input_shape (Z.of_nat i) ;;
  's <- getitem strides (Z.of_nat i) ;;
  'd <- getitem dilation_rate (Z.of_nat i) ;;
  match o, n with
  | Some o, Some n =>
      let get_shape_diff := o - n * Z.max s d in
      if 0 <? get_shape_diff then
        Ok (split_amount get_shape_diff, (0, 0))
      else if get_shape_diff <? 0 then
        Ok ((0, 0), split_amount (- get_shape_diff))
      else Ok ((0, 0), (0, 0))
  | _, _ => Raise none_arith
  end.

Fixpoint infer_axes (l_output_mshape l_input_shape : list dim)
    (strides dilation_rate : list Z) (range : list nat)
  : result (pairs * pairs) :=
  match range with
  | [] => Ok ([], [])
  | i :: range' =>
      '(p, c) <- infer_axis l_output_mshape l_input_shape
                            strides dilation_rate i ;;
      '(ps, cs) <- infer_axes l_output_mshape l_input_shape
                              strides dilation_rate range' ;;
      Ok (p :: ps, c :: cs)
  end.

Definition is_zero_pair (smp : Z * Z) : bool :=
  ((fst smp =? 0) && (snd smp =? 0))%bool.

(** [deFlag_padding], [deFlag_cropping]: the number of [(0, 0)] pairs. *)
Definition deFlag (ps : pairs) : nat := List.length (filter is_zero_pair ps).

Definition none_if_all_zero (rank : nat) (ps : pairs) : option pad_arg :=
  if Nat.leb rank (deFlag ps) then None else Some (PadPairs ps).

(** The block [if self.output_mshape is not None: ...] of the transposed
    [build]: the values of [self.output_padding] and
    [self.output_cropping] after it. *)
Definition infer_output_padding (self : block) (input_shape : shape)
  : result (option pad_arg * option pad_arg) :=
  match output_mshape self with
  | None => Ok (output_padding self, output_cropping self)
  | Some mshape =>
      let l_output_mshape := slice_1_m1 mshape in
      let l_input_shape := slice_1_m1 input_shape in
      '(ps, cs) <- infer_axes l_output_mshape l_input_shape
                     (strides self) (dilation_rate self) (seq 0 (rank self)) ;;
      Ok (none_if_all_zero (rank self) ps, none_if_all_zero (rank self) cs)
  end.

Definition rank_message : string :=
  "Rank of the deconvolution should be 1, 2 or 3.".

(** [l.build(s); s = l.compute_output_shape(s)] *)
Definition build_layer (l : layer) (s : shape) : result shape :=
  layer_build l s ;;; layer_compute_output_shape l s.

(** The rank dispatch of the transposed [build]: the up-sampling layer,
    whose factor is [self.strides]... *)
Definition new_uppool (self : block) : result layer :=
  match rank self with
  | 1%nat => 's0 <- getitem (strides self) 0 ;; Ok (UpSampling1D s0)
  | 2%nat => Ok (UpSampling2D (strides self) (data_format_ self))
  | 3%nat => Ok (UpSampling3D (strides self) (data_format_ self))
  | _ => Raise (ValueError rank_message)
  end.

(** ... the padding layer, created when [self.output_padding] is not
    [None] (in the 1D case the new layer is subscripted)... *)
Definition new_padding (self : block) (p : pad_arg) : result layer :=
  match rank self with
  | 1%nat => 'l <- new_ZeroPadding1D p ;; layer_getitem l 0
  | 2%nat => new_ZeroPadding2D p (data_format_ self)
  | 3%nat => new_ZeroPadding3D p (data_format_ self)
  | _ => Raise (ValueError rank_message)
  end.

(** ... and, after the merge, the cropping layer, created when
    [self.output_cropping] is not [None]. *)
Definition new_cropping (self : block) (c : pad_arg) : result layer :=
  match rank self with
  | 1%nat => 'l <- new_Cropping1D c ;; layer_getitem l 0
  | 2%nat => new_Cropping2D c
  | 3%nat => new_Cropping3D c
  | _ => Raise (ValueError rank_message)
  end.

(** The head of the transposed [build]: the up-sampling layer, the
    optional padding layer and the shape after them. *)
Definition build_uppool (self : block) (output_padding : option pad_arg)
    (input_shape : shape) : result (layer * option layer * shape) :=
  'uppool <- new_uppool self ;;
  'next_shape <- build_layer uppool input_shape ;;
  match output_padding with
  | Some p =>
      'l <- new_padding self p ;;
      'next_shape <- build_layer l next_shape ;;
      Ok (uppool, Some l, next_shape)
  | None => Ok (uppool, None, next_shape)
  end.

(** The tail of the transposed [build]: the optional cropping layer. *)
Definition build_cropping (self : block) (output_cropping : option pad_arg)
    (next_shape : shape) : result (option layer) :=
  match output_cropping with
  | Some c =>
      'l <- new_cropping self c ;;
      'next_shape <- build_layer l next_shape ;;
      Ok (Some l)
  | None => Ok None
  end.

(** The arguments of the [_AConv] projection of the left branch. *)
Definition branch_left_args (self : block) (unit_strides : tuple_arg)
  : unit_args :=
  {| u_rank := rank self;
     u_filters := ofilters self;
     u_lgroups := None;
     u_kernel_size := IntArg 1;
     u_strides := unit_strides;
     u_padding := same;
     u_data_format := data_format_ self;
     u_dilation_rate := IntArg 1;
     u_normalization := normalization self;
     u_groups := groups self;
     u_activation := None;
     u_activity_config := None;
     u_high_activation := None;
     u_use_bias := None;
     u_gamma := true |}.

(** The arguments shared by the [NACUnit]s of the right branch. *)
Definition nac_args (self : block) (act : string)
    (act_config : option config_dict) (filters : Z) (lgroups : option Z)
    (kernel_size strides dilation_rate : tuple_arg) (use_bias : option bool)
    (gamma : bool) : unit_args :=
  {| u_rank := rank self;
     u_filters := filters;
     u_lgroups := lgroups;
     u_kernel_size := kernel_size;
     u_strides := strides;
     u_padding := same;
     u_data_format := data_format_ self;
     u_dilation_rate := dilation_rate;
     u_normalization := normalization self;
     u_groups := groups self;
     u_activation := Some act;
     u_activity_config := act_config;
     u_high_activation := high_activation self;
     u_use_bias := use_bias;
     u_gamma := gamma |}.

(** The middle unit created at round [i] of [for i in range(self.depth)]. *)
Definition middle_unit (self : block) (act : string)
    (act_config : option config_dict) (filters : Z) (lgroups : option Z)
    (i : nat) : layer :=
  let sub_dilation_rate :=
    if Nat.eqb i 0 then SeqArg (dilation_rate self) else IntArg 1 in
  NACUnit (nac_args self act act_config filters lgroups
             (SeqArg (kernel_size self)) (IntArg 1) sub_dilation_rate None
             true).

Fixpoint build_middle (mk : nat -> layer) (range : list nat)
    (right_shape : shape) : result (list layer * shape) :=
  match range with
  | [] => Ok ([], right_shape)
  | i :: range' =>
      'right_shape <- build_layer (mk i) right_shape ;;
      '(ls, right_shape) <- build_middle mk range' right_shape ;;
      Ok (mk i :: ls, right_shape)
  end.

(** What the two branches of a block are built from: everything between
    the rank dispatch and the creation of the merge layer.  [filters] is
    the channel count of the latent units ([self.lfilters], or
    [wholeLfilters] in a ResNeXt block, whose middle units also receive
    [lgroups]). *)
Record branches : Type := mk_branches {
  br_left : option layer;
  br_dropout : option layer;
  br_first : layer;
  br_middle : list layer;
  br_last : layer;
  left_shape : shape;
  right_shape : shape
}.

(** The strides given to the projection and to the first unit: the block
    strides, or 1 in a transposed block. *)
Definition unit_strides (self : block) : tuple_arg :=
  if is_transpose (cls self) then IntArg 1 else SeqArg (strides self).

(** The [gamma_*] arguments are missing from the first and the last unit
    of [_ResidualTranspose] and from the last unit of
    [_ResnextTranspose]. *)
Definition first_gamma (self : block) : bool :=
  match cls self with
  | ResidualTranspose => false
  | _ => true
  end.

Definition last_gamma (self : block) : bool := negb (is_transpose (cls self)).

(** The test that leaves the left branch without projection. *)
Definition identity_left (self : block) (channelIn : Z) : bool :=
  if is_transpose (cls self) then ofilters self =? channelIn
  else (check_dl_func (strides self) && (ofilters self =? channelIn))%bool.

Definition build_branches (self : block) (channelIn channel_axis : Z)
    (filters : Z) (middle_lgroups : option Z) (next_shape : shape)
  : result branches :=
  let unit_strides := unit_strides self in
  '(last_use_bias, branch_left, left_shape) <-
     (if identity_left self channelIn then Ok (true, None, next_shape)
      else
        let l := AConv (branch_left_args self unit_strides) in
        'left_shape <- build_layer l next_shape ;;
        Ok (false, Some l, left_shape)) ;;
  let layer_dropout :=
    return_dropout (dropout self) (dropout_rate self) channel_axis (rank self) in
  'right_shape <-
     match layer_dropout with
     | Some l => build_layer l next_shape
     | None => Ok next_shape
     end ;;
  'act <- getattr "activation" (activation self) ;;
  'act_config <- getattr "activity_config" (activity_config self) ;;
  let first :=
    NACUnit (nac_args self act act_config filters None
               (IntArg 1) unit_strides (IntArg 1) None (first_gamma self)) in
  'right_shape <- build_layer first right_shape ;;
  '(middle, right_shape) <-
     build_middle (middle_unit self act act_config filters middle_lgroups)
                  (seq 0 (Z.to_nat (depth self))) right_shape ;;
  let last :=
    NACUnit (nac_args self act act_config (ofilters self) None
               (IntArg 1) (IntArg 1) (IntArg 1) (Some last_use_bias)
               (last_gamma self)) in
  'right_shape <- build_layer last right_shape ;;
  Ok {| br_left := branch_left;
        br_dropout := layer_dropout;
        br_first := first;
        br_middle := middle;
        br_last := last;
        left_shape := left_shape;
        right_shape := right_shape |}.

Definition channel_message : string :=
  "The channel dimension of the inputs should be defined. Found `None`.".

(** The head of [build]: the rank check and the channel count. *)
Definition build_channels (self : block) (input_shape : shape)
  : result (Z * Z) :=
  if Nat.ltb (List.length input_shape) (rank self + 2)
  then Raise (ValueError "Shape must have rank at least rank + 2.") else
  let channel_axis :=
    if data_format_eqb (data_format_ self) channels_first then 1 else -1 in
  'c <- getitem input_shape channel_axis ;;
  match c with
  | None => Raise (ValueError channel_message)
  | Some channelIn => Ok (channel_axis, channelIn)
  end.

(** The latent counts after the head of [build]: [self.lgroups],
    [self.lfilters] and the channel count of the latent units. *)
Definition build_latent (self : block) (channelIn : Z)
  : result (option Z * Z * Z) :=
  if is_resnext (cls self) then
    '(g, f) <- infer_latent (depth self) (kernel_size self) channelIn
                 (ofilters self) (lgroups self) (lfilters self) ;;
    Ok (Some g, f, g * f)
  else
    let f := match lfilters self with
             | Some f => f
             | None => Z.max 1 (channelIn / 2)
             end in
    Ok (None, f, f).

(** The instance after a successful [build]. *)
Definition built (self : block) (channelIn : Z) (lgroups : option Z)
    (lfilters : Z) (output_padding output_cropping : option pad_arg)
    (L : sublayers) : block :=
  {| cls := cls self;
     rank := rank self;
     depth := depth self;
     ofilters := ofilters self;
     lgroups := lgroups;
     lfilters := Some lfilters;
     kernel_size := kernel_size self;
     strides := strides self;
     output_mshape := output_mshape self;
     output_padding := output_padding;
     output_cropping := output_cropping;
     data_format_ := data_format_ self;
     dilation_rate := dilation_rate self;
     normalization := normalization self;
     groups := groups self;
     dropout := dropout self;
     dropout_rate := dropout_rate self;
     activation := activation self;
     activity_config := activity_config self;
     high_activation := high_activation self;
     channelIn := Some channelIn;
     layers := Some L |}.

(** [build] of the four bases. *)
Definition build (self : block) (input_shape : shape) : result block :=
  '(channel_axis, channelIn) <- build_channels self input_shape ;;
  '(lgroups, lfilters, filters) <- build_latent self channelIn ;;
  if is_transpose (cls self) then
    '(output_padding, output_cropping) <-
       infer_output_padding self input_shape ;;
    '(uppool, padding, next_shape) <-
       build_uppool self output_padding input_shape ;;
    'br <- build_branches self channelIn channel_axis filters lgroups
             next_shape ;;
    merge_build (left_shape br) (right_shape br) ;;;
    'next_shape <- merge_compute_output_shape (left_shape br) (right_shape br) ;;
    'cropping <- build_cropping self output_cropping next_shape ;;
    Ok (built self channelIn lgroups lfilters output_padding output_cropping
          {| layer_uppool := Some uppool;
             layer_padding := padding;
             layer_branch_left := br_left br;
             layer_dropout := br_dropout br;
             layer_first := br_first br;
             layer_middle := br_middle br;
             layer_last := br_last br;
             layer_merge := Add;
             layer_cropping := cropping |})
  else
    'br <- build_branches self channelIn channel_axis filters lgroups
             input_shape ;;
    merge_build (left_shape br) (right_shape br) ;;;
    Ok (built self channelIn lgroups lfilters
          (output_padding self) (output_cropping self)
          {| layer_uppool := None;
             layer_padding := None;
             layer_branch_left := br_left br;
             layer_dropout := br_dropout br;
             layer_first := br_first br;
             layer_middle := br_middle br;
             layer_last := br_last br;
             layer_merge := Add;
             layer_cropping := None |}).

(** ** [call] and [compute_output_shape] *)

Definition apply_opt (l : option layer) (x : tensor) : tensor :=
  match l with
  | Some l => Apply l x
  | None => x
  end.

(** [for i in range(self.depth): x = getattr(self, 'layer_middle_NN')(x)] *)
Fixpoint call_middle (middle : list layer) (range : list nat) (x : tensor)
  : result tensor :=
  match range with
  | [] => Ok x
  | i :: range' =>
      'l <- getattr "layer_middle" (nth_error middle i) ;;
      call_middle middle range' (Apply l x)
  end.

(** The sub-layers are attributes that [build] assigns: on an instance
    that was never built, the first one read is missing. *)
Definition first_layer_read (self : block) : string :=
  if is_transpose (cls self) then "layer_uppool" else "layer_branch_left".

(** [call] of the four bases. *)
Definition call (self : block) (inputs : tensor) : result tensor :=
  'L <- getattr (first_layer_read self) (layers self) ;;
  'outputs <-
     (if is_transpose (cls self) then
        'uppool <- getattr "layer_uppool" (layer_uppool L) ;;
        Ok (apply_opt (layer_padding L) (Apply uppool inputs))
      else Ok inputs) ;;
  let branch_left := apply_opt (layer_branch_left L) outputs in
  let branch_right := apply_opt (layer_dropout L) outputs in
  let branch_right := Apply (layer_first L) branch_right in
  'branch_right <-
     call_middle (layer_middle L) (seq 0 (Z.to_nat (depth self))) branch_right ;;
  let branch_right := Apply (layer_last L) branch_right in
  let outputs := Merge (layer_merge L) branch_left branch_right in
  if is_transpose (cls self) then Ok (apply_opt (layer_cropping L) outputs)
  else Ok outputs.

Definition shape_opt (l : option layer) (s : shape) : result shape :=
  match l with
  | Some l => layer_compute_output_shape l s
  | None => Ok s
  end.

Fixpoint shape_middle (middle : list layer) (range : list nat) (s : shape)
  : result shape :=
  match range with
  | [] => Ok s
  | i :: range' =>
      'l <- getattr "layer_middle" (nth_error middle i) ;;
      's <- layer_compute_output_shape l s ;;
      shape_middle middle range' s
  end.

(** The shape after a list of layers applied in order. *)
Fixpoint shape_chain (ls : list layer) (s : shape) : result shape :=
  match ls with
  | [] => Ok s
  | l :: ls' => 's <- layer_compute_output_shape l s ;; shape_chain ls' s
  end.

Definition merge_shape (l : layer) (s1 s2 : shape) : result shape :=
  match l with
  | Add => merge_compute_output_shape s1 s2
  | _ => Raise (TypeError "not a merge layer")
  end.

(** [compute_output_shape] of the four bases. *)
Definition compute_output_shape (self : block) (input_shape : shape)
  : result shape :=
  (if (is_transpose (cls self)
       && Nat.ltb (List.length input_shape) (rank self + 2))%bool
   then Raise (ValueError "Shape must have rank at least rank + 2.")
   else Ok tt) ;;;
  'L <- getattr (first_layer_read self) (layers self) ;;
  'next_shape <-
     (if is_transpose (cls self) then
        'uppool <- getattr "layer_uppool" (layer_uppool L) ;;
        'next_shape <- layer_compute_output_shape uppool input_shape ;;
        shape_opt (layer_padding L) next_shape
      else Ok input_shape) ;;
  'branch_left_shape <- shape_opt (layer_branch_left L) next_shape ;;
  'branch_right_shape <- shape_opt (layer_dropout L) next_shape ;;
  'branch_right_shape <-
     layer_compute_output_shape (layer_first L) branch_right_shape ;;
  'branch_right_shape <-
     shape_middle (layer_middle L) (seq 0 (Z.to_nat (depth self)))
                  branch_right_shape ;;
  'branch_right_shape <-
     layer_compute_output_shape (layer_last L) branch_right_shape ;;
  'next_shape <-
     merge_shape (layer_merge L) branch_left_shape branch_right_shape ;;
  if is_transpose (cls self) then shape_opt (layer_cropping L) next_shape
  else Ok next_shape.

(** The spatial entries of a shape, for a data format and a rank. *)
Definition spatial (df : data_format) (n : nat) (s : shape) : result (list dim) :=
  '(_, space, _) <- split_shape df n s ;; Ok space.

Definition channels (df : data_format) (n : nat) (s : shape) : result dim :=
  '(_, _, c) <- split_shape df n s ;; Ok c.

(** ** Sample constructor arguments *)

Definition sample_args (rank : nat) (depth ofilters : Z) : init_args :=
  {| a_rank := rank;
     a_depth := depth;
     a_ofilters := ofilters;
     a_kernel_size := IntArg 3;
     a_lgroups := None;
     a_lfilters := None;
     a_strides := IntArg 1;
     a_output_mshape := None;
     a_output_padding := None;
     a_output_cropping := None;
     a_data_format := None;
     a_dilation_rate := IntArg 1;
     a_normalization := Some "inst"%string;
     a_groups := 32;
     a_dropout := None;
     a_dropout_rate := 0x1.3333333333333p-2%float;
     a_activation := Some "prelu"%string;
     a_activity_config := None;
     a_high_activation := None |}.

Definition with_strides (a : init_args) (strides dilation_rate : tuple_arg)
  : init_args :=
  {| a_rank := a_rank a;
     a_depth := a_depth a;
     a_ofilters := a_ofilters a;
     a_kernel_size := a_kernel_size a;
     a_lgroups := a_lgroups a;
     a_lfilters := a_lfilters a;
     a_strides := strides;
     a_output_mshape := a_output_mshape a;
     a_output_padding := a_output_padding a;
     a_output_cropping := a_output_cropping a;
     a_data_format := a_data_format a;
     a_dilation_rate := dilation_rate;
     a_normalization := a_normalization a;
     a_groups := a_groups a;
     a_dropout := a_dropout a;
     a_dropout_rate := a_dropout_rate a;
     a_activation := a_activation a;
     a_activity_config := a_activity_config a;
     a_high_activation := a_high_activation a |}.

Definition with_output_mshape (a : init_args) (df : data_format) (m : shape)
  : init_args :=
  {| a_rank := a_rank a;
     a_depth := a_depth a;
     a_ofilters := a_ofilters a;
     a_kernel_size := a_kernel_size a;
     a_lgroups := a_lgroups a;
     a_lfilters := a_lfilters a;
     a_strides := a_strides a;
     a_output_mshape := Some m;
     a_output_padding := a_output_padding a;
     a_output_cropping := a_output_cropping a;
     a_data_format := Some df;
     a_dilation_rate := a_dilation_rate a;
     a_normalization := a_normalization a;
     a_groups := a_groups a;
     a_dropout := a_dropout a;
     a_dropout_rate := a_dropout_rate a;
     a_activation := a_activation a;
     a_activity_config := a_activity_config a;
     a_high_activation := a_high_activation a |}.

Definition with_activation (a : init_args) (act : option string) : init_args :=
  {| a_rank := a_rank a;
     a_depth := a_depth a;
     a_ofilters := a_ofilters a;
     a_kernel_size := a_kernel_size a;
     a_lgroups := a_lgroups a;
     a_lfilters := a_lfilters a;
     a_strides := a_strides a;
     a_output_mshape := a_output_mshape a;
     a_output_padding := a_output_padding a;
     a_output_cropping := a_output_cropping a;
     a_data_format := a_data_format a;
     a_dilation_rate := a_dilation_rate a;
     a_normalization := a_normalization a;
     a_groups := a_groups a;
     a_dropout := a_dropout a;
     a_dropout_rate := a_dropout_rate a;
     a_activation := act;
     a_activity_config := a_activity_config a;
     a_high_activation := a_high_activation a |}.

(** Construct, then build on an input shape. *)
Definition init_build (k : klass) (a : init_args) (input_shape : shape)
  : result block :=
  'self <- init k a ;; build self input_shape.

(** ** Vocabulary of the statements and sample blocks *)

(** The constructor reaches its dilation check: the depth check, the
    normalisation of [kernel_size] and the 1D [channels_first] guard of
    the transposed classes have passed. *)
Definition reaches_dilation_check (k : klass) (a : init_args) : Prop :=
  3 <= a_depth a /\
  (exists ks, normalize_tuple (a_kernel_size a) (a_rank a) "kernel_size" = Ok ks) /\
  (is_transpose k && Nat.eqb (a_rank a) 1
   && data_format_eqb (normalize_data_format (a_data_format a)) channels_first
   = false)%bool.

(** The instance that [__init__] returns. *)
Definition init_block (k : klass) (a : init_args) (ks st dl : list Z) : block :=
  {| cls := k;
     rank := a_rank a;
     depth := a_depth a - 2;
     ofilters := a_ofilters a;
     lgroups := if is_resnext k then a_lgroups a else None;
     lfilters := a_lfilters a;
     kernel_size := ks;
     strides := st;
     output_mshape :=
       if is_transpose k then keep_if shape_truthy (a_output_mshape a)
       else None;
     output_padding := if is_transpose k then a_output_padding a else None;
     output_cropping :=
       if is_transpose k then keep_if pad_arg_truthy (a_output_cropping a)
       else None;
     data_format_ := normalize_data_format (a_data_format a);
     dilation_rate := dl;
     normalization := a_normalization a;
     groups := a_groups a;
     dropout := a_dropout a;
     dropout_rate := a_dropout_rate a;
     activation := fst (fst (init_activation a));
     activity_config := snd (init_activation a);
     high_activation := snd (fst (init_activation a));
     channelIn := None;
     layers := None |}.

(** The checks of [__init__], in order. *)
Inductive init_outcome (k : klass) (a : init_args) : result block -> Prop :=
| init_bad_depth :
    a_depth a < 3 ->
    init_outcome k a (Raise (ValueError (depth_message k)))
| init_bad_kernel_size e :
    3 <= a_depth a ->
    normalize_tuple (a_kernel_size a) (a_rank a) "kernel_size" = Raise e ->
    init_outcome k a (Raise e)
| init_bad_strides ks e :
    3 <= a_depth a ->
    normalize_tuple (a_kernel_size a) (a_rank a) "kernel_size" = Ok ks ->
    normalize_tuple (a_strides a) (a_rank a) "strides" = Raise e ->
    init_outcome k a (Raise e)
| init_bad_data_format ks st :
    3 <= a_depth a ->
    normalize_tuple (a_kernel_size a) (a_rank a) "kernel_size" = Ok ks ->
    normalize_tuple (a_strides a) (a_rank a) "strides" = Ok st ->
    (is_transpose k && Nat.eqb (a_rank a) 1
     && data_format_eqb (normalize_data_format (a_data_format a)) channels_first
     = true)%bool ->
    init_outcome k a (Raise (ValueError channels_first_1d_message))
| init_bad_dilation_rate ks st e :
    reaches_dilation_check k a ->
    normalize_tuple (a_kernel_size a) (a_rank a) "kernel_size" = Ok ks ->
    normalize_tuple (a_strides a) (a_rank a) "strides" = Ok st ->
    normalize_tuple (a_dilation_rate a) (a_rank a) "dilation_rate" = Raise e ->
    init_outcome k a (Raise e)
| init_bad_dilation ks st dl :
    reaches_dilation_check k a ->
    normalize_tuple (a_kernel_size a) (a_rank a) "kernel_size" = Ok ks ->
    normalize_tuple (a_strides a) (a_rank a) "strides" = Ok st ->
    normalize_tuple (a_dilation_rate a) (a_rank a) "dilation_rate" = Ok dl ->
    check_dl_func dl = false -> check_dl_func st = false ->
    init_outcome k a (Raise (ValueError dilation_message))
| init_returns ks st dl :
    reaches_dilation_check k a ->
    normalize_tuple (a_kernel_size a) (a_rank a) "kernel_size" = Ok ks ->
    normalize_tuple (a_strides a) (a_rank a) "strides" = Ok st ->
    normalize_tuple (a_dilation_rate a) (a_rank a) "dilation_rate" = Ok dl ->
    (check_dl_func dl = true \/ check_dl_func st = true) ->
    init_outcome k a (Ok (init_block k a ks st dl)).

(** Spatial sizes after a [same] convolution: strides alone matter. *)
Fixpoint stride_space (space : list dim) (strides : list Z)
  : result (list dim) :=
  match space, strides with
  | [], _ => Ok []
  | n :: space', st :: sts =>
      'n' <- conv_output_length n 1 same st 1 ;;
      'r <- stride_space space' sts ;;
      Ok (n' :: r)
  | _ :: _, [] => Raise IndexError
  end.

(** The sub-layers of a built block, from its attributes: [act] and
    [cfg] are [self.activation] and [self.activity_config], [filters] the
    channel count of the latent units, [lg] the groups of the middle
    units; [up], [pad] and [crop] are the up-sampling, padding and
    cropping layers. *)
Definition expected_layers (self : block) (channel_axis channelIn filters : Z)
    (lg : option Z) (act : string) (cfg : option config_dict)
    (up pad crop : option layer) : sublayers :=
  {| layer_uppool := up;
     layer_padding := pad;
     layer_branch_left :=
       if identity_left self channelIn then None
       else Some (AConv (branch_left_args self (unit_strides self)));
     layer_dropout :=
       return_dropout (dropout self) (dropout_rate self) channel_axis (rank self);
     layer_first :=
       NACUnit (nac_args self act cfg filters None
                  (IntArg 1) (unit_strides self) (IntArg 1) None
                  (first_gamma self));
     layer_middle :=
       map (middle_unit self act cfg filters lg)
           (seq 0 (Z.to_nat (depth self)));
     layer_last :=
       NACUnit (nac_args self act cfg (ofilters self) None
                  (IntArg 1) (IntArg 1) (IntArg 1)
                  (Some (identity_left self channelIn)) (last_gamma self));
     layer_merge := Add;
     layer_cropping := crop |}.

(** The tensor that [call] returns on a block with the sub-layers [L]. *)
Definition expected_output (transposed : bool) (L : sublayers) (inputs : tensor)
  : tensor :=
  let outputs :=
    match layer_uppool L with
    | Some uppool => apply_opt (layer_padding L) (Apply uppool inputs)
    | None => inputs
    end in
  let branch_left := apply_opt (layer_branch_left L) outputs in
  let branch_right :=
    Apply (layer_last L)
      (fold_left (fun t l => Apply l t) (layer_middle L)
         (Apply (layer_first L) (apply_opt (layer_dropout L) outputs))) in
  let merged := Merge (layer_merge L) branch_left branch_right in
  if transposed then apply_opt (layer_cropping L) merged else merged.

(** A sample plain block: 2D, depth 4, 16 output filters, strides 2,
    built on a 9x8 input with 4 channels. *)
Definition residual_sample_args : init_args :=
  with_strides (sample_args 2 4 16) (IntArg 2) (IntArg 1).

Definition residual_sample_shape : shape := [None; Some 9; Some 8; Some 4].

Definition residual_sample_self : block :=
  init_block Residual residual_sample_args [3; 3] [2; 2] [1; 1].

Definition residual_sample_block : block :=
  built residual_sample_self 4 None 2 None None
    (expected_layers residual_sample_self (-1) 4 2 None "linear" None
       None None None).

(** The convolutional units of a built block: the projection when there
    is one, the first unit, the middle units and the last unit. *)
Definition conv_units (L : sublayers) : list layer :=
  match layer_branch_left L with
  | Some l => [l]
  | None => []
  end ++ [layer_first L] ++ layer_middle L ++ [layer_last L].

(** The arguments of a convolutional unit. *)
Definition unit_args_of (l : layer) : option unit_args :=
  match l with
  | AConv a | NACUnit a => Some a
  | _ => None
  end.

Definition has_stride_1 (l : layer) : Prop :=
  exists u, unit_args_of l = Some u /\ u_strides u = IntArg 1.

(** The factor by which an up-sampling layer repeats each spatial axis,
    and the amounts of a zero-padding and of a cropping layer, one
    [(before, after)] pair per spatial axis. *)
Definition upsampling_size (l : layer) : option (list Z) :=
  match l with
  | UpSampling1D size => Some [size]
  | UpSampling2D size _ | UpSampling3D size _ => Some size
  | _ => None
  end.

Definition padding_amounts (l : layer) : option pairs :=
  match l with
  | ZeroPadding1D p => Some [p]
  | ZeroPadding2D p _ | ZeroPadding3D p _ => Some p
  | _ => None
  end.

Definition cropping_amounts (l : layer) : option pairs :=
  match l with
  | Cropping1D c => Some [c]
  | Cropping2D c _ | Cropping3D c _ => Some c
  | _ => None
  end.

(** What the statements say of a convolutional unit of the block [b],
    read off the arguments [u] it was constructed with: its rank, data
    format, normalization and group count are the block's, its padding
    is 'same', and its filters, groups, kernel size, strides and dilation
    rate are the ones given. *)
Definition conv_unit (b : block) (u : unit_args) (filters : Z)
    (lgroups : option Z) (kernel_size strides dilation_rate : tuple_arg)
  : Prop :=
  u_rank u = rank b /\ u_padding u = same /\
  u_data_format u = data_format_ b /\
  u_normalization u = normalization b /\ u_groups u = groups b /\
  u_filters u = filters /\ u_lgroups u = lgroups /\
  u_kernel_size u = kernel_size /\ u_strides u = strides /\
  u_dilation_rate u = dilation_rate.

(** A unit of the right branch receives the block's activation,
    [activity_config] and [high_activation]... *)
Definition block_activation (b : block) (u : unit_args) : Prop :=
  (exists act, activation b = Some act /\ u_activation u = Some act) /\
  activity_config b = Some (u_activity_config u) /\
  u_high_activation u = high_activation b.

(** ... and the projection of the left branch receives none. *)
Definition no_activation (u : unit_args) : Prop :=
  u_activation u = None /\ u_activity_config u = None /\
  u_high_activation u = None.

(** The tensor [dropped] is [x] after the dropout layer of the block [b],
    when it has one. *)
Definition after_dropout (b : block) (x dropped : tensor) : Prop :=
  match dropout b with
  | None => dropped = x
  | Some kind =>
      dropped =
        Apply (Dropout kind (dropout_rate b)
                 (if data_format_eqb (data_format_ b) channels_first
                  then 1 else -1)
                 (rank b)) x
  end.

(** The right branch of a block: the first unit, the middle units in
    order and the last unit, applied to the tensor [dropped]. *)
Definition right_branch (first : unit_args) (middle : list unit_args)
    (last : unit_args) (dropped : tensor) : tensor :=
  Apply (NACUnit last)
    (fold_left (fun t u => Apply (NACUnit u) t) middle
       (Apply (NACUnit first) dropped)).

(** A sample transposed block: 2D, depth 3, 16 output filters, strides
    2 and a desired output of 19x14, built on a 9x8 input with 4
    channels. *)
Definition transpose_sample_args : init_args :=
  with_output_mshape (with_strides (sample_args 2 3 16) (IntArg 2) (IntArg 1))
    channels_last [None; Some 19; Some 14; Some 16].

Definition transpose_sample_self : block :=
  init_block ResidualTranspose transpose_sample_args [3; 3] [2; 2] [1; 1].

Definition transpose_sample_block : block :=
  built transpose_sample_self 4 None 2
    (Some (PadPairs [(0, 1); (0, 0)])) (Some (PadPairs [(0, 0); (1, 1)]))
    (expected_layers transpose_sample_self (-1) 4 2 None "linear" None
       (Some (UpSampling2D [2; 2] channels_last))
       (Some (ZeroPadding2D [(0, 1); (0, 0)] channels_last))
       (Some (Cropping2D [(0, 0); (1, 1)] channels_last))).

(** A convolutional unit is grouped when it is constructed with
    [lgroups]. *)
Definition grouped (l : layer) : bool :=
  match unit_args_of l with
  | Some u => match u_lgroups u with Some _ => true | None => false end
  | None => false
  end.

(** A sample ResNeXt block: 2D, depth 3, 64 output filters, latent
    counts left to [build], on an 8x8 input with 64 channels. *)
Definition resnext_sample_self : block :=
  init_block Resnext (sample_args 2 3 64) [3; 3] [1; 1] [1; 1].

Definition resnext_sample_shape : shape := [None; Some 8; Some 8; Some 64].

Definition resnext_sample_block : block :=
  built resnext_sample_self 64 (Some 32) 3 None None
    (expected_layers resnext_sample_self (-1) 64 96 (Some 32) "linear" None
       None None None).

(** A transposed 2D block with [dilation_rate = 2] (strides 1), 4 output
    filters and the desired output shape [(None, 12, 12, 4)]... *)
Definition dilated_sample_args : init_args :=
  with_output_mshape (with_strides (sample_args 2 3 4) (IntArg 1) (IntArg 2))
    channels_last [None; Some 12; Some 12; Some 4].

(** ... built on an 8x8 input with 4 channels. *)
Definition dilated_sample_shape : shape := [None; Some 8; Some 8; Some 4].

(** A [channels_first] transposed 2D block with strides 2, 3 output
    filters and the desired output shape [(None, 3, 20, 16)]... *)
Definition channels_first_sample_args : init_args :=
  with_output_mshape (with_strides (sample_args 2 3 3) (IntArg 2) (IntArg 1))
    channels_first [None; Some 3; Some 20; Some 16].

(** ... built on an 8x8 input with 3 channels. *)
Definition channels_first_sample_shape : shape :=
  [None; Some 3; Some 8; Some 8].

(** What [build] infers from the entries [sp_out] of [output_mshape] and
    [sp_in] of the input shape: for every axis [i] and
    [diff = sp_out[i] - sp_in[i] * max(strides[i], dilation_rate[i])],
    a positive [diff] gives the padding [(diff div 2, diff div 2 + diff mod 2)]
    and the cropping [(0, 0)]; a negative one gives the cropping
    [(|diff| div 2, |diff| div 2 + |diff| mod 2)] and the padding [(0, 0)];
    zero gives [(0, 0)] for both; and [output_padding] (resp.
    [output_cropping]) is [None] exactly when all its pairs are [(0, 0)]. *)
Definition inferred_amounts (self : block) (sp_out sp_in : list dim)
    (op oc : option pad_arg) : Prop :=
  exists ps cs : pairs,
    List.length ps = rank self /\ List.length cs = rank self /\
    (forall i, (i < rank self)%nat ->
       exists o n st d,
         nth_error sp_out i = Some (Some o) /\
         nth_error sp_in i = Some (Some n) /\
         nth_error (strides self) i = Some st /\
         nth_error (dilation_rate self) i = Some d /\
         exists p c,
           nth_error ps i = Some p /\ nth_error cs i = Some c /\
           let diff := o - n * Z.max st d in
           (0 < diff -> p = (diff / 2, diff / 2 + diff mod 2) /\ c = (0, 0)) /\
           (diff < 0 ->
            c = (Z.abs diff / 2, Z.abs diff / 2 + Z.abs diff mod 2) /\
            p = (0, 0)) /\
           (diff = 0 -> p = (0, 0) /\ c = (0, 0))) /\
    (Forall (fun p => p = (0, 0)) ps -> op = None) /\
    (~ Forall (fun p => p = (0, 0)) ps -> op = Some (PadPairs ps)) /\
    (Forall (fun c => c = (0, 0)) cs -> oc = None) /\
    (~ Forall (fun c => c = (0, 0)) cs -> oc = Some (PadPairs cs)).

(** ** The latent counts as specified

    The closed forms by which the ResNeXt [build] is specified to infer
    [lfilters] and [lgroups]: [cin] is the input channel count, [cout]
    the output filters, [D] the number of middle units and [K] the
    product of the kernel sizes.  They are evaluated as Python evaluates
    them: [cin / 2] is a true division, an integer that meets a float is
    converted when the operation is reached, and [round] rounds half to
    even. *)








(** A sample plain block constructed without activation. *)
Definition inactive_sample_args : init_args :=
  with_activation residual_sample_args None.

Definition inactive_sample_self : block :=
  init_block Residual inactive_sample_args [3; 3] [2; 2] [1; 1].

(** ** The public classes

    The twelve public classes [Residual1D], ..., [Resnext3DTranspose]:
    each takes the arguments of its base without [rank], fixes [rank] to
    its number of spatial axes and forwards everything else, the extra
    keyword arguments ([**kwargs], among them [_high_activation])
    included. *)
Inductive ndim : Type := D1 | D2 | D3.

Definition rank_of (n : ndim) : nat :=
  match n with
  | D1 => 1%nat
  | D2 => 2%nat
  | D3 => 3%nat
  end.

Record public_class : Type := mk_public_class {
  pc_base : klass;
  pc_ndim : ndim
}.

Definition with_rank (a : init_args) (rank : nat) : init_args :=
  {| a_rank := rank;
     a_depth := a_depth a;
     a_ofilters := a_ofilters a;
     a_kernel_size := a_kernel_size a;
     a_lgroups := a_lgroups a;
     a_lfilters := a_lfilters a;
     a_strides := a_strides a;
     a_output_mshape := a_output_mshape a;
     a_output_padding := a_output_padding a;
     a_output_cropping := a_output_cropping a;
     a_data_format := a_data_format a;
     a_dilation_rate := a_dilation_rate a;
     a_normalization := a_normalization a;
     a_groups := a_groups a;
     a_dropout := a_dropout a;
     a_dropout_rate := a_dropout_rate a;
     a_activation := a_activation a;
     a_activity_config := a_activity_config a;
     a_high_activation := a_high_activation a |}.

(** [__init__] of a public class: [super().__init__(rank=n, ...)]. *)
Definition public_init (p : public_class) (a : init_args) : result block :=
  init (pc_base p) (with_rank a (rank_of (pc_ndim p))).

(** The default of [strides] and [dilation_rate]: [1] in the 1D classes,
    [(1, 1)] and [(1, 1, 1)] in the others. *)
Definition default_ones (n : ndim) : tuple_arg :=
  match n with
  | D1 => IntArg 1
  | D2 => SeqArg [1; 1]
  | D3 => SeqArg [1; 1; 1]
  end.

(** The arguments that a public class forwards when it is called with
    its two required arguments only: [data_format] defaults to
    ['channels_last'] in the plain classes and to [None] in the
    transposed ones. *)
Definition default_args (p : public_class) (ofilters : Z)
    (kernel_size : tuple_arg) : init_args :=
  {| a_rank := rank_of (pc_ndim p);
     a_depth := 3;
     a_ofilters := ofilters;
     a_kernel_size := kernel_size;
     a_lgroups := None;
     a_lfilters := None;
     a_strides := default_ones (pc_ndim p);
     a_output_mshape := None;
     a_output_padding := None;
     a_output_cropping := None;
     a_data_format :=
       if is_transpose (pc_base p) then None else Some channels_last;
     a_dilation_rate := default_ones (pc_ndim p);
     a_normalization := Some "inst"%string;
     a_groups := 32;
     a_dropout := None;
     a_dropout_rate := 0x1.3333333333333p-2%float;
     a_activation := None;
     a_activity_config := None;
     a_high_activation := None |}.

(** ** More vocabulary *)

(** The instance [b] as the constructor leaves it: nothing built yet. *)
Definition unbuilt (b : block) : block :=
  {| cls := cls b;
     rank := rank b;
     depth := depth b;
     ofilters := ofilters b;
     lgroups := lgroups b;
     lfilters := lfilters b;
     kernel_size := kernel_size b;
     strides := strides b;
     output_mshape := output_mshape b;
     output_padding := output_padding b;
     output_cropping := output_cropping b;
     data_format_ := data_format_ b;
     dilation_rate := dilation_rate b;
     normalization := normalization b;
     groups := groups b;
     dropout := dropout b;
     dropout_rate := dropout_rate b;
     activation := activation b;
     activity_config := activity_config b;
     high_activation := high_activation b;
     channelIn := None;
     layers := None |}.

(** The same instance with other values of [self.output_padding] and
    [self.output_cropping]. *)
Definition with_output_amounts (self : block)
    (output_padding output_cropping : option pad_arg) : block :=
  {| cls := cls self;
     rank := rank self;
     depth := depth self;
     ofilters := ofilters self;
     lgroups := lgroups self;
     lfilters := lfilters self;
     kernel_size := kernel_size self;
     strides := strides self;
     output_mshape := output_mshape self;
     output_padding := output_padding;
     output_cropping := output_cropping;
     data_format_ := data_format_ self;
     dilation_rate := dilation_rate self;
     normalization := normalization self;
     groups := groups self;
     dropout := dropout self;
     dropout_rate := dropout_rate self;
     activation := activation self;
     activity_config := activity_config self;
     high_activation := high_activation self;
     channelIn := channelIn self;
     layers := layers self |}.

Definition with_activity_config (a : init_args) (cfg : option config_dict)
  : init_args :=
  {| a_rank := a_rank a;
     a_depth := a_depth a;
     a_ofilters := a_ofilters a;
     a_kernel_size := a_kernel_size a;
     a_lgroups := a_lgroups a;
     a_lfilters := a_lfilters a;
     a_strides := a_strides a;
     a_output_mshape := a_output_mshape a;
     a_output_padding := a_output_padding a;
     a_output_cropping := a_output_cropping a;
     a_data_format := a_data_format a;
     a_dilation_rate := a_dilation_rate a;
     a_normalization := a_normalization a;
     a_groups := a_groups a;
     a_dropout := a_dropout a;
     a_dropout_rate := a_dropout_rate a;
     a_activation := a_activation a;
     a_activity_config := cfg;
     a_high_activation := a_high_activation a |}.

Definition with_latent (a : init_args) (lgroups lfilters : option Z)
  : init_args :=
  {| a_rank := a_rank a;
     a_depth := a_depth a;
     a_ofilters := a_ofilters a;
     a_kernel_size := a_kernel_size a;
     a_lgroups := lgroups;
     a_lfilters := lfilters;
     a_strides := a_strides a;
     a_output_mshape := a_output_mshape a;
     a_output_padding := a_output_padding a;
     a_output_cropping := a_output_cropping a;
     a_data_format := a_data_format a;
     a_dilation_rate := a_dilation_rate a;
     a_normalization := a_normalization a;
     a_groups := a_groups a;
     a_dropout := a_dropout a;
     a_dropout_rate := a_dropout_rate a;
     a_activation := a_activation a;
     a_activity_config := a_activity_config a;
     a_high_activation := a_high_activation a |}.

(** The activation that [__init__] works with: [_high_activation] when
    it is given, [activation] otherwise. *)
Definition given_activation (a : init_args) : option string :=
  match a_high_activation a with
  | Some h => Some h
  | None => a_activation a
  end.

(** A sample 1D transposed block: depth 3, 16 output filters, strides 2
    and a desired output of length 16, built on an input of length 8
    with 4 channels. *)
Definition transpose_1d_args : init_args :=
  with_output_mshape (with_strides (sample_args 1 3 16) (IntArg 2) (IntArg 1))
    channels_last [None; Some 16; Some 16].

Definition transpose_1d_shape : shape := [None; Some 8; Some 4].

Definition transpose_1d_self : block :=
  init_block ResidualTranspose transpose_1d_args [3] [2] [1].

Definition transpose_1d_block : block :=
  built transpose_1d_self 4 None 2 None None
    (expected_layers transpose_1d_self (-1) 4 2 None "linear" None
       (Some (UpSampling1D 2)) None None).

(** A sample transposed block without [output_mshape]: 2D, depth 3,
    16 output filters, strides 2. *)
Definition transpose_plain_args : init_args :=
  with_strides (sample_args 2 3 16) (IntArg 2) (IntArg 1).

Definition transpose_plain_self : block :=
  init_block ResidualTranspose transpose_plain_args [3; 3] [2; 2] [1; 1].

Definition transpose_plain_block : block :=
  built transpose_plain_self 4 None 2 None None
    (expected_layers transpose_plain_self (-1) 4 2 None "linear" None
       (Some (UpSampling2D [2; 2] channels_last)) None None).

(** A ResNeXt block given [lfilters = 0] and no [lgroups]. *)
Definition zero_lfilters_self : block :=
  init_block Resnext (with_latent (sample_args 2 3 64) None (Some 0))
    [3; 3] [1; 1] [1; 1].

(** The tensor that the sample plain block returns on an input of its
    build-time shape. *)
Definition residual_sample_output : tensor :=
  expected_output false
    (expected_layers residual_sample_self (-1) 4 2 None "linear" None
       None None None)
    (Input residual_sample_shape).

(** An input shape whose first spatial size is unknown. *)
Definition unknown_height_shape : shape := [None; None; Some 8; Some 4].

(** ** The activity regularizer

    The block records leave the [activity_regularizer] argument out; the
    classes do not treat it alike.  [__init__] stores
    [regularizers.get(activity_regularizer)] in
    [self.sub_activity_regularizer], which the units receive; the plain
    classes ([_Residual], [_Resnext]) also assign it to the layer's own
    [self.activity_regularizer], which the transposed classes leave at
    the [None] of [Layer.__init__].  [get_config] serialises
    [self.sub_activity_regularizer] in the plain classes and
    [self.activity_regularizer] in the transposed ones. *)

(** A regularizer object: an instance of the framework's class [L1L2],
    with its two factors. *)
Record regularizer : Type := L1L2 {
  l1 : float;
  l2 : float
}.

(** What is passed as [activity_regularizer]: [None], a regularizer
    object, or the dictionary that serialises one (a class name and the
    factors).  Identifiers given as strings are not covered. *)
Inductive regularizer_arg : Type :=
| reg_object (r : regularizer)
| reg_config (class_name : string) (l1 l2 : float).

(** [regularizers.get]: [None] and an object are returned as they are, a
    dictionary is deserialised, which raises [ValueError] when its class
    is not a known one. *)
Definition regularizers_get (identifier : option regularizer_arg)
  : result (option regularizer) :=
  match identifier with
  | None => Ok None
  | Some (reg_object r) => Ok (Some r)
  | Some (reg_config class_name l1 l2) =>
      if String.eqb class_name "L1L2" then Ok (Some (L1L2 l1 l2))
      else Raise (ValueError ("Unknown regularizer: " ++ class_name)%string)
  end.

(** [regularizers.serialize] *)
Definition regularizers_serialize (r : option regularizer)
  : option regularizer_arg :=
  match r with
  | Some r => Some (reg_config "L1L2" (l1 r) (l2 r))
  | None => None
  end.

(** An instance with its two regularizer attributes. *)
Record regularized : Type := mk_regularized {
  base : block;
  activity_regularizer : option regularizer;
  sub_activity_regularizer : option regularizer
}.

(** The assignments of [__init__] that read [activity_regularizer]. *)
Definition init_regularizers (k : klass) (self : block)
    (activity_regularizer : option regularizer_arg) : result regularized :=
  'r <- regularizers_get activity_regularizer ;;
  Ok {| base := self;
        activity_regularizer := if is_transpose k then None else r;
        sub_activity_regularizer := r |}.

(** [__init__], with its [activity_regularizer] argument. *)
Definition init_regularized (k : klass) (a : init_args)
    (activity_regularizer : option regularizer_arg) : result regularized :=
  'self <- init k a ;; init_regularizers k self activity_regularizer.

Record regularized_config : Type := mk_regularized_config {
  c_base : config;
  c_activity_regularizer : option regularizer_arg
}.

(** [get_config], with its ['activity_regularizer'] entry. *)
Definition get_config_regularized (x : regularized)
  : result regularized_config :=
  'c <- get_config (base x) ;;
  Ok {| c_base := c;
        c_activity_regularizer :=
          regularizers_serialize
            (if is_transpose (cls (base x)) then activity_regularizer x
             else sub_activity_regularizer x) |}.

(** [cls(rank, **config)], with the ['activity_regularizer'] entry. *)
Definition from_config_regularized (k : klass) (rank : nat)
    (c : regularized_config) : result regularized :=
  'self <- from_config k rank (c_base c) ;;
  init_regularizers k self (c_activity_regularizer c).

(** The sample transposed block, constructed with a regularizer. *)
Definition sample_regularizer : regularizer :=
  {| l1 := 0.5%float; l2 := 0%float |}.

Definition regularized_sample : regularized :=
  {| base := transpose_sample_self;
     activity_regularizer := None;
     sub_activity_regularizer := Some sample_regularizer |}.

(** The sample transposed block with [dilation_rate = 2], constructed
    and built. *)
Definition dilated_sample_self : block :=
  init_block ResidualTranspose dilated_sample_args [3; 3] [1; 1] [2; 2].

Definition dilated_sample_block : block :=
  built dilated_sample_self 4 None 2 None (Some (PadPairs [(2, 2); (2, 2)]))
    (expected_layers dilated_sample_self (-1) 4 2 None "linear" None
       (Some (UpSampling2D [1; 1] channels_last)) None
       (Some (Cropping2D [(2, 2); (2, 2)] channels_last))).

(** The sample transposed block given the desired spatial sizes alone,
    [output_mshape = (19, 14)]. *)
Definition short_mshape_self : block :=
  init_block ResidualTranspose
    (with_output_mshape
       (with_strides (sample_args 2 3 16) (IntArg 2) (IntArg 1))
       channels_last [Some 19; Some 14])
    [3; 3] [2; 2] [1; 1].

(** * The demo script (demo-AGroupConvTranspose.py)

    Its two helpers without learning in them: [str2bool], which reads a
    truth value from a command-line word, and [plot_sample], which lays
    out up to three rows of images in one figure. *)

(** ** [str2bool] *)

(** [v.lower()].  On ASCII letters it is [casefold_ascii]; the words
    tested below are ASCII, and no other character is lowered to their
    letters, so that the outcome of the tests is that of the script on
    every string. *)
Definition lower (v : string) : string := casefold v.

Definition true_words : list string :=
  ["yes"; "true"; "t"; "y"; "1"]%string.

Definition false_words : list string :=
  ["no"; "false"; "f"; "n"; "0"]%string.

(** [s in (w1, ..., wn)] *)
Definition str_in (s : string) (ws : list string) : bool :=
  existsb (String.eqb s) ws.

(** [str2bool]; [None] is the raised
    [ArgumentTypeError('Unsupported value encountered.')]. *)
Definition str2bool (v : string) : option bool :=
  if str_in (lower v) true_words then Some true
  else if str_in (lower v) false_words then Some false
  else None.

(** Upper-casing of ASCII letters, and two words that differ at most by
    the case of their letters. *)
Definition upper_ascii (c : ascii) : ascii :=
  let n := nat_of_ascii c in
  if (Nat.leb 97 n && Nat.leb n 122)%bool then ascii_of_nat (n - 32) else c.

Inductive same_modulo_case : string -> string -> Prop :=
| smc_empty : same_modulo_case EmptyString EmptyString
| smc_char (c c' : ascii) (s s' : string) :
    c = c' \/ c' = upper_ascii c \/ c = upper_ascii c' ->
    same_modulo_case s s' ->
    same_modulo_case (String c s) (String c' s').

(** ** [plot_sample]

    The plotting library is modelled by the calls it receives.  A data
    set is the list of the element counts of its samples: [x[i]] raises
    [IndexError] past the end and [reshape(28, 28)] raises [ValueError]
    unless the sample has 784 elements.  [plt.subplot(nrows, ncols,
    index)] raises [ValueError] unless the grid is not empty and
    [1 <= index <= nrows * ncols]. *)
Inductive source : Type := from_x_test | from_x_input | from_decoded_imgs.

Inductive plot_call : Type :=
| plt_figure
| plt_subplot (nrows ncols index : Z)
| plt_imshow (src : source) (i : nat)
| plt_gray
| set_visible_False
| plt_show.

Definition dataset : Type := list nat.

(** A plotting computation: the calls made, and how it ended. *)
Definition plot : Type := list plot_call * result unit.

Definition plot_done : plot := ([], Ok tt).

Definition emit (c : plot_call) : plot := ([c], Ok tt).

Definition plot_raise (e : exn) : plot := ([], Raise e).

Definition and_then (m k : plot) : plot :=
  match m with
  | (t, Ok _) => (t ++ fst k, snd k)
  | (t, Raise e) => (t, Raise e)
  end.

Definition subplot (nrows ncols index : Z) : plot :=
  if ((1 <=? nrows) && (1 <=? ncols)
      && (1 <=? index) && (index <=? nrows * ncols))%bool
  then emit (plt_subplot nrows ncols index)
  else plot_raise (ValueError "num must be 1 <= num <= nrows * ncols").

(** [plt.imshow(x[i].reshape(28, 28))] *)
Definition imshow_sample (x : dataset) (src : source) (i : nat) : plot :=
  match nth_error x i with
  | None => plot_raise IndexError
  | Some size =>
      if Nat.eqb size 784 then emit (plt_imshow src i)
      else plot_raise (ValueError "cannot reshape array into shape (28,28)")
  end.

(** The inner function [plot_row(x, row, n, i)]. *)
Definition plot_row (rows : Z) (x : dataset) (src : source) (row n : Z)
    (i : nat) : plot :=
  and_then (subplot rows n (Z.of_nat i + 1 + row * n))
    (and_then (imshow_sample x src i)
       (and_then (emit plt_gray)
          (and_then (emit set_visible_False) (emit set_visible_False)))).

Definition plot_row_opt (rows : Z) (x : option dataset) (src : source)
    (row n : Z) (i : nat) : plot :=
  match x with
  | Some x => plot_row rows x src row n i
  | None => plot_done
  end.

Fixpoint plot_for (body : nat -> plot) (range : list nat) : plot :=
  match range with
  | [] => plot_done
  | i :: range' => and_then (body i) (plot_for body range')
  end.

Definition count_given (x : option dataset) : Z :=
  match x with
  | Some _ => 1
  | None => 0
  end.

(** [plot_sample(x_test, x_input, decoded_imgs, n)] *)
Definition plot_sample (x_test : dataset) (x_input decoded_imgs : option dataset)
    (n : Z) : plot :=
  let rows := 1 + count_given decoded_imgs + count_given x_input in
  and_then (emit plt_figure)
    (and_then
       (plot_for
          (fun i =>
             and_then (plot_row rows x_test from_x_test 0 n i)
               (and_then
                  (plot_row_opt rows x_input from_x_input 1 n i)
                  (plot_row_opt rows decoded_imgs from_decoded_imgs
                     (1 + count_given x_input) n i)))
          (seq 0 (Z.to_nat n)))
       (emit plt_show)).

(** The images of a trace: the cell, the data set and the sample of
    every [imshow] that follows a [subplot]. *)
Fixpoint images (t : list plot_call) : list (Z * source * nat) :=
  match t with
  | [] => []
  | plt_subplot _ _ index :: t' =>
      match t' with
      | plt_imshow src i :: _ => (index, src, i) :: images t'
      | _ => images t'
      end
  | _ :: t' => images t'
  end.

(** The first [n] samples of [x] exist and have 784 elements. *)
Definition samples_28x28 (x : dataset) (n : nat) : Prop :=
  forall i, (i < n)%nat -> nth_error x i = Some 784%nat.

Definition samples_28x28_opt (x : option dataset) (n : nat) : Prop :=
  match x with
  | Some x => samples_28x28 x n
  | None => True
  end.

(** The row of a data set in the figure. *)
Definition row_of (x_input : option dataset) (src : source) : Z :=
  match src with
  | from_x_test => 0
  | from_x_input => 1
  | from_decoded_imgs => 1 + count_given x_input
  end.

(** The calls of [plot_row] when nothing raises, and those of one round
    of the loop of [plot_sample]. *)
Definition row_calls (rows : Z) (src : source) (row n : Z) (i : nat)
  : list plot_call :=
  [plt_subplot rows n (Z.of_nat i + 1 + row * n); plt_imshow src i;
   plt_gray; set_visible_False; set_visible_False].

Definition row_calls_opt (rows : Z) (x : option dataset) (src : source)
    (row n : Z) (i : nat) : list plot_call :=
  match x with
  | Some _ => row_calls rows src row n i
  | None => []
  end.

Definition round_calls (x_input decoded_imgs : option dataset) (n : Z)
    (i : nat) : list plot_call :=
  let rows := 1 + count_given decoded_imgs + count_given x_input in
  row_calls rows from_x_test 0 n i
  ++ row_calls_opt rows x_input from_x_input 1 n i
  ++ row_calls_opt rows decoded_imgs from_decoded_imgs
       (1 + count_given x_input) n i.

(** The images of one round of the loop. *)
Definition image_opt (x : option dataset) (src : source) (row n : Z) (i : nat)
  : list (Z * source * nat) :=
  match x with
  | Some _ => [(Z.of_nat i + 1 + row * n, src, i)]
  | None => []
  end.

Definition round_images (x_input decoded_imgs : option dataset) (n : Z)
    (i : nat) : list (Z * source * nat) :=
  (Z.of_nat i + 1 + 0 * n, from_x_test, i)
    :: image_opt x_input from_x_input 1 n i
    ++ image_opt decoded_imgs from_decoded_imgs (1 + count_given x_input) n i.

(** * Properties *)

Arguments normalize_tuple : simpl never.
Arguments init_activation : simpl never.

(** ** The error monad *)

Lemma bind_Ok {A B : Type} (m : result A) (f : A -> result B) (b : B) :
  bind m f = Ok b -> exists a, m = Ok a /\ f a = Ok b.
Proof.
  destruct m as [a | e]; simpl; intros H.
  - exists a; split; [reflexivity | assumption].
  - discriminate.
Qed.

Lemma bind_Raise {A B : Type} (m : result A) (f : A -> result B) (e : exn) :
  bind m f = Raise e -> m = Raise e \/ exists a, m = Ok a /\ f a = Raise e.
Proof.
  destruct m as [a | e']; simpl; intros H.
  - right; exists a; split; [reflexivity | assumption].
  - left; congruence.
Qed.

(** Invert hypotheses of the form [bind m f = Ok b], innermost first. *)
Ltac inv_bind H :=
  let x := fresh "x" in
  let E := fresh "E" in
  apply bind_Ok in H; destruct H as [x [E H]].

(** ** Constructor checks *)

Lemma check_dl_func_true (l : list Z) :
  check_dl_func l = true <-> Forall (fun x => x = 1) l.
Proof.
  unfold check_dl_func; rewrite forallb_forall, Forall_forall.
  split; intros H x Hx; specialize (H x Hx); lia.
Qed.

Lemma check_dl_func_false (l : list Z) :
  check_dl_func l = false <-> Exists (fun x => x <> 1) l.
Proof.
  rewrite Exists_exists; split.
  - intros H; induction l as [| x l IH]; [discriminate |].
    simpl in H; apply andb_false_iff in H; destruct H as [H | H].
    + exists x; split; [left; reflexivity | lia].
    + destruct (IH H) as [y [Hy Hne]]; exists y; split; [right |]; assumption.
  - intros [x [Hx Hne]].
    destruct (check_dl_func l) eqn:E; [| reflexivity].
    apply check_dl_func_true in E; rewrite Forall_forall in E.
    elim Hne; apply E; assumption.
Qed.

Lemma normalize_tuple_Raise (v : tuple_arg) (n : nat) (name : string) (e : exn) :
  normalize_tuple v n name = Raise e ->
  e = ValueError ("The " ++ name ++ " argument must be a tuple of n integers.")%string.
Proof.
  unfold normalize_tuple; destruct v as [z | vs]; [discriminate |].
  destruct (Nat.eqb (List.length vs) n); [discriminate |].
  intros H; injection H as <-; reflexivity.
Qed.

Lemma normalize_tuple_length (v : tuple_arg) (n : nat) (name : string) (l : list Z) :
  normalize_tuple v n name = Ok l -> List.length l = n.
Proof.
  unfold normalize_tuple; destruct v as [z | vs].
  - intros H; injection H as <-; apply repeat_length.
  - destruct (Nat.eqb (List.length vs) n) eqn:E; [| discriminate].
    intros H; injection H as <-; apply Nat.eqb_eq; assumption.
Qed.

Lemma normalize_tuple_SeqArg (l : list Z) (n : nat) (name : string) :
  List.length l = n -> normalize_tuple (SeqArg l) n name = Ok l.
Proof.
  intros H; unfold normalize_tuple; rewrite <- H, Nat.eqb_refl; reflexivity.
Qed.

Lemma init_depth_lt (k : klass) (a : init_args) :
  a_depth a < 3 -> init k a = Raise (ValueError (depth_message k)).
Proof.
  intros H; unfold init.
  destruct (a_depth a - 2 <? 1) eqn:E; [reflexivity | lia].
Qed.

Lemma init_cases (k : klass) (a : init_args) : init_outcome k a (init k a).
Proof.
  unfold init.
  destruct (a_depth a - 2 <? 1) eqn:Ed.
  { apply init_bad_depth; lia. }
  assert (Hd : 3 <= a_depth a) by lia.
  destruct (normalize_tuple (a_kernel_size a) (a_rank a) "kernel_size")
    as [ks | e] eqn:Ek.
  2:{ apply init_bad_kernel_size; assumption. }
  destruct (normalize_tuple (a_strides a) (a_rank a) "strides")
    as [st | e] eqn:Es.
  2:{ eapply init_bad_strides; eassumption. }
  cbn [bind].
  destruct (is_transpose k && Nat.eqb (a_rank a) 1
            && data_format_eqb (normalize_data_format (a_data_format a))
                               channels_first)%bool eqn:Ec.
  { eapply init_bad_data_format; eassumption. }
  assert (Hr : reaches_dilation_check k a).
  { split; [assumption | split; [exists ks; assumption | assumption]]. }
  destruct (normalize_tuple (a_dilation_rate a) (a_rank a) "dilation_rate")
    as [dl | e] eqn:El.
  2:{ eapply init_bad_dilation_rate; eassumption. }
  cbn [bind].
  destruct (check_dl_func dl) eqn:Edl; [| destruct (check_dl_func st) eqn:Est];
    cbn [negb andb].
  - destruct (init_activation a) as [[act high] cfg] eqn:Ea.
    replace (Ok _) with (Ok (init_block k a ks st dl)).
    + eapply init_returns; try eassumption; left; assumption.
    + unfold init_block; rewrite Ea; reflexivity.
  - destruct (init_activation a) as [[act high] cfg] eqn:Ea.
    replace (Ok _) with (Ok (init_block k a ks st dl)).
    + eapply init_returns; try eassumption; right; assumption.
    + unfold init_block; rewrite Ea; reflexivity.
  - eapply init_bad_dilation; eassumption.
Qed.

Lemma init_Ok_inv (k : klass) (a : init_args) (self : block) :
  init k a = Ok self ->
  exists ks st dl,
    reaches_dilation_check k a /\
    normalize_tuple (a_kernel_size a) (a_rank a) "kernel_size" = Ok ks /\
    normalize_tuple (a_strides a) (a_rank a) "strides" = Ok st /\
    normalize_tuple (a_dilation_rate a) (a_rank a) "dilation_rate" = Ok dl /\
    (check_dl_func dl = true \/ check_dl_func st = true) /\
    self = init_block k a ks st dl.
Proof.
  intros H; pose proof (init_cases k a) as C; rewrite H in C.
  inversion C; subst.
  exists ks, st, dl; repeat split; try assumption.
  all: match goal with H : reaches_dilation_check _ _ |- _ => apply H end.
Qed.

Lemma init_Raise_cases (k : klass) (a : init_args) (e : exn) :
  init k a = Raise e ->
  (a_depth a < 3 /\ e = ValueError (depth_message k)) \/
  (3 <= a_depth a /\
   (e = ValueError "The kernel_size argument must be a tuple of n integers."
    \/ e = ValueError "The strides argument must be a tuple of n integers."
    \/ e = ValueError channels_first_1d_message
    \/ e = ValueError "The dilation_rate argument must be a tuple of n integers."
    \/ (e = ValueError dilation_message /\
        exists st dl,
          normalize_tuple (a_strides a) (a_rank a) "strides" = Ok st /\
          normalize_tuple (a_dilation_rate a) (a_rank a) "dilation_rate"
            = Ok dl /\
          check_dl_func dl = false /\ check_dl_func st = false))).
Proof.
  intros H; pose proof (init_cases k a) as C; rewrite H in C.
  inversion C; subst.
  - left; split; [assumption | reflexivity].
  - right; split; [assumption | left].
    match goal with
    | H : normalize_tuple _ _ _ = Raise _ |- _ =>
        apply normalize_tuple_Raise in H; exact H
    end.
  - right; split; [assumption | right; left].
    match goal with
    | H : normalize_tuple _ _ _ = Raise _ |- _ =>
        apply normalize_tuple_Raise in H; exact H
    end.
  - right; split; [assumption | right; right; left; reflexivity].
  - right; split; [match goal with H : reaches_dilation_check _ _ |- _ =>
                     apply H end | do 3 right; left].
    match goal with
    | H : normalize_tuple _ _ _ = Raise _ |- _ =>
        apply normalize_tuple_Raise in H; exact H
    end.
  - right; split; [match goal with H : reaches_dilation_check _ _ |- _ =>
                     apply H end | do 4 right].
    split; [reflexivity | exists st, dl; repeat split; assumption].
Qed.

(** C8 (amended): in every block class the constructor raises the depth
    error (the [ValueError] whose message says that the depth should be
    >= 3) if and only if the [depth] argument is less than 3; and whenever
    the constructor returns, [depth] is at least 3 and the stored
    [self.depth] equals [depth - 2], which is at least 1. *)
Theorem init_depth_check :
  forall (k : klass) (a : init_args),
    (init k a = Raise (ValueError (depth_message k)) <-> a_depth a < 3) /\
    (forall self, init k a = Ok self ->
       3 <= a_depth a /\ depth self = a_depth a - 2 /\ 1 <= depth self).
Proof.
  intros k a; split; [split |].
  - intros H; apply init_Raise_cases in H.
    destruct H as [[H _] | [_ H]]; [assumption |].
    exfalso;
      destruct H as [H | [H | [H | [H | [H _]]]]]; destruct k; discriminate H.
  - apply init_depth_lt.
  - intros self H; apply init_Ok_inv in H.
    destruct H as [ks [st [dl [[Hd _] [_ [_ [_ [_ ->]]]]]]]]; simpl.
    repeat split; [assumption | lia].
Qed.

(** C8, as stated, fails: with [depth = 3] the constructor still raises a
    [ValueError] when [strides] and [dilation_rate] are both 2, so
    "raises [ValueError]" is not equivalent to "[depth] < 3". *)
Lemma init_ValueError_with_depth_3 :
  ~ (forall (k : klass) (a : init_args),
       raises_ValueError (init k a) <-> a_depth a < 3).
Proof.
  intros H.
  specialize (H Residual (with_strides (sample_args 2 3 8) (IntArg 2) (IntArg 2))).
  destruct H as [H _].
  assert (Hd : a_depth (with_strides (sample_args 2 3 8) (IntArg 2) (IntArg 2)) < 3).
  { apply H; exists dilation_message; reflexivity. }
  simpl in Hd; lia.
Qed.

Lemma init_reaches (k : klass) (a : init_args) (st dl : list Z) :
  reaches_dilation_check k a ->
  normalize_tuple (a_strides a) (a_rank a) "strides" = Ok st ->
  normalize_tuple (a_dilation_rate a) (a_rank a) "dilation_rate" = Ok dl ->
  check_dl_func dl = false -> check_dl_func st = false ->
  init k a = Raise (ValueError dilation_message).
Proof.
  intros [Hd [[ks Hk] Hc]] Hs Hl Edl Est; unfold init.
  destruct (a_depth a - 2 <? 1) eqn:Ed; [lia |].
  rewrite Hk, Hs; cbn [bind]; rewrite Hc, Hl; cbn [bind].
  rewrite Edl, Est; reflexivity.
Qed.

Lemma init_two_non_unit (k : klass) (a : init_args) (st dl : list Z) :
  normalize_tuple (a_strides a) (a_rank a) "strides" = Ok st ->
  normalize_tuple (a_dilation_rate a) (a_rank a) "dilation_rate" = Ok dl ->
  check_dl_func dl = false -> check_dl_func st = false ->
  raises_ValueError (init k a).
Proof.
  intros Hs Hl Edl Est.
  pose proof (init_cases k a) as C; inversion C;
    try (eexists; reflexivity);
    try (match goal with
         | H : normalize_tuple _ _ _ = Raise ?e |- _ =>
             apply normalize_tuple_Raise in H; subst e; eexists; reflexivity
         end).
  exfalso.
  match goal with
  | H1 : normalize_tuple (a_strides a) _ _ = Ok ?st',
    H2 : normalize_tuple (a_dilation_rate a) _ _ = Ok ?dl',
    H3 : _ \/ _ |- _ =>
      rewrite Hs in H1; rewrite Hl in H2;
      injection H1 as <-; injection H2 as <-;
      destruct H3; congruence
  end.
Qed.

(** C9: once [strides] and [dilation_rate] are normalised to rank-length
    tuples [st] and [dl], if some entry of [dl] differs from 1 and some
    entry of [st] differs from 1 the constructor raises a [ValueError],
    which is 'Does not support dilation_rate when strides > 1.' as soon
    as the earlier checks let the constructor reach this one; and if all
    entries of either tuple are 1 the check passes: whatever the
    constructor does next, it does not raise that error. *)
Theorem init_dilation_check :
  forall (k : klass) (a : init_args) (st dl : list Z),
    normalize_tuple (a_strides a) (a_rank a) "strides" = Ok st ->
    normalize_tuple (a_dilation_rate a) (a_rank a) "dilation_rate" = Ok dl ->
    (Exists (fun x => x <> 1) dl -> Exists (fun x => x <> 1) st ->
       raises_ValueError (init k a) /\
       (reaches_dilation_check k a ->
        init k a = Raise (ValueError dilation_message))) /\
    (Forall (fun x => x = 1) dl \/ Forall (fun x => x = 1) st ->
       init k a <> Raise (ValueError dilation_message)).
Proof.
  intros k a st dl Hs Hl; split.
  - intros Hdl Hst.
    apply check_dl_func_false in Hdl; apply check_dl_func_false in Hst.
    split; [eapply init_two_non_unit; eassumption |].
    intros Hr; exact (init_reaches k a st dl Hr Hs Hl Hdl Hst).
  - intros Hone.
    assert (Hb : (negb (check_dl_func dl) && negb (check_dl_func st))%bool = false).
    { destruct Hone as [H | H]; apply check_dl_func_true in H; rewrite H;
        [reflexivity | apply andb_false_r]. }
    intros H; apply init_Raise_cases in H.
    destruct H as [[_ H] | [_ [H | [H | [H | [H | [_ H]]]]]]];
      try (destruct k; discriminate H).
    destruct H as [st' [dl' [Hs' [Hl' [Edl Est]]]]].
    rewrite Hs in Hs'; rewrite Hl in Hl'.
    injection Hs' as <-; injection Hl' as <-.
    rewrite Edl, Est in Hb; discriminate.
Qed.

(** C9, on an instance: a 2D transposed ResNeXt block with [strides = 2]
    and [dilation_rate = (1, 3)] is refused with the dilation message. *)
Lemma init_dilation_check_witness :
  init ResnextTranspose
    (with_strides (sample_args 2 3 8) (IntArg 2) (SeqArg [1; 3]))
  = Raise (ValueError dilation_message).
Proof.
  refine (proj2 (proj1 (init_dilation_check ResnextTranspose
            (with_strides (sample_args 2 3 8) (IntArg 2) (SeqArg [1; 3]))
            [2; 2] [1; 3] eq_refl eq_refl) _ _) _).
  - right; left; discriminate.
  - left; discriminate.
  - split; [simpl; lia | split; [eexists; reflexivity | reflexivity]].
Defined.

(** ** Serialisation *)

Lemma keep_if_idem {A : Type} (truthy : A -> bool) (v : option A) :
  keep_if truthy (keep_if truthy v) = keep_if truthy v.
Proof.
  destruct v as [x |]; simpl; [| reflexivity].
  destruct (truthy x) eqn:E; simpl; [rewrite E |]; reflexivity.
Qed.

Lemma is_prelu_lrelu_casefold (s : string) :
  is_prelu_lrelu (casefold s) = true -> casefold (casefold s) = casefold s.
Proof.
  unfold is_prelu_lrelu; intros H; apply orb_true_iff in H.
  destruct H as [H | H]; apply String.eqb_eq in H; rewrite H; reflexivity.
Qed.

(** The constructor applied to its own outcome's attributes assigns the
    same activation attributes again. *)
Lemma init_activation_round_trip (a a' : init_args) (act : string) :
  fst (fst (init_activation a)) = Some act ->
  a_activation a' = Some (activations_serialize act) ->
  a_high_activation a' = snd (fst (init_activation a)) ->
  Some (a_activity_config a') = snd (init_activation a) ->
  init_activation a' = init_activation a.
Proof.
  unfold init_activation, activations_serialize; intros Hact Ha Hh Hc.
  destruct (match a_high_activation a with Some h => Some h | None => a_activation a end)
    as [s |] eqn:Es; [| discriminate Hact].
  destruct (is_prelu_lrelu (casefold s)) eqn:Ep; simpl in *.
  - rewrite Hh, (is_prelu_lrelu_casefold s Ep), Ep.
    injection Hc as ->; reflexivity.
  - injection Hact as <-; rewrite Hh, Ha.
    injection Hc as ->.
    destruct (a_high_activation a) as [h |].
    + injection Es as ->; rewrite Ep; reflexivity.
    + rewrite Ep; reflexivity.
Qed.

Lemma init_Ok_intro (k : klass) (a : init_args) (ks st dl : list Z) :
  reaches_dilation_check k a ->
  normalize_tuple (a_kernel_size a) (a_rank a) "kernel_size" = Ok ks ->
  normalize_tuple (a_strides a) (a_rank a) "strides" = Ok st ->
  normalize_tuple (a_dilation_rate a) (a_rank a) "dilation_rate" = Ok dl ->
  check_dl_func dl = true \/ check_dl_func st = true ->
  init k a = Ok (init_block k a ks st dl).
Proof.
  intros [Hd [_ Hc]] Hk Hs Hl Hone; unfold init.
  destruct (a_depth a - 2 <? 1) eqn:Ed; [lia |].
  rewrite Hk, Hs; cbn [bind]; rewrite Hc, Hl; cbn [bind].
  replace (negb (check_dl_func dl) && negb (check_dl_func st))%bool with false.
  - unfold init_block; destruct (init_activation a) as [[act high] cfg];
      reflexivity.
  - destruct Hone as [-> | ->]; [reflexivity | symmetry; apply andb_false_r].
Qed.

Lemma init_activation_config (a : init_args) (act : string) :
  fst (fst (init_activation a)) = Some act ->
  exists cfg, snd (init_activation a) = Some cfg.
Proof.
  unfold init_activation.
  destruct (match a_high_activation a with Some h => Some h | None => a_activation a end)
    as [s |]; [| discriminate].
  destruct (is_prelu_lrelu (casefold s)); simpl; eexists; reflexivity.
Qed.

Lemma init_activation_given (a : init_args) :
  a_activation a <> None \/ a_high_activation a <> None ->
  exists act, fst (fst (init_activation a)) = Some act.
Proof.
  unfold init_activation; intros H.
  destruct (a_high_activation a) as [h |].
  - destruct (is_prelu_lrelu (casefold h)); eexists; reflexivity.
  - destruct (a_activation a) as [s |].
    + destruct (is_prelu_lrelu (casefold s)); eexists; reflexivity.
    + destruct H as [H | H]; elim H; reflexivity.
Qed.

(** X4: for a block constructed with an activation ([activation] or
    [_high_activation] given), [get_config] returns a configuration whose
    ['depth'] is the constructor's [depth] argument, and the constructor
    applied to that configuration returns the very same instance, in
    particular the same [self.depth]. *)
Theorem get_config_round_trip :
  forall (k : klass) (a : init_args) (self : block),
    init k a = Ok self ->
    a_activation a <> None \/ a_high_activation a <> None ->
    exists c,
      get_config self = Ok c /\ c_depth c = a_depth a /\
      from_config k (rank self) c = Ok self.
Proof.
  intros k a self H Hact; apply init_Ok_inv in H.
  destruct H as [ks [st [dl [Hr [Hk [Hs [Hl [Hone ->]]]]]]]].
  destruct (init_activation_given a Hact) as [act Ea].
  destruct (init_activation_config a act Ea) as [cfg Ec].
  unfold get_config; cbn [activation activity_config init_block bind getattr].
  rewrite Ea, Ec; cbn [bind getattr].
  eexists; split; [reflexivity |]; split; [simpl; lia |].
  apply normalize_tuple_length in Hk, Hs, Hl.
  destruct Hr as [Hd [_ Hcf]].
  unfold from_config; simpl.
  match goal with |- init k ?x = _ => set (a' := x) end.
  assert (Hia : init_activation a' = init_activation a).
  { apply (init_activation_round_trip a a' act Ea);
      [reflexivity | reflexivity | symmetry; exact Ec]. }
  rewrite (init_Ok_intro k a' ks st dl).
  - f_equal; unfold init_block; rewrite Hia; subst a'; simpl.
    replace (a_depth a - 2 + 2 - 2) with (a_depth a - 2) by lia.
    destruct k; simpl; rewrite ?keep_if_idem; reflexivity.
  - split; [simpl; lia | split].
    + simpl; eexists; apply normalize_tuple_SeqArg; assumption.
    + simpl; exact Hcf.
  - apply normalize_tuple_SeqArg; assumption.
  - apply normalize_tuple_SeqArg; assumption.
  - apply normalize_tuple_SeqArg; assumption.
  - exact Hone.
Qed.

(** Without [activation] and [_high_activation] the constructor assigns
    neither [self.activation] nor [self.activity_config], and
    [get_config] raises. *)
Lemma get_config_without_activation (k : klass) (a : init_args) (self : block) :
  a_activation a = None -> a_high_activation a = None ->
  init k a = Ok self ->
  get_config self = Raise (AttributeError "activation").
Proof.
  intros Ha Hh H; apply init_Ok_inv in H.
  destruct H as [ks [st [dl [_ [_ [_ [_ [_ ->]]]]]]]].
  unfold get_config, init_block, init_activation; simpl.
  rewrite Ha, Hh; reflexivity.
Qed.

(** C10, at the failing input: in each of the four classes a 2D block
    constructed with [depth = 3] and the default [activation = None] is
    returned by the constructor without a [self.activation], and its
    [get_config] raises [AttributeError] where the claim expects a
    configuration whose ['depth'] is 3. *)
Theorem get_config_default_activation :
  forall k : klass,
  exists self,
    init k (with_activation (sample_args 2 3 8) None) = Ok self /\
    get_config self = Raise (AttributeError "activation").
Proof.
  intros k; destruct k; eexists; split; reflexivity.
Qed.

(** ** Shapes *)

Lemma split_join (df : data_format) (n : nat) (b : dim) (sp : list dim) (c : dim) :
  List.length sp = n -> split_shape df n (join_shape df b sp c) = Ok (b, sp, c).
Proof.
  intros H; unfold split_shape.
  assert (E : Nat.eqb (List.length (join_shape df b sp c)) (n + 2) = true).
  { apply Nat.eqb_eq; destruct df; simpl; [rewrite length_app; simpl |]; lia. }
  rewrite E; destruct df; cbn [join_shape].
  - rewrite removelast_last, last_last; reflexivity.
  - reflexivity.
Qed.

Lemma split_shape_Ok (df : data_format) (n : nat) (s : shape)
    (b : dim) (sp : list dim) (c : dim) :
  split_shape df n s = Ok (b, sp, c) ->
  s = join_shape df b sp c /\ List.length sp = n /\ List.length s = (n + 2)%nat.
Proof.
  unfold split_shape, join_shape.
  destruct (Nat.eqb (List.length s) (n + 2)) eqn:E; [| discriminate].
  apply Nat.eqb_eq in E.
  destruct df.
  - destruct s as [| b' r]; [discriminate |].
    intros H; injection H as <- <- <-.
    assert (Hr : r <> []) by (destruct r; simpl in E; [lia | discriminate]).
    split; [| split; [| assumption]].
    + f_equal; apply app_removelast_last; assumption.
    + pose proof (app_removelast_last None Hr) as Hs.
      apply (f_equal (@List.length _)) in Hs.
      rewrite length_app in Hs; cbn [List.length] in Hs, E.
      unfold dim in *; lia.
  - destruct s as [| b' [| c' r]]; try discriminate.
    intros H; injection H as <- <- <-.
    split; [reflexivity | split; [simpl in E; lia | assumption]].
Qed.

Lemma conv_output_length_same (n : dim) (k st d : Z) :
  conv_output_length n k same st d = conv_output_length n 1 same st 1.
Proof. destruct n; reflexivity. Qed.

Lemma conv_space_same (space : list dim) :
  forall ks sts ds : list Z,
    List.length ks = List.length space ->
    List.length ds = List.length space ->
    conv_space same space ks sts ds = stride_space space sts.
Proof.
  induction space as [| n space IH]; intros ks sts ds Hk Hd;
    [reflexivity |].
  destruct ks as [| k ks]; [discriminate |].
  destruct ds as [| d ds]; [destruct sts; discriminate |].
  destruct sts as [| st sts]; [reflexivity |].
  simpl; rewrite (conv_output_length_same n k st d).
  rewrite (IH ks sts ds) by (simpl in *; lia); reflexivity.
Qed.

Lemma stride_space_length (space : list dim) :
  forall (sts : list Z) (r : list dim),
    stride_space space sts = Ok r -> List.length r = List.length space.
Proof.
  induction space as [| n space IH]; intros sts r H.
  - injection H as <-; reflexivity.
  - destruct sts as [| st sts]; [discriminate |].
    simpl in H; inv_bind H; inv_bind H; injection H as <-.
    simpl; f_equal; eapply IH; eassumption.
Qed.

Lemma stride_space_ones (space : list dim) :
  forall sts : list Z,
    List.length sts = List.length space ->
    check_dl_func sts = true ->
    stride_space space sts = Ok space.
Proof.
  induction space as [| n space IH]; intros sts Hl H; [reflexivity |].
  destruct sts as [| st sts]; [discriminate |].
  simpl in H; apply andb_true_iff in H; destruct H as [H1 H].
  apply Z.eqb_eq in H1; subst st.
  simpl; rewrite (IH sts) by (simpl in Hl; lia || assumption).
  destruct n as [n |]; simpl; [| reflexivity].
  replace (n + 1 - 1) with n by lia; rewrite Z.div_1_r; reflexivity.
Qed.

Lemma check_dl_func_repeat (n : nat) : check_dl_func (repeat 1 n) = true.
Proof. induction n; simpl; auto. Qed.

(** The shape function of a unit built with [padding = same]. *)
Lemma conv_same_shape (a : unit_args) (s : shape) (ks sts ds : list Z) :
  u_padding a = same ->
  normalize_tuple (u_kernel_size a) (u_rank a) "kernel_size" = Ok ks ->
  normalize_tuple (u_strides a) (u_rank a) "strides" = Ok sts ->
  normalize_tuple (u_dilation_rate a) (u_rank a) "dilation_rate" = Ok ds ->
  conv_compute_output_shape a s =
  ('(b, space, _) <- split_shape (u_data_format a) (u_rank a) s ;;
   'new_space <- stride_space space sts ;;
   Ok (join_shape (u_data_format a) b new_space (Some (u_filters a)))).
Proof.
  intros Hp Hk Hs Hd; unfold conv_compute_output_shape.
  rewrite Hk, Hs, Hd, Hp; cbn [bind].
  destruct (split_shape (u_data_format a) (u_rank a) s) as [[[b sp] c] | e] eqn:E;
    [| reflexivity].
  cbn [bind]; apply split_shape_Ok in E; destruct E as [_ [E _]].
  apply normalize_tuple_length in Hk, Hd.
  rewrite conv_space_same by congruence; reflexivity.
Qed.

(** ** What [build] creates *)

Lemma build_layer_Ok (l : layer) (s s' : shape) :
  build_layer l s = Ok s' <-> layer_compute_output_shape l s = Ok s'.
Proof.
  unfold build_layer, layer_build.
  destruct (layer_compute_output_shape l s); simpl; tauto.
Qed.

Lemma build_middle_Ok (mk : nat -> layer) :
  forall (range : list nat) (s : shape) (ls : list layer) (s' : shape),
    build_middle mk range s = Ok (ls, s') ->
    ls = map mk range /\ shape_chain (map mk range) s = Ok s'.
Proof.
  induction range as [| i range IH]; intros s ls s' H.
  - injection H as <- <-; split; reflexivity.
  - simpl in H; inv_bind H; inv_bind H.
    destruct x0 as [ls0 s0]; injection H as <- <-.
    apply build_layer_Ok in E; apply IH in E0; destruct E0 as [-> E0].
    split; [reflexivity |]; simpl; rewrite E; exact E0.
Qed.

Lemma build_branches_Ok (self : block) (channelIn channel_axis filters : Z)
    (middle_lgroups : option Z) (next_shape : shape) (br : branches) :
  build_branches self channelIn channel_axis filters middle_lgroups next_shape
  = Ok br ->
  exists act cfg,
    activation self = Some act /\ activity_config self = Some cfg /\
    br_left br =
      (if identity_left self channelIn then None
       else Some (AConv (branch_left_args self (unit_strides self)))) /\
    br_dropout br =
      return_dropout (dropout self) (dropout_rate self) channel_axis (rank self) /\
    br_first br =
      NACUnit (nac_args self act cfg filters None
                 (IntArg 1) (unit_strides self) (IntArg 1) None
                 (first_gamma self)) /\
    br_middle br =
      map (middle_unit self act cfg filters middle_lgroups)
          (seq 0 (Z.to_nat (depth self))) /\
    br_last br =
      NACUnit (nac_args self act cfg (ofilters self) None
                 (IntArg 1) (IntArg 1) (IntArg 1)
                 (Some (identity_left self channelIn)) (last_gamma self)) /\
    shape_opt (br_left br) next_shape = Ok (left_shape br) /\
    exists s0 s1 s2,
      shape_opt (br_dropout br) next_shape = Ok s0 /\
      layer_compute_output_shape (br_first br) s0 = Ok s1 /\
      shape_chain (br_middle br) s1 = Ok s2 /\
      layer_compute_output_shape (br_last br) s2 = Ok (right_shape br).
Proof.
  unfold build_branches; intros H.
  inv_bind H; destruct x as [[last_use_bias branch_left] lshape].
  inv_bind H; rename x into s0.
  inv_bind H; rename x into act.
  inv_bind H; rename x into cfg.
  inv_bind H; rename x into s1.
  inv_bind H; destruct x as [middle s2].
  inv_bind H; rename x into s3.
  injection H as <-; cbn [br_left br_dropout br_first br_middle br_last
                            left_shape right_shape].
  exists act, cfg.
  destruct (activation self) as [act' |]; [| discriminate].
  destruct (activity_config self) as [cfg' |]; [| discriminate].
  injection E1 as ->; injection E2 as ->.
  apply build_layer_Ok in E3, E5.
  apply build_middle_Ok in E4; destruct E4 as [-> E4].
  assert (Hleft : last_use_bias = identity_left self channelIn /\
                  branch_left =
                    (if identity_left self channelIn then None
                     else Some (AConv (branch_left_args self (unit_strides self)))) /\
                  shape_opt branch_left next_shape = Ok lshape).
  { destruct (identity_left self channelIn).
    - injection E as <- <- <-; repeat split.
    - inv_bind E; injection E as <- <- <-.
      apply build_layer_Ok in E1; repeat split; exact E1. }
  destruct Hleft as [-> [-> Hl]].
  repeat split; try reflexivity; try assumption.
  exists s0, s1, s2; repeat split; try assumption.
  destruct (return_dropout _ _ _ _) as [l |]; simpl in *;
    [apply build_layer_Ok in E0 |]; assumption.
Qed.

Lemma build_Ok (self : block) (s : shape) (b : block) :
  build self s = Ok b ->
  exists channel_axis channelIn lg lf filters next_shape br op oc up pad crop,
    build_channels self s = Ok (channel_axis, channelIn) /\
    build_latent self channelIn = Ok (lg, lf, filters) /\
    build_branches self channelIn channel_axis filters lg next_shape = Ok br /\
    merge_build (left_shape br) (right_shape br) = Ok tt /\
    (if is_transpose (cls self) then
       exists uppool merged,
         infer_output_padding self s = Ok (op, oc) /\
         build_uppool self op s = Ok (uppool, pad, next_shape) /\
         up = Some uppool /\
         merge_compute_output_shape (left_shape br) (right_shape br)
           = Ok merged /\
         build_cropping self oc merged = Ok crop
     else
       next_shape = s /\ op = output_padding self /\
       oc = output_cropping self /\ up = None /\ pad = None /\ crop = None) /\
    b = built self channelIn lg lf op oc
          {| layer_uppool := up;
             layer_padding := pad;
             layer_branch_left := br_left br;
             layer_dropout := br_dropout br;
             layer_first := br_first br;
             layer_middle := br_middle br;
             layer_last := br_last br;
             layer_merge := Add;
             layer_cropping := crop |}.
Proof.
  unfold build; intros H.
  inv_bind H; destruct x as [channel_axis channelIn].
  inv_bind H; destruct x as [[lg lf] filters].
  destruct (is_transpose (cls self)) eqn:Et.
  - inv_bind H; destruct x as [op oc].
    inv_bind H; destruct x as [[uppool pad] next_shape].
    inv_bind H; rename x into br.
    inv_bind H; destruct x.
    inv_bind H; rename x into merged.
    inv_bind H; rename x into crop.
    injection H as <-.
    exists channel_axis, channelIn, lg, lf, filters, next_shape, br, op, oc,
      (Some uppool), pad, crop.
    repeat split; try assumption.
    exists uppool, merged; repeat split; assumption.
  - inv_bind H; rename x into br.
    inv_bind H; destruct x.
    injection H as <-.
    exists channel_axis, channelIn, lg, lf, filters, s, br,
      (output_padding self), (output_cropping self), None, None, None.
    repeat split; assumption.
Qed.

(** [call] after [build]: the middle units are applied in order. *)
Lemma call_middle_map (mk : nat -> layer) (n : nat) (x : tensor) :
  call_middle (map mk (seq 0 n)) (seq 0 n) x
  = Ok (fold_left (fun t l => Apply l t) (map mk (seq 0 n)) x).
Proof.
  assert (G : forall (range : list nat) (ls : list layer) (x : tensor),
             (forall i, In i range -> nth_error ls i = Some (mk i)) ->
             call_middle ls range x
             = Ok (fold_left (fun t l => Apply l t) (map mk range) x)).
  { induction range as [| i range IH]; intros ls y Hn; [reflexivity |].
    simpl; rewrite (Hn i) by (left; reflexivity); simpl.
    apply IH; intros j Hj; apply Hn; right; assumption. }
  apply G; intros i Hi; apply in_seq in Hi.
  rewrite nth_error_map, nth_error_seq.
  destruct (Nat.ltb i n) eqn:E; [reflexivity |].
  apply Nat.ltb_ge in E; lia.
Qed.

Lemma shape_middle_map (mk : nat -> layer) (n : nat) (s : shape) :
  shape_middle (map mk (seq 0 n)) (seq 0 n) s
  = shape_chain (map mk (seq 0 n)) s.
Proof.
  assert (G : forall (range : list nat) (ls : list layer) (s : shape),
             (forall i, In i range -> nth_error ls i = Some (mk i)) ->
             shape_middle ls range s = shape_chain (map mk range) s).
  { induction range as [| i range IH]; intros ls y Hn; [reflexivity |].
    simpl; rewrite (Hn i) by (left; reflexivity); simpl.
    destruct (layer_compute_output_shape (mk i) y); simpl; [| reflexivity].
    apply IH; intros j Hj; apply Hn; right; assumption. }
  apply G; intros i Hi; apply in_seq in Hi.
  rewrite nth_error_map, nth_error_seq.
  destruct (Nat.ltb i n) eqn:E; [reflexivity |].
  apply Nat.ltb_ge in E; lia.
Qed.

(** Everything a successful [build] fixes: the attributes it assigns, the
    sub-layers it creates and, with them, the tensor that [call] returns. *)
Lemma build_layers (self : block) (s : shape) (b : block) :
  build self s = Ok b ->
  exists channel_axis channelIn lg lf filters act cfg op oc up pad crop,
    build_channels self s = Ok (channel_axis, channelIn) /\
    build_latent self channelIn = Ok (lg, lf, filters) /\
    activation self = Some act /\ activity_config self = Some cfg /\
    (if is_transpose (cls self) then
       infer_output_padding self s = Ok (op, oc) /\
       (exists uppool, new_uppool self = Ok uppool /\ up = Some uppool) /\
       match op with
       | Some p => exists l, new_padding self p = Ok l /\ pad = Some l
       | None => pad = None
       end /\
       match oc with
       | Some c => exists l, new_cropping self c = Ok l /\ crop = Some l
       | None => crop = None
       end
     else
       op = output_padding self /\ oc = output_cropping self /\
       up = None /\ pad = None /\ crop = None) /\
    b = built self channelIn lg lf op oc
          (expected_layers self channel_axis channelIn filters lg act cfg
             up pad crop) /\
    forall inputs,
      call b inputs
      = Ok (expected_output (is_transpose (cls self))
              (expected_layers self channel_axis channelIn filters lg act cfg
                 up pad crop) inputs).
Proof.
  intros H; apply build_Ok in H.
  destruct H as (channel_axis & channelIn & lg & lf & filters & next_shape
                 & br & op & oc & up & pad & crop
                 & Hc & Hl & Hb & Hm & Ht & ->).
  apply build_branches_Ok in Hb.
  destruct Hb as (act & cfg & Ha & Hcfg & Hleft & Hdrop & Hfirst & Hmid
                  & Hlast & _).
  exists channel_axis, channelIn, lg, lf, filters, act, cfg, op, oc, up, pad, crop.
  rewrite Hleft, Hdrop, Hfirst, Hmid, Hlast.
  repeat split; try assumption.
  - destruct (is_transpose (cls self)); [| exact (proj2 Ht)].
    destruct Ht as (uppool & merged & Hi & Hu & -> & _ & Hcrop).
    unfold build_uppool in Hu; inv_bind Hu; inv_bind Hu.
    unfold build_cropping in Hcrop.
    repeat split.
    + assumption.
    + exists uppool.
      destruct op as [p |].
      * inv_bind Hu; inv_bind Hu; injection Hu as <- <- <-.
        split; [assumption | reflexivity].
      * injection Hu as <- <- <-; split; [assumption | reflexivity].
    + destruct op as [p |].
      * inv_bind Hu; inv_bind Hu; injection Hu as <- <- <-.
        eexists; split; [eassumption | reflexivity].
      * injection Hu as <- <- <-; reflexivity.
    + destruct oc as [c |].
      * inv_bind Hcrop; inv_bind Hcrop; injection Hcrop as <-.
        eexists; split; [eassumption | reflexivity].
      * injection Hcrop as <-; reflexivity.
  - intros inputs; unfold call, expected_output.
    cbn -[call_middle seq Z.to_nat middle_unit nac_args branch_left_args
            identity_left unit_strides return_dropout].
    destruct (is_transpose (cls self)).
    + destruct Ht as (uppool & merged & _ & _ & -> & _).
      cbn [bind getattr]; rewrite call_middle_map; reflexivity.
    + destruct Ht as (_ & _ & _ & -> & _ & _).
      cbn [bind getattr]; rewrite call_middle_map; reflexivity.
Qed.

(** A built block keeps the constructor's attributes. *)
Lemma built_attributes (self : block) (channelIn : Z) (lg : option Z) (lf : Z)
    (op oc : option pad_arg) (L : sublayers) :
  let b := built self channelIn lg lf op oc L in
  cls b = cls self /\ rank b = rank self /\ depth b = depth self /\
  ofilters b = ofilters self /\ kernel_size b = kernel_size self /\
  strides b = strides self /\ dilation_rate b = dilation_rate self /\
  data_format_ b = data_format_ self /\
  (forall act cfg, nac_args b act cfg = nac_args self act cfg) /\
  (forall st, branch_left_args b st = branch_left_args self st) /\
  unit_strides b = unit_strides self /\
  (forall c, identity_left b c = identity_left self c) /\
  (forall act cfg f g, middle_unit b act cfg f g = middle_unit self act cfg f g).
Proof. repeat split. Qed.

Lemma build_channels_axis (self : block) (s : shape) (channel_axis channelIn : Z) :
  build_channels self s = Ok (channel_axis, channelIn) ->
  channel_axis
  = (if data_format_eqb (data_format_ self) channels_first then 1 else -1).
Proof.
  unfold build_channels.
  destruct (Nat.ltb _ _); [discriminate |].
  intros H; inv_bind H; destruct x; [| discriminate].
  injection H as <- _; reflexivity.
Qed.

Lemma Forall_map_seq {A : Type} (P : A -> Prop) (f : nat -> A) (n : nat) :
  (forall i, P (f i)) -> Forall P (map f (seq 0 n)).
Proof.
  intros H; apply Forall_forall; intros x Hx.
  apply in_map_iff in Hx; destruct Hx as [i [<- _]]; apply H.
Qed.

(** The arguments of the middle unit created at round [i]. *)
Lemma middle_unit_args (self : block) (act : string)
    (cfg : option config_dict) (filters : Z) (lg : option Z) (i : nat) :
  middle_unit self act cfg filters lg i
  = NACUnit (nac_args self act cfg filters lg (SeqArg (kernel_size self))
               (IntArg 1)
               (if Nat.eqb i 0 then SeqArg (dilation_rate self) else IntArg 1)
               None true).
Proof. reflexivity. Qed.

Lemma fold_left_units (g : nat -> unit_args) (range : list nat) (x : tensor) :
  fold_left (fun t l => Apply l t) (map (fun i => NACUnit (g i)) range) x
  = fold_left (fun t u => Apply (NACUnit u) t) (map g range) x.
Proof.
  revert x; induction range as [| i range IH]; intros x; [reflexivity |].
  simpl; apply IH.
Qed.

Lemma nth_error_map_seq {A : Type} (g : nat -> A) (n i : nat) (u : A) :
  nth_error (map g (seq 0 n)) i = Some u -> u = g i.
Proof.
  rewrite nth_error_map, nth_error_seq.
  destruct (Nat.ltb i n); simpl; [| discriminate].
  intros H; injection H as <-; reflexivity.
Qed.

(** The right branch that [call] runs through on the sub-layers of a
    built block. *)
Lemma expected_right_branch (self : block) (channel_axis channelIn filters : Z)
    (lg : option Z) (act : string) (cfg : option config_dict)
    (up pad crop : option layer) (x : tensor) :
  let L := expected_layers self channel_axis channelIn filters lg act cfg
             up pad crop in
  Apply (layer_last L)
    (fold_left (fun t l => Apply l t) (layer_middle L)
       (Apply (layer_first L) x))
  = right_branch
      (nac_args self act cfg filters None (IntArg 1) (unit_strides self)
         (IntArg 1) None (first_gamma self))
      (map (fun i : nat =>
              nac_args self act cfg filters lg (SeqArg (kernel_size self))
                (IntArg 1)
                (if Nat.eqb i 0 then SeqArg (dilation_rate self) else IntArg 1)
                None true)
           (seq 0 (Z.to_nat (depth self))))
      (nac_args self act cfg (ofilters self) None (IntArg 1) (IntArg 1)
         (IntArg 1) (Some (identity_left self channelIn)) (last_gamma self))
      x.
Proof.
  unfold right_branch, expected_layers;
    cbn [layer_last layer_middle layer_first].
  rewrite <- fold_left_units; reflexivity.
Qed.

Lemma after_dropout_built (self : block) (channelIn : Z) (lg : option Z)
    (lf : Z) (op oc : option pad_arg) (L : sublayers) (x : tensor) :
  after_dropout (built self channelIn lg lf op oc L) x
    (apply_opt
       (return_dropout (dropout self) (dropout_rate self)
          (if data_format_eqb (data_format_ self) channels_first then 1 else -1)
          (rank self)) x).
Proof.
  unfold after_dropout; cbn [dropout built dropout_rate data_format_ rank].
  destruct (dropout self); reflexivity.
Qed.


Lemma residual_sample_init :
  init Residual residual_sample_args = Ok residual_sample_self.
Proof. vm_compute; reflexivity. Qed.

Lemma residual_sample_build :
  build residual_sample_self residual_sample_shape = Ok residual_sample_block.
Proof. vm_compute; reflexivity. Qed.


Lemma new_uppool_size (self : block) (l : layer) :
  List.length (strides self) = rank self ->
  new_uppool self = Ok l -> upsampling_size l = Some (strides self).
Proof.
  unfold new_uppool; intros Hlen H.
  destruct (rank self) as [| [| [| [| n]]]]; try discriminate.
  - destruct (strides self) as [| s0 [| s1 r]]; try discriminate.
    cbn in H; injection H as <-; reflexivity.
  - injection H as <-; reflexivity.
  - injection H as <-; reflexivity.
Qed.

Lemma new_padding_amounts (self : block) (p : pad_arg) (l : layer) :
  new_padding self p = Ok l ->
  exists ps, padding_amounts l = Some ps /\
             normalize_pad_nd "padding" (rank self) p = Ok ps.
Proof.
  unfold new_padding, new_ZeroPadding1D, new_ZeroPadding2D, new_ZeroPadding3D.
  intros H; destruct (rank self) as [| [| [| [| n]]]]; try discriminate.
  - destruct (normalize_pad_1d "padding" p); discriminate.
  - inv_bind H; injection H as <-; eexists; split; [reflexivity | exact E].
  - inv_bind H; injection H as <-; eexists; split; [reflexivity | exact E].
Qed.

Lemma new_cropping_amounts (self : block) (c : pad_arg) (l : layer) :
  new_cropping self c = Ok l ->
  exists cs, cropping_amounts l = Some cs /\
             normalize_pad_nd "cropping" (rank self) c = Ok cs.
Proof.
  unfold new_cropping, new_Cropping1D, new_Cropping2D, new_Cropping3D.
  intros H; destruct (rank self) as [| [| [| [| n]]]]; try discriminate.
  - destruct (normalize_pad_1d "cropping" c); discriminate.
  - inv_bind H; injection H as <-; eexists; split; [reflexivity | exact E].
  - inv_bind H; injection H as <-; eexists; split; [reflexivity | exact E].
Qed.

(** C5: every built transposed block (residual or ResNeXt) is the
    residual computation on the up-sampled input.  [call] first applies
    the up-sampling layer, whose factor is the block strides, then, when
    [output_padding] is not [None], the zero-padding layer with these
    amounts; the projection branch (a 1x1 [_AConv] with [ofilters]
    filters, present when [ofilters] differs from the input channel
    count) and the convolution branch both consume that tensor; the
    convolution branch is the optional dropout layer, a 1x1 unit, the
    [depth - 2] middle units with the block [kernel_size] (the first of
    them with the [dilation_rate]) and a 1x1 unit with [ofilters]
    filters, the latent units having [lfilters] filters or, in a ResNeXt
    block, [lgroups * lfilters]; every convolutional unit of the block
    (projection, first, middle, last) has stride 1; and the cropping
    layer with the amounts of [output_cropping], when it is not [None],
    is applied to the merged result. *)
Theorem transpose_call :
  forall (k : klass) (a : init_args) (self : block) (s : shape) (b : block)
         (inputs : tensor),
    is_transpose k = true -> init k a = Ok self -> build self s = Ok b ->
    exists (cin f filters : Z) (L : sublayers) (uppool : layer)
           (upsampled left right dropped : tensor)
           (first last : unit_args) (middle : list unit_args),
      channelIn b = Some cin /\ layers b = Some L /\ lfilters b = Some f /\
      filters = match lgroups b with
                | Some g => g * f
                | None => f
                end /\
      layer_uppool L = Some uppool /\
      upsampling_size uppool = Some (strides b) /\
      match output_padding b with
      | Some p =>
          exists l ps,
            layer_padding L = Some l /\ padding_amounts l = Some ps /\
            normalize_pad_nd "padding" (rank b) p = Ok ps
      | None => layer_padding L = None
      end /\
      match output_cropping b with
      | Some c =>
          exists l cs,
            layer_cropping L = Some l /\ cropping_amounts l = Some cs /\
            normalize_pad_nd "cropping" (rank b) c = Ok cs
      | None => layer_cropping L = None
      end /\
      upsampled = apply_opt (layer_padding L) (Apply uppool inputs) /\
      call b inputs = Ok (apply_opt (layer_cropping L) (Merge Add left right)) /\
      (ofilters b = cin -> left = upsampled) /\
      (ofilters b <> cin ->
       exists proj,
         left = Apply (AConv proj) upsampled /\
         conv_unit b proj (ofilters b) None (IntArg 1) (IntArg 1) (IntArg 1) /\
         no_activation proj /\ u_use_bias proj = None /\
         u_gamma proj = true) /\
      Forall has_stride_1 (conv_units L) /\
      layer_first L = NACUnit first /\
      layer_middle L = map NACUnit middle /\
      layer_last L = NACUnit last /\
      after_dropout b upsampled dropped /\
      right = right_branch first middle last dropped /\
      conv_unit b first filters None (IntArg 1) (IntArg 1) (IntArg 1) /\
      List.length middle = Z.to_nat (a_depth a - 2) /\
      (forall i u, nth_error middle i = Some u ->
         conv_unit b u filters (lgroups b) (SeqArg (kernel_size b)) (IntArg 1)
           (if Nat.eqb i 0 then SeqArg (dilation_rate b) else IntArg 1)) /\
      conv_unit b last (ofilters b) None (IntArg 1) (IntArg 1) (IntArg 1) /\
      Forall (block_activation b) (first :: middle ++ [last]) /\
      Forall (fun u => u_use_bias u = None) (first :: middle) /\
      u_use_bias last = Some (ofilters b =? cin) /\
      u_gamma first = is_resnext k /\
      Forall (fun u => u_gamma u = true) middle /\
      u_gamma last = false.
Proof.
  intros k a self s b inputs Hk Hi Hb.
  pose proof Hi as Hinit.
  apply init_Ok_inv in Hi.
  destruct Hi as (ks & st & dl & _ & _ & Hst & _ & _ & Hself).
  apply normalize_tuple_length in Hst.
  assert (Hcls : cls self = k) by (rewrite Hself; reflexivity).
  assert (Hdepth : depth self = a_depth a - 2) by (rewrite Hself; reflexivity).
  assert (Hlen : List.length (strides self) = rank self).
  { rewrite Hself; exact Hst. }
  apply build_layers in Hb.
  destruct Hb as (channel_axis & cin & lg & lf & filters & act & cfg & op & oc
                  & up & pad & crop & Hc & Hl & Hact & Hcfg & Ht & -> & Hcall).
  rewrite Hcls, Hk in Ht.
  destruct Ht as (_ & (uppool & Hup & ->) & Hpad & Hcrop).
  apply build_channels_axis in Hc; subst channel_axis.
  assert (Hid : identity_left self cin = (ofilters self =? cin)).
  { unfold identity_left; rewrite Hcls, Hk; reflexivity. }
  assert (Hus : unit_strides self = IntArg 1).
  { unfold unit_strides; rewrite Hcls, Hk; reflexivity. }
  assert (Hfg : first_gamma self = is_resnext k).
  { unfold first_gamma; rewrite Hcls; destruct k; try discriminate Hk;
      reflexivity. }
  assert (Hlg : last_gamma self = false).
  { unfold last_gamma; rewrite Hcls, Hk; reflexivity. }
  assert (Hfilters : filters = match lg with
                               | Some g => g * lf
                               | None => lf
                               end).
  { unfold build_latent in Hl; destruct (is_resnext (cls self)).
    - inv_bind Hl; destruct x as [g f]; injection Hl as <- <- <-; reflexivity.
    - injection Hl as <- <- <-; reflexivity. }
  specialize (Hcall inputs); rewrite Hcls, Hk in Hcall.
  unfold expected_output in Hcall.
  rewrite expected_right_branch in Hcall.
  cbn [expected_layers layer_uppool layer_padding layer_branch_left
         layer_dropout layer_merge layer_cropping] in Hcall.
  rewrite Hid, Hus, Hdepth, Hfg, Hlg in Hcall.
  exists cin, lf, filters.
  eexists; exists uppool.
  do 4 eexists.
  exists (nac_args self act cfg filters None (IntArg 1) (IntArg 1)
            (IntArg 1) None (is_resnext k)),
    (nac_args self act cfg (ofilters self) None (IntArg 1) (IntArg 1)
       (IntArg 1) (Some (ofilters self =? cin)) false),
    (map (fun i : nat =>
            nac_args self act cfg filters lg (SeqArg (kernel_size self))
              (IntArg 1)
              (if Nat.eqb i 0 then SeqArg (dilation_rate self) else IntArg 1)
              None true)
         (seq 0 (Z.to_nat (a_depth a - 2)))).
  split; [reflexivity |].
  split; [reflexivity |].
  split; [reflexivity |].
  split; [exact Hfilters |].
  split; [reflexivity |].
  split; [exact (new_uppool_size self uppool Hlen Hup) |].
  cbn [output_padding output_cropping built rank expected_layers
         layer_padding layer_cropping].
  split.
  { destruct op as [p |]; [| exact Hpad].
    destruct Hpad as (l & Hl' & ->).
    apply new_padding_amounts in Hl'; destruct Hl' as (ps & Hps & Hn).
    exists l, ps; repeat split; assumption. }
  split.
  { destruct oc as [c |]; [| exact Hcrop].
    destruct Hcrop as (l & Hl' & ->).
    apply new_cropping_amounts in Hl'; destruct Hl' as (cs & Hcs & Hn).
    exists l, cs; repeat split; assumption. }
  split; [reflexivity |].
  split; [exact Hcall |].
  cbn [ofilters built].
  split.
  { intros Heq; apply Z.eqb_eq in Heq; rewrite Heq; reflexivity. }
  split.
  { intros Hne; apply Z.eqb_neq in Hne; rewrite Hne.
    eexists; split; [reflexivity | repeat split]. }
  split.
  { unfold conv_units, expected_layers;
      cbn [layer_branch_left layer_first layer_middle layer_last].
    rewrite Hid, Hus.
    apply Forall_app; split.
    { destruct (ofilters self =? cin); constructor; [| constructor].
      eexists; split; reflexivity. }
    constructor; [eexists; split; reflexivity |].
    apply Forall_app; split.
    + apply Forall_map_seq; intros i; eexists; split; reflexivity.
    + constructor; [eexists; split; reflexivity | constructor]. }
  unfold expected_layers; cbn [layer_first layer_middle layer_last].
  rewrite Hid, Hus, Hdepth, Hfg, Hlg.
  split; [reflexivity |].
  split.
  { rewrite map_map; apply map_ext; intros i; apply middle_unit_args. }
  split; [reflexivity |].
  split; [apply after_dropout_built |].
  split; [reflexivity |].
  split; [repeat split |].
  split; [rewrite length_map, length_seq; reflexivity |].
  split.
  { intros i u Hu; apply nth_error_map_seq in Hu; subst u; repeat split. }
  split; [repeat split |].
  assert (Hba : forall B f' lg' k' s' d' ub g',
             activation B = activation self ->
             activity_config B = activity_config self ->
             high_activation B = high_activation self ->
             block_activation B (nac_args self act cfg f' lg' k' s' d' ub g')).
  { intros B f' lg' k' s' d' ub g' H1 H2 H3; unfold block_activation.
    rewrite H1, H2, H3;
      cbn [nac_args u_activation u_activity_config u_high_activation].
    split; [exists act; split; [assumption | reflexivity] |].
    split; [assumption | reflexivity]. }
  split.
  { constructor; [apply Hba; reflexivity |].
    apply Forall_app; split.
    - apply Forall_map_seq; intros i; apply Hba; reflexivity.
    - constructor; [apply Hba; reflexivity | constructor]. }
  split.
  { constructor; [reflexivity |].
    apply Forall_map_seq; intros i; reflexivity. }
  split; [reflexivity |].
  split; [reflexivity |].
  split; [| reflexivity].
  apply Forall_map_seq; intros i; reflexivity.
Qed.

Lemma transpose_sample_init :
  init ResidualTranspose transpose_sample_args = Ok transpose_sample_self.
Proof. vm_compute; reflexivity. Qed.

Lemma transpose_sample_build :
  build transpose_sample_self residual_sample_shape = Ok transpose_sample_block.
Proof. vm_compute; reflexivity. Qed.

(** C5, on an instance: the sample transposed block. *)
Lemma transpose_call_witness :
  exists L uppool,
    layers transpose_sample_block = Some L /\
    layer_uppool L = Some uppool /\
    upsampling_size uppool = Some (strides transpose_sample_block) /\
    Forall has_stride_1 (conv_units L).
Proof.
  destruct (transpose_call ResidualTranspose transpose_sample_args
              transpose_sample_self residual_sample_shape
              transpose_sample_block (Input residual_sample_shape)
              eq_refl transpose_sample_init transpose_sample_build)
    as (cin & f & filters & L & up & u & l & r & d & first & last & middle
        & _ & HL & _ & _ & Hup & Hsize & _ & _ & _ & _ & _ & _ & H & _).
  exists L, up; repeat split; assumption.
Defined.

Lemma filter_map_seq_all {A : Type} (p : A -> bool) (f : nat -> A) (n : nat) :
  (forall i, p (f i) = true) -> filter p (map f (seq 0 n)) = map f (seq 0 n).
Proof.
  intros H; induction (seq 0 n) as [| i l IH]; [reflexivity |].
  simpl; rewrite H, IH; reflexivity.
Qed.

(** C6: in every built ResNeXt block, plain or transposed, with [g] and
    [f] the values of [self.lgroups] and [self.lfilters] after [build]:
    the entry unit is an ungrouped 1x1 [NACUnit] with [g * f] filters, each
    of the [depth - 2] middle units is a [NACUnit] with [lgroups = g],
    [g * f] filters, the block [kernel_size] and stride 1, the exit unit
    is an ungrouped 1x1 [NACUnit] with [ofilters] filters, and the middle
    units are the only grouped units of the block (the projection of the
    left branch, when there is one, is not grouped either). *)
Theorem resnext_units :
  forall (k : klass) (a : init_args) (self : block) (s : shape) (b : block),
    is_resnext k = true -> init k a = Ok self -> build self s = Ok b ->
    exists (g f cin : Z) (L : sublayers)
           (first last : unit_args) (middle : list unit_args),
      lgroups b = Some g /\ lfilters b = Some f /\ channelIn b = Some cin /\
      layers b = Some L /\
      layer_first L = NACUnit first /\
      layer_middle L = map NACUnit middle /\
      layer_last L = NACUnit last /\
      conv_unit b first (g * f) None (IntArg 1)
        (if is_transpose k then IntArg 1 else SeqArg (strides b)) (IntArg 1) /\
      List.length middle = Z.to_nat (a_depth a - 2) /\
      (forall i u, nth_error middle i = Some u ->
         conv_unit b u (g * f) (Some g) (SeqArg (kernel_size b)) (IntArg 1)
           (if Nat.eqb i 0 then SeqArg (dilation_rate b) else IntArg 1)) /\
      conv_unit b last (ofilters b) None (IntArg 1) (IntArg 1) (IntArg 1) /\
      Forall (block_activation b) (first :: middle ++ [last]) /\
      Forall (fun u => u_use_bias u = None /\ u_gamma u = true)
             (first :: middle) /\
      u_use_bias last
      = Some (if is_transpose k then ofilters b =? cin
              else (check_dl_func (strides b) && (ofilters b =? cin))%bool) /\
      u_gamma last = negb (is_transpose k) /\
      (forall l, layer_branch_left L = Some l ->
         exists proj, l = AConv proj /\ u_lgroups proj = None) /\
      filter grouped (conv_units L) = layer_middle L.
Proof.
  intros k a self s b Hk Hi Hb.
  apply init_Ok_inv in Hi.
  destruct Hi as (ks & st & dl & _ & _ & _ & _ & _ & Hself).
  assert (Hcls : cls self = k) by (rewrite Hself; reflexivity).
  assert (Hdepth : depth self = a_depth a - 2) by (rewrite Hself; reflexivity).
  apply build_layers in Hb.
  destruct Hb as (channel_axis & cin & lg & lf & filters & act & cfg & op & oc
                  & up & pad & crop & _ & Hl & Hact & Hcfg & _ & -> & _).
  unfold build_latent in Hl; rewrite Hcls, Hk in Hl.
  inv_bind Hl; destruct x as [g f]; injection Hl as <- <- <-.
  assert (Hus : unit_strides self
                = if is_transpose k then IntArg 1 else SeqArg (strides self)).
  { unfold unit_strides; rewrite Hcls; reflexivity. }
  assert (Hid : identity_left self cin
                = if is_transpose k then ofilters self =? cin
                  else (check_dl_func (strides self)
                        && (ofilters self =? cin))%bool).
  { unfold identity_left; rewrite Hcls; reflexivity. }
  assert (Hfg : first_gamma self = true).
  { unfold first_gamma; rewrite Hcls; destruct k; try discriminate Hk;
      reflexivity. }
  assert (Hlg : last_gamma self = negb (is_transpose k)).
  { unfold last_gamma; rewrite Hcls; reflexivity. }
  exists g, f, cin; eexists.
  exists (nac_args self act cfg (g * f) None (IntArg 1) (unit_strides self)
            (IntArg 1) None (first_gamma self)),
    (nac_args self act cfg (ofilters self) None (IntArg 1) (IntArg 1)
       (IntArg 1) (Some (identity_left self cin)) (last_gamma self)),
    (map (fun i : nat =>
            nac_args self act cfg (g * f) (Some g) (SeqArg (kernel_size self))
              (IntArg 1)
              (if Nat.eqb i 0 then SeqArg (dilation_rate self) else IntArg 1)
              None true)
         (seq 0 (Z.to_nat (a_depth a - 2)))).
  split; [reflexivity |].
  split; [reflexivity |].
  split; [reflexivity |].
  split; [reflexivity |].
  unfold expected_layers;
    cbn [layer_first layer_middle layer_last layer_branch_left].
  rewrite Hdepth.
  split; [reflexivity |].
  split.
  { rewrite map_map; apply map_ext; intros i; apply middle_unit_args. }
  split; [reflexivity |].
  split; [rewrite Hus; repeat split |].
  split; [rewrite length_map, length_seq; reflexivity |].
  split.
  { intros i u Hu; apply nth_error_map_seq in Hu; subst u; repeat split. }
  split; [repeat split |].
  assert (Hba : forall B f' lg' k' s' d' ub g',
             activation B = activation self ->
             activity_config B = activity_config self ->
             high_activation B = high_activation self ->
             block_activation B (nac_args self act cfg f' lg' k' s' d' ub g')).
  { intros B f' lg' k' s' d' ub g' H1 H2 H3; unfold block_activation.
    rewrite H1, H2, H3;
      cbn [nac_args u_activation u_activity_config u_high_activation].
    split; [exists act; split; [assumption | reflexivity] |].
    split; [assumption | reflexivity]. }
  split.
  { constructor; [apply Hba; reflexivity |].
    apply Forall_app; split.
    - apply Forall_map_seq; intros i; apply Hba; reflexivity.
    - constructor; [apply Hba; reflexivity | constructor]. }
  split.
  { constructor; [split; [reflexivity | exact Hfg] |].
    apply Forall_map_seq; intros i; split; reflexivity. }
  split; [cbn [u_use_bias nac_args strides ofilters built]; rewrite Hid;
          reflexivity |].
  split; [exact Hlg |].
  split.
  { intros l Hl'; destruct (identity_left self cin); [discriminate |].
    injection Hl' as <-; eexists; split; reflexivity. }
  unfold conv_units;
    cbn [layer_branch_left layer_first layer_middle layer_last].
  rewrite !filter_app.
  destruct (identity_left self cin);
    cbn [filter grouped unit_args_of u_lgroups nac_args branch_left_args app];
    rewrite filter_map_seq_all by (intros i; reflexivity);
    apply app_nil_r.
Qed.

Lemma resnext_sample_init :
  init Resnext (sample_args 2 3 64) = Ok resnext_sample_self.
Proof. vm_compute; reflexivity. Qed.

Lemma resnext_sample_build :
  build resnext_sample_self resnext_sample_shape = Ok resnext_sample_block.
Proof. vm_compute; reflexivity. Qed.

(** C6, on an instance: the sample ResNeXt block, whose latent counts
    [build] infers as 32 groups of 3 filters. *)
Lemma resnext_units_witness :
  exists L,
    layers resnext_sample_block = Some L /\
    filter grouped (conv_units L) = layer_middle L.
Proof.
  destruct (resnext_units Resnext (sample_args 2 3 64) resnext_sample_self
              resnext_sample_shape resnext_sample_block
              eq_refl resnext_sample_init resnext_sample_build)
    as (g & f & cin & L & first & last & middle
        & _ & _ & _ & HL & _ & _ & _ & _ & _ & _ & _ & _ & _ & _ & _ & _ & H).
  exists L; split; [exact HL | exact H].
Defined.

(** ** The latent counts of the ResNeXt blocks *)







Section ExactRoot.
Local Open Scope R_scope.


End ExactRoot.




(** ** The shapes of the two branches *)

Lemma conv_shape_Ok (a : unit_args) (s s' : shape) :
  u_padding a = same ->
  conv_compute_output_shape a s = Ok s' ->
  exists sts b sp c sp',
    normalize_tuple (u_strides a) (u_rank a) "strides" = Ok sts /\
    s = join_shape (u_data_format a) b sp c /\
    List.length sp = u_rank a /\
    stride_space sp sts = Ok sp' /\
    s' = join_shape (u_data_format a) b sp' (Some (u_filters a)).
Proof.
  intros Hp H.
  destruct (normalize_tuple (u_kernel_size a) (u_rank a) "kernel_size")
    as [ks |] eqn:Ek; [| unfold conv_compute_output_shape in H;
                         rewrite Ek in H; discriminate].
  destruct (normalize_tuple (u_strides a) (u_rank a) "strides")
    as [sts |] eqn:Es; [| unfold conv_compute_output_shape in H;
                          rewrite Ek, Es in H; discriminate].
  destruct (normalize_tuple (u_dilation_rate a) (u_rank a) "dilation_rate")
    as [ds |] eqn:Ed; [| unfold conv_compute_output_shape in H;
                         rewrite Ek, Es, Ed in H; discriminate].
  rewrite (conv_same_shape a s ks sts ds Hp Ek Es Ed) in H.
  inv_bind H; destruct x as [[b sp] c]; inv_bind H; injection H as <-.
  apply split_shape_Ok in E; destruct E as [-> [Hl _]].
  exists sts, b, sp, c, x; repeat split; assumption.
Qed.

Lemma join_shape_inj (df : data_format) (b b' : dim) (sp sp' : list dim)
    (c c' : dim) :
  join_shape df b sp c = join_shape df b' sp' c' ->
  b = b' /\ sp = sp' /\ c = c'.
Proof.
  destruct df; simpl; intros H; injection H.
  - intros H' ->; apply app_inj_tail in H'; destruct H' as [-> ->];
      repeat split.
  - intros -> -> ->; repeat split.
Qed.

(** A unit with stride 1 and [padding = same] keeps the spatial sizes
    and sets the channel count to its [filters]. *)
Lemma unit_stride_1_shape (a : unit_args) (b : dim) (sp : list dim) (c : dim)
    (s' : shape) :
  u_padding a = same -> u_strides a = IntArg 1 ->
  List.length sp = u_rank a ->
  conv_compute_output_shape a (join_shape (u_data_format a) b sp c) = Ok s' ->
  s' = join_shape (u_data_format a) b sp (Some (u_filters a)).
Proof.
  intros Hp Hs Hl H; apply conv_shape_Ok in H; [| assumption].
  destruct H as (sts & b' & sp0 & c' & sp' & Hn & Hj & Hl' & Hst & ->).
  apply join_shape_inj in Hj; destruct Hj as [<- [<- <-]].
  rewrite Hs in Hn; unfold normalize_tuple in Hn; injection Hn as <-.
  rewrite stride_space_ones in Hst.
  - injection Hst as <-; reflexivity.
  - rewrite repeat_length; symmetry; assumption.
  - apply check_dl_func_repeat.
Qed.

Lemma middle_chain_shape (self : block) (act : string)
    (cfg : option config_dict) (filters : Z) (lg : option Z)
    (b : dim) (sp : list dim) :
  List.length sp = rank self ->
  forall (range : list nat) (s' : shape),
    shape_chain (map (middle_unit self act cfg filters lg) range)
      (join_shape (data_format_ self) b sp (Some filters)) = Ok s' ->
    s' = join_shape (data_format_ self) b sp (Some filters).
Proof.
  intros Hl; induction range as [| i range IH]; intros s' H.
  - injection H as <-; reflexivity.
  - simpl in H; inv_bind H.
    match type of E with
    | conv_compute_output_shape ?u _ = _ =>
        apply (unit_stride_1_shape u b sp (Some filters)) in E;
        [| reflexivity | reflexivity | exact Hl]
    end.
    cbn [u_data_format u_filters nac_args] in E; rewrite E in H.
    apply IH; exact H.
Qed.

Lemma getitem_channel (df : data_format) (b : dim) (sp : list dim) (c : dim) :
  getitem (join_shape df b sp c)
          (if data_format_eqb df channels_first then 1 else -1) = Ok c.
Proof.
  destruct df; unfold getitem; cbn [data_format_eqb join_shape].
  - replace (-1 <? 0) with true by reflexivity.
    cbn [List.length]; rewrite length_app; cbn [List.length].
    destruct (-1 + Z.of_nat (S (Datatypes.length sp + 1)) <? 0) eqn:E;
      [apply Z.ltb_lt in E; lia |].
    replace (Z.to_nat (-1 + Z.of_nat (S (Datatypes.length sp + 1))))
      with (S (List.length sp)) by lia.
    cbn [nth_error]; rewrite nth_error_app2 by lia.
    rewrite Nat.sub_diag; reflexivity.
  - reflexivity.
Qed.

(** The branch shapes computed by [build_branches] on a shape whose
    channel entry is [channelIn]: the two are equal, with [ofilters]
    channels and the spatial sizes of a [same] convolution with the unit
    strides. *)
Lemma branches_shapes (self : block) (channelIn channel_axis filters : Z)
    (lg : option Z) (b : dim) (sp : list dim) (br : branches) :
  List.length sp = rank self ->
  build_branches self channelIn channel_axis filters lg
    (join_shape (data_format_ self) b sp (Some channelIn)) = Ok br ->
  exists sts sp',
    normalize_tuple (unit_strides self) (rank self) "strides" = Ok sts /\
    stride_space sp sts = Ok sp' /\
    left_shape br = join_shape (data_format_ self) b sp' (Some (ofilters self)) /\
    right_shape br = join_shape (data_format_ self) b sp' (Some (ofilters self)).
Proof.
  intros Hl H; apply build_branches_Ok in H.
  destruct H as (act & cfg & _ & _ & Hleft & Hdrop & Hfirst & Hmid & Hlast
                 & Hls & s0 & s1 & s2 & Hs0 & Hs1 & Hs2 & Hs3).
  assert (s0 = join_shape (data_format_ self) b sp (Some channelIn)) as ->.
  { rewrite Hdrop in Hs0; unfold return_dropout in Hs0.
    destruct (dropout self); simpl in Hs0; injection Hs0 as <-; reflexivity. }
  rewrite Hfirst in Hs1; cbn [layer_compute_output_shape] in Hs1.
  apply conv_shape_Ok in Hs1; [| reflexivity].
  cbn [u_strides u_rank u_data_format u_filters nac_args] in Hs1.
  destruct Hs1 as (sts & b' & sp0 & c' & sp' & Hn & Hj & _ & Hst & ->).
  apply join_shape_inj in Hj; destruct Hj as [<- [<- <-]].
  assert (Hl' : List.length sp' = rank self).
  { apply stride_space_length in Hst; congruence. }
  rewrite Hmid in Hs2; apply middle_chain_shape in Hs2; [| exact Hl'].
  subst s2.
  rewrite Hlast in Hs3; cbn [layer_compute_output_shape] in Hs3.
  match type of Hs3 with
  | conv_compute_output_shape ?u _ = _ =>
      apply (unit_stride_1_shape u b sp' (Some filters)) in Hs3;
      [| reflexivity | reflexivity | exact Hl']
  end.
  cbn [u_data_format u_filters nac_args] in Hs3.
  exists sts, sp'; repeat split; try assumption.
  rewrite Hleft in Hls.
  destruct (identity_left self channelIn) eqn:Eid.
  - injection Hls as <-.
    unfold identity_left in Eid; unfold unit_strides in Hn.
    destruct (is_transpose (cls self)).
    + apply Z.eqb_eq in Eid; rewrite Eid.
      unfold normalize_tuple in Hn; injection Hn as <-.
      rewrite stride_space_ones in Hst;
        [injection Hst as <-; reflexivity
        | rewrite repeat_length; symmetry; assumption
        | apply check_dl_func_repeat].
    + apply andb_true_iff in Eid; destruct Eid as [Hone Eid].
      apply Z.eqb_eq in Eid; rewrite Eid.
      pose proof (normalize_tuple_length _ _ _ _ Hn) as Hlen.
      unfold normalize_tuple in Hn.
      destruct (Nat.eqb _ _); [| discriminate]; injection Hn as <-.
      rewrite stride_space_ones in Hst;
        [injection Hst as <-; reflexivity | congruence | assumption].
  - cbn [shape_opt layer_compute_output_shape] in Hls.
    apply conv_shape_Ok in Hls; [| reflexivity].
    cbn [u_strides u_rank u_data_format u_filters branch_left_args] in Hls.
    destruct Hls as (sts' & b' & sp0 & c' & sp'' & Hn' & Hj & _ & Hst' & ->).
    apply join_shape_inj in Hj; destruct Hj as [<- [<- <-]].
    rewrite Hn in Hn'; injection Hn' as <-.
    rewrite Hst in Hst'; injection Hst' as <-; reflexivity.
Qed.

Lemma map_space_length {A : Type} (f : A -> dim -> dim) :
  forall (amounts : list A) (sp sp' : list dim),
    map_space f amounts sp = Ok sp' -> List.length sp' = List.length sp.
Proof.
  intros amounts sp; revert amounts.
  induction sp as [| d sp IH]; intros amounts sp' H.
  - injection H as <-; reflexivity.
  - destruct amounts as [| x amounts]; [discriminate |].
    simpl in H; inv_bind H; injection H as <-.
    simpl; f_equal; eapply IH; eassumption.
Qed.

Lemma spatial_layer_shape_Ok {A : Type} (f : A -> dim -> dim)
    (amounts : list A) (df : data_format) (n : nat) (s s' : shape) :
  spatial_layer_shape f amounts df n s = Ok s' ->
  exists b sp c sp',
    s = join_shape df b sp c /\ List.length sp = n /\
    map_space f amounts sp = Ok sp' /\
    s' = join_shape df b sp' c /\ List.length sp' = n.
Proof.
  unfold spatial_layer_shape; intros H.
  inv_bind H; destruct x as [[b sp] c]; inv_bind H; injection H as <-.
  apply split_shape_Ok in E; destruct E as [-> [Hl _]].
  exists b, sp, c, x; repeat split; try assumption.
  apply map_space_length in E0; congruence.
Qed.

(** The shape after the up-sampling layer: every spatial size is
    multiplied by the stride of its axis. *)
Lemma uppool_shape (self : block) (up : layer) (s s1 : shape) :
  (rank self = 1%nat -> data_format_ self = channels_last) ->
  new_uppool self = Ok up ->
  layer_compute_output_shape up s = Ok s1 ->
  exists b sp c sp',
    s = join_shape (data_format_ self) b sp c /\
    List.length sp = rank self /\
    map_space dim_mul (strides self) sp = Ok sp' /\
    s1 = join_shape (data_format_ self) b sp' c /\
    List.length sp' = rank self.
Proof.
  unfold new_uppool; intros Hdf Hup Hs.
  destruct (rank self) as [| [| [| [| n]]]] eqn:Er; try discriminate.
  - inv_bind Hup; injection Hup as <-.
    rewrite (Hdf eq_refl); cbn [layer_compute_output_shape] in Hs.
    apply spatial_layer_shape_Ok in Hs.
    destruct Hs as (b & sp & c & sp' & -> & Hl & Hm & -> & Hl').
    exists b, sp, c, sp'; repeat split; try assumption.
    destruct (strides self) as [| s0 rest]; [discriminate |].
    unfold getitem in E; cbn in E; injection E as ->.
    destruct sp as [| d [| d' sp]]; try discriminate; exact Hm.
  - injection Hup as <-; cbn [layer_compute_output_shape] in Hs.
    apply spatial_layer_shape_Ok in Hs.
    destruct Hs as (b & sp & c & sp' & -> & Hl & Hm & -> & Hl').
    exists b, sp, c, sp'; repeat split; assumption.
  - injection Hup as <-; cbn [layer_compute_output_shape] in Hs.
    apply spatial_layer_shape_Ok in Hs.
    destruct Hs as (b & sp & c & sp' & -> & Hl & Hm & -> & Hl').
    exists b, sp, c, sp'; repeat split; assumption.
Qed.

(** The shape after the padding layer. *)
Lemma padding_shape (self : block) (p : pad_arg) (l : layer) (s s' : shape) :
  new_padding self p = Ok l ->
  layer_compute_output_shape l s = Ok s' ->
  exists ps b sp c sp',
    normalize_pad_nd "padding" (rank self) p = Ok ps /\
    s = join_shape (data_format_ self) b sp c /\
    List.length sp = rank self /\
    map_space dim_pad ps sp = Ok sp' /\
    s' = join_shape (data_format_ self) b sp' c /\
    List.length sp' = rank self.
Proof.
  unfold new_padding; intros Hp Hs.
  destruct (rank self) as [| [| [| [| n]]]] eqn:Er; try discriminate.
  - inv_bind Hp; discriminate.
  - unfold new_ZeroPadding2D in Hp; inv_bind Hp; injection Hp as <-.
    cbn [layer_compute_output_shape] in Hs.
    apply spatial_layer_shape_Ok in Hs.
    destruct Hs as (b & sp & c & sp' & -> & Hl & Hm & -> & Hl').
    exists x, b, sp, c, sp'; repeat split; assumption.
  - unfold new_ZeroPadding3D in Hp; inv_bind Hp; injection Hp as <-.
    cbn [layer_compute_output_shape] in Hs.
    apply spatial_layer_shape_Ok in Hs.
    destruct Hs as (b & sp & c & sp' & -> & Hl & Hm & -> & Hl').
    exists x, b, sp, c, sp'; repeat split; assumption.
Qed.

(** The cropping layer is created without [data_format]: it crops the
    axes that are spatial under the global default, [channels_last]. *)
Lemma cropping_shape (self : block) (c : pad_arg) (l : layer) (s s' : shape) :
  new_cropping self c = Ok l ->
  layer_compute_output_shape l s = Ok s' ->
  exists cs b sp ch sp',
    normalize_pad_nd "cropping" (rank self) c = Ok cs /\
    s = join_shape channels_last b sp ch /\
    List.length sp = rank self /\
    map_space (if Nat.eqb (rank self) 2 then dim_crop_2d else dim_crop) cs sp
    = Ok sp' /\
    s' = join_shape channels_last b sp' ch /\
    List.length sp' = rank self.
Proof.
  unfold new_cropping; intros Hp Hs.
  destruct (rank self) as [| [| [| [| n]]]] eqn:Er; try discriminate.
  - inv_bind Hp; discriminate.
  - unfold new_Cropping2D in Hp; inv_bind Hp; injection Hp as <-.
    cbn [layer_compute_output_shape normalize_data_format image_data_format]
      in Hs.
    apply spatial_layer_shape_Ok in Hs.
    destruct Hs as (b & sp & ch & sp' & -> & Hl & Hm & -> & Hl').
    exists x, b, sp, ch, sp'; repeat split; assumption.
  - unfold new_Cropping3D in Hp; inv_bind Hp; injection Hp as <-.
    cbn [layer_compute_output_shape normalize_data_format image_data_format]
      in Hs.
    apply spatial_layer_shape_Ok in Hs.
    destruct Hs as (b & sp & ch & sp' & -> & Hl & Hm & -> & Hl').
    exists x, b, sp, ch, sp'; repeat split; assumption.
Qed.

(** A constructed transposed 1D block is [channels_last]. *)
Lemma init_rank_1_format (k : klass) (a : init_args) (self : block) :
  init k a = Ok self -> is_transpose k = true ->
  rank self = 1%nat -> data_format_ self = channels_last.
Proof.
  intros H Hk Hr; apply init_Ok_inv in H.
  destruct H as (ks & st & dl & [_ [_ Hc]] & _ & _ & _ & _ & ->).
  cbn [rank data_format_ init_block] in *.
  rewrite Hk, Hr in Hc; cbn [andb Nat.eqb] in Hc.
  destruct (normalize_data_format (a_data_format a)); [reflexivity | discriminate].
Qed.

(** The shape on which a successful [build] builds the two branches: the
    input shape in a plain block, the up-sampled and padded shape in a
    transposed block; its channel entry is the input channel count. *)
Lemma build_next_shape (self : block) (s : shape) (channel_axis channelIn : Z)
    (filters : Z) (lg : option Z) (next_shape : shape) (br : branches) :
  (is_transpose (cls self) = true -> rank self = 1%nat ->
   data_format_ self = channels_last) ->
  build_channels self s = Ok (channel_axis, channelIn) ->
  (if is_transpose (cls self) then
     exists op uppool pad,
       build_uppool self op s = Ok (uppool, pad, next_shape)
   else next_shape = s) ->
  build_branches self channelIn channel_axis filters lg next_shape = Ok br ->
  exists b sp,
    next_shape = join_shape (data_format_ self) b sp (Some channelIn) /\
    List.length sp = rank self.
Proof.
  intros Hdf Hc Hn Hb.
  assert (Hch : forall b sp c,
             s = join_shape (data_format_ self) b sp c -> c = Some channelIn).
  { intros b sp c ->; unfold build_channels in Hc.
    destruct (Nat.ltb _ _); [discriminate |].
    rewrite getitem_channel in Hc; cbn [bind] in Hc.
    destruct c; [injection Hc as _ <-; reflexivity | discriminate]. }
  destruct (is_transpose (cls self)).
  - destruct Hn as (op & uppool & pad & Hu).
    unfold build_uppool in Hu; inv_bind Hu; inv_bind Hu.
    apply build_layer_Ok in E0.
    destruct (uppool_shape self x s x0 (Hdf eq_refl) E E0)
      as (b & sp & c & sp' & Hs & Hl & _ & -> & Hl').
    rewrite (Hch b sp c Hs) in *.
    destruct op as [p |].
    + inv_bind Hu; inv_bind Hu; injection Hu as _ _ <-.
      apply build_layer_Ok in E2.
      destruct (padding_shape self p _ _ _ E1 E2)
        as (ps & b' & sp0 & c' & sp'' & _ & Hj & _ & _ & -> & Hl'').
      apply join_shape_inj in Hj; destruct Hj as [<- [_ <-]].
      exists b, sp''; split; [reflexivity | assumption].
    + injection Hu as _ _ <-.
      exists b, sp'; split; [reflexivity | assumption].
  - subst next_shape.
    apply build_branches_Ok in Hb.
    destruct Hb as (act & cfg & _ & _ & _ & Hdrop & Hfirst & _ & _ & _
                    & s0 & s1 & s2 & Hs0 & Hs1 & _).
    assert (s0 = s) as ->.
    { rewrite Hdrop in Hs0; unfold return_dropout in Hs0.
      destruct (dropout self); simpl in Hs0; injection Hs0 as <-; reflexivity. }
    rewrite Hfirst in Hs1; cbn [layer_compute_output_shape] in Hs1.
    apply conv_shape_Ok in Hs1; [| reflexivity].
    cbn [u_strides u_rank u_data_format u_filters nac_args] in Hs1.
    destruct Hs1 as (sts & b & sp & c & sp' & _ & Hj & Hl & _).
    rewrite (Hch b sp c Hj) in Hj.
    exists b, sp; split; assumption.
Qed.

(** C7: in every constructed block (residual or ResNeXt, plain or
    transposed) whose [build] succeeds, the two shapes that [build] hands
    to the [Add] merge are equal: the left (projection or identity) branch
    and the right (convolutional) branch have the same spatial sizes and
    exactly [ofilters] channels, so the shape validation of the merge
    passes. *)
Theorem merge_shapes_equal :
  forall (k : klass) (a : init_args) (self : block) (s : shape) (b : block),
    init k a = Ok self -> build self s = Ok b ->
    exists (channel_axis cin : Z) (lg : option Z) (lf filters : Z)
           (next_shape : shape) (br : branches) (space : list dim),
      build_channels self s = Ok (channel_axis, cin) /\
      build_latent self cin = Ok (lg, lf, filters) /\
      (if is_transpose k then
         exists op oc uppool pad,
           infer_output_padding self s = Ok (op, oc) /\
           build_uppool self op s = Ok (uppool, pad, next_shape)
       else next_shape = s) /\
      build_branches self cin channel_axis filters lg next_shape = Ok br /\
      merge_build (left_shape br) (right_shape br) = Ok tt /\
      left_shape br = right_shape br /\
      spatial (data_format_ self) (rank self) (left_shape br) = Ok space /\
      spatial (data_format_ self) (rank self) (right_shape br) = Ok space /\
      channels (data_format_ self) (rank self) (left_shape br)
        = Ok (Some (ofilters self)) /\
      channels (data_format_ self) (rank self) (right_shape br)
        = Ok (Some (ofilters self)).
Proof.
  intros k a self s b Hi Hb.
  assert (Hcls : cls self = k).
  { apply init_Ok_inv in Hi.
    destruct Hi as (ks & st & dl & _ & _ & _ & _ & _ & ->); reflexivity. }
  pose proof (init_rank_1_format k a self Hi) as Hdf.
  apply build_Ok in Hb.
  destruct Hb as (channel_axis & cin & lg & lf & filters & next_shape & br
                  & op & oc & up & pad & crop & Hc & Hl & Hbr & Hm & Ht & _).
  rewrite Hcls in Ht.
  assert (Hn : if is_transpose (cls self) then
                 exists op uppool pad,
                   build_uppool self op s = Ok (uppool, pad, next_shape)
               else next_shape = s).
  { rewrite Hcls; destruct (is_transpose k).
    - destruct Ht as (uppool & merged & _ & Hu & _).
      exists op, uppool, pad; exact Hu.
    - apply Ht. }
  rewrite <- Hcls in Hdf.
  destruct (build_next_shape self s channel_axis cin filters lg next_shape br
              Hdf Hc Hn Hbr) as (bd & sp & Hj & Hlen).
  rewrite Hj in Hbr.
  destruct (branches_shapes self cin channel_axis filters lg bd sp br Hlen Hbr)
    as (sts & sp' & _ & Hst & Hleft & Hright).
  rewrite <- Hj in Hbr.
  assert (Hlen' : List.length sp' = rank self).
  { apply stride_space_length in Hst; congruence. }
  exists channel_axis, cin, lg, lf, filters, next_shape, br, sp'.
  repeat split; try assumption.
  - destruct (is_transpose k).
    + destruct Ht as (uppool & merged & Hinf & Hu & _).
      exists op, oc, uppool, pad; split; assumption.
    + apply Ht.
  - congruence.
  - unfold spatial; rewrite Hleft, split_join by assumption; reflexivity.
  - unfold spatial; rewrite Hright, split_join by assumption; reflexivity.
  - unfold channels; rewrite Hleft, split_join by assumption; reflexivity.
  - unfold channels; rewrite Hright, split_join by assumption; reflexivity.
Qed.

(** C7, on instances: the sample plain and transposed blocks. *)
Lemma merge_shapes_equal_witness :
  (exists (next_shape : shape) (br : branches),
      build_branches residual_sample_self 4 (-1) 2 None next_shape = Ok br /\
      left_shape br = right_shape br) /\
  (exists (next_shape : shape) (br : branches),
      build_branches transpose_sample_self 4 (-1) 2 None next_shape = Ok br /\
      left_shape br = right_shape br).
Proof.
  split.
  - destruct (merge_shapes_equal Residual residual_sample_args
                residual_sample_self residual_sample_shape
                residual_sample_block
                residual_sample_init residual_sample_build)
      as (ca & cin & lg & lf & f & ns & br & sp & Hc & Hl & _ & Hb & _ & H & _).
    vm_compute in Hc; injection Hc as <- <-.
    vm_compute in Hl; injection Hl as <- _ <-.
    exists ns, br; split; [exact Hb | exact H].
  - destruct (merge_shapes_equal ResidualTranspose transpose_sample_args
                transpose_sample_self residual_sample_shape
                transpose_sample_block
                transpose_sample_init transpose_sample_build)
      as (ca & cin & lg & lf & f & ns & br & sp & Hc & Hl & _ & Hb & _ & H & _).
    vm_compute in Hc; injection Hc as <- <-.
    vm_compute in Hl; injection Hl as <- _ <-.
    exists ns, br; split; [exact Hb | exact H].
Defined.

(** ** The inferred padding and cropping *)

(** C1, at the failing input: the transposed block with
    [dilation_rate = 2] is built with the cropping [((2, 2), (2, 2))],
    inferred from [12 - 8 * max(1, 2) = -4], while its up-sampling layer
    has factor [strides = 1]; [compute_output_shape] returns, and the tensor
    returned by [call] has, the spatial sizes [(4, 4)] where
    [output_mshape] asks for [(12, 12)]. *)
Theorem transpose_dilation_output_shape :
  ('b <- init_build ResidualTranspose dilated_sample_args dilated_sample_shape ;;
   Ok (output_padding b, output_cropping b))
  = Ok (None, Some (PadPairs [(2, 2); (2, 2)])) /\
  ('b <- init_build ResidualTranspose dilated_sample_args dilated_sample_shape ;;
   'out <- compute_output_shape b dilated_sample_shape ;;
   spatial channels_last 2 out)
  = Ok [Some 4; Some 4] /\
  ('b <- init_build ResidualTranspose dilated_sample_args dilated_sample_shape ;;
   't <- call b (Input dilated_sample_shape) ;;
   'out <- tensor_shape t ;;
   spatial channels_last 2 out)
  = Ok [Some 4; Some 4] /\
  ('m <- getattr "output_mshape" (a_output_mshape dilated_sample_args) ;;
   spatial channels_last 2 m)
  = Ok [Some 12; Some 12].
Proof.
  repeat split; vm_compute; reflexivity.
Qed.

(** C2, at the failing input: in the [channels_first] block the slices
    [[1:-1]] of the two shapes are [(3, 20)] and [(3, 8)], so the loop
    computes [3 - 3 * 2 = -3] and [20 - 8 * 2 = 4]: the inferred padding
    is [((0, 0), (2, 2))] and the inferred cropping [((1, 2), (0, 0))],
    whereas the spatial entries are [(20, 16)] and [(8, 8)], for which
    the claim gives the padding [((2, 2), (0, 0))] and no cropping. *)
Theorem infer_output_padding_channels_first :
  ('self <- init ResidualTranspose channels_first_sample_args ;;
   infer_output_padding self channels_first_sample_shape)
  = Ok (Some (PadPairs [(0, 0); (2, 2)]), Some (PadPairs [(1, 2); (0, 0)])) /\
  ('m <- getattr "output_mshape" (a_output_mshape channels_first_sample_args) ;;
   spatial channels_first 2 m)
  = Ok [Some 20; Some 16] /\
  spatial channels_first 2 channels_first_sample_shape = Ok [Some 8; Some 8] /\
  ('b <- init_build ResidualTranspose channels_first_sample_args
           channels_first_sample_shape ;;
   compute_output_shape b channels_first_sample_shape)
  = Ok [None; Some 0; Some 16; Some 20].
Proof.
  repeat split; vm_compute; reflexivity.
Qed.

Lemma getitem_nat {A : Type} (l : list A) (i : nat) (x : A) :
  getitem l (Z.of_nat i) = Ok x -> nth_error l i = Some x.
Proof.
  unfold getitem.
  destruct (Z.of_nat i <? 0) eqn:E; [apply Z.ltb_lt in E; lia |].
  rewrite E, Nat2Z.id.
  destruct (nth_error l i); [intros H; injection H as <-; reflexivity |].
  discriminate.
Qed.

(** One round of the inference loop, on axis [i]. *)
Lemma infer_axis_Ok (lo li : list dim) (st dl : list Z) (i : nat)
    (p c : Z * Z) :
  infer_axis lo li st dl i = Ok (p, c) ->
  exists o n s d,
    nth_error lo i = Some (Some o) /\ nth_error li i = Some (Some n) /\
    nth_error st i = Some s /\ nth_error dl i = Some d /\
    let diff := o - n * Z.max s d in
    (0 < diff -> p = (diff / 2, diff / 2 + diff mod 2) /\ c = (0, 0)) /\
    (diff < 0 ->
     c = (Z.abs diff / 2, Z.abs diff / 2 + Z.abs diff mod 2) /\ p = (0, 0)) /\
    (diff = 0 -> p = (0, 0) /\ c = (0, 0)).
Proof.
  unfold infer_axis; intros H.
  inv_bind H; inv_bind H; inv_bind H; inv_bind H.
  apply getitem_nat in E, E0, E1, E2.
  destruct x as [o |]; [| discriminate].
  destruct x0 as [n |]; [| discriminate].
  exists o, n, x1, x2; repeat split; try assumption.
  - destruct (0 <? o - n * Z.max x1 x2) eqn:Ed; [| apply Z.ltb_ge in Ed; lia].
    injection H as <- _; reflexivity.
  - destruct (0 <? o - n * Z.max x1 x2) eqn:Ed; [| apply Z.ltb_ge in Ed; lia].
    injection H as _ <-; reflexivity.
  - destruct (0 <? o - n * Z.max x1 x2) eqn:Ed; [apply Z.ltb_lt in Ed; lia |].
    destruct (o - n * Z.max x1 x2 <? 0) eqn:Ed'; [| apply Z.ltb_ge in Ed'; lia].
    injection H as _ <-; unfold split_amount.
    rewrite Z.abs_neq by lia; reflexivity.
  - destruct (0 <? o - n * Z.max x1 x2) eqn:Ed; [apply Z.ltb_lt in Ed; lia |].
    destruct (o - n * Z.max x1 x2 <? 0) eqn:Ed'; [| apply Z.ltb_ge in Ed'; lia].
    injection H as <- _; reflexivity.
  - rewrite H0 in H; cbn in H; injection H as <- _; reflexivity.
  - rewrite H0 in H; cbn in H; injection H as _ <-; reflexivity.
Qed.

Lemma infer_axes_Ok (lo li : list dim) (st dl : list Z) :
  forall (range : list nat) (ps cs : pairs),
    infer_axes lo li st dl range = Ok (ps, cs) ->
    List.length ps = List.length range /\
    List.length cs = List.length range /\
    forall j i, nth_error range j = Some i ->
      exists p c,
        infer_axis lo li st dl i = Ok (p, c) /\
        nth_error ps j = Some p /\ nth_error cs j = Some c.
Proof.
  induction range as [| i0 range IH]; intros ps cs H.
  - injection H as <- <-; repeat split; intros [| j] i Hj; discriminate.
  - simpl in H; inv_bind H; destruct x as [p c].
    inv_bind H; destruct x as [ps' cs']; injection H as <- <-.
    destruct (IH ps' cs' E0) as (Hp & Hc & Hn).
    repeat split; [simpl; lia | simpl; lia |].
    intros [| j] i Hj.
    + injection Hj as <-; exists p, c; repeat split; assumption.
    + apply Hn; exact Hj.
Qed.

Lemma deFlag_all_zero (ps : pairs) :
  Nat.leb (List.length ps) (deFlag ps) = true <->
  Forall (fun p => p = (0, 0)) ps.
Proof.
  unfold deFlag; induction ps as [| [x y] ps IH]; [split; constructor |].
  pose proof (filter_length_le is_zero_pair ps) as Hle.
  cbn [filter List.length]; unfold is_zero_pair at 1; cbn [fst snd].
  destruct ((x =? 0) && (y =? 0))%bool eqn:E.
  - apply andb_true_iff in E; destruct E as [Ex Ey].
    apply Z.eqb_eq in Ex, Ey; subst; cbn [List.length Nat.leb].
    rewrite IH; split; [intros H; constructor; auto |].
    intros H; inversion H; assumption.
  - split.
    + intros H; apply Nat.leb_le in H; lia.
    + intros H; inversion H as [| ? ? Hz _]; injection Hz as -> ->.
      discriminate.
Qed.

(** The inference of [build] computes the amounts from the slices
    [[1:-1]] of [output_mshape] and of the input shape. *)
Lemma infer_output_padding_Ok (self : block) (s m : shape)
    (op oc : option pad_arg) :
  output_mshape self = Some m ->
  infer_output_padding self s = Ok (op, oc) ->
  inferred_amounts self (slice_1_m1 m) (slice_1_m1 s) op oc.
Proof.
  unfold infer_output_padding, inferred_amounts; intros Hm H; rewrite Hm in H.
  inv_bind H; destruct x as [ps cs]; injection H as <- <-.
  apply infer_axes_Ok in E; destruct E as (Hp & Hc & Hn).
  rewrite length_seq in Hp, Hc.
  exists ps, cs; split; [assumption | split; [assumption |]].
  split.
  { intros i Hi.
    destruct (Hn i i) as (p & c & Ha & Hpi & Hci).
    { rewrite nth_error_seq.
      replace (Nat.ltb i (rank self)) with true
        by (symmetry; apply Nat.ltb_lt; assumption).
      reflexivity. }
    apply infer_axis_Ok in Ha.
    destruct Ha as (o & n & st & d & Ho & Hni & Hs & Hd & Hcases).
    exists o, n, st, d; repeat split; try assumption.
    exists p, c; split; [assumption | split; [assumption | exact Hcases]]. }
  unfold none_if_all_zero.
  pose proof (deFlag_all_zero ps) as Zp; pose proof (deFlag_all_zero cs) as Zc.
  rewrite Hp in Zp; rewrite Hc in Zc.
  repeat split.
  - intros HF; apply Zp in HF; rewrite HF; reflexivity.
  - intros HF; destruct (Nat.leb (rank self) (deFlag ps)); [| reflexivity].
    elim HF; apply Zp; reflexivity.
  - intros HF; apply Zc in HF; rewrite HF; reflexivity.
  - intros HF; destruct (Nat.leb (rank self) (deFlag cs)); [| reflexivity].
    elim HF; apply Zc; reflexivity.
Qed.

Lemma slice_spatial (n : nat) (s : shape) (sp : list dim) :
  spatial channels_last n s = Ok sp -> slice_1_m1 s = sp.
Proof.
  unfold spatial; intros H; inv_bind H; destruct x as [[b sp'] c].
  injection H as <-; apply split_shape_Ok in E; destruct E as [-> _].
  unfold slice_1_m1; cbn [join_shape tl]; apply removelast_last.
Qed.

(** X2: the padding and cropping that a transposed [build] infers, in
    terms of the spatial entries of [channels_last] shapes. *)
Theorem infer_output_padding_channels_last :
  forall (self : block) (s m : shape) (sp_out sp_in : list dim)
         (op oc : option pad_arg),
    output_mshape self = Some m ->
    spatial channels_last (rank self) m = Ok sp_out ->
    spatial channels_last (rank self) s = Ok sp_in ->
    infer_output_padding self s = Ok (op, oc) ->
    inferred_amounts self sp_out sp_in op oc.
Proof.
  intros self s m sp_out sp_in op oc Hm Ho Hi H.
  apply slice_spatial in Ho, Hi; subst sp_out sp_in.
  eapply infer_output_padding_Ok; eassumption.
Qed.

Lemma transpose_sample_inference :
  infer_output_padding transpose_sample_self residual_sample_shape
  = Ok (Some (PadPairs [(0, 1); (0, 0)]), Some (PadPairs [(0, 0); (1, 1)])).
Proof. vm_compute; reflexivity. Qed.

(** On the sample transposed block: from [19 - 9 * 2 = 1] and
    [14 - 8 * 2 = -2]. *)
Lemma infer_output_padding_channels_last_witness :
  inferred_amounts transpose_sample_self
    [Some 19; Some 14] [Some 9; Some 8]
    (Some (PadPairs [(0, 1); (0, 0)])) (Some (PadPairs [(0, 0); (1, 1)])).
Proof.
  exact (infer_output_padding_channels_last transpose_sample_self
           residual_sample_shape [None; Some 19; Some 14; Some 16]
           [Some 19; Some 14] [Some 9; Some 8] _ _
           eq_refl eq_refl eq_refl transpose_sample_inference).
Defined.

(** ** The output shape of a transposed block *)

Lemma merge_dims_same (t : list dim) : merge_dims t t = Ok t.
Proof.
  induction t as [| d t IH]; [reflexivity |].
  simpl; rewrite IH.
  destruct d as [i |]; simpl; [| reflexivity].
  destruct (i =? 1) eqn:E1; [reflexivity |].
  rewrite Z.eqb_refl; reflexivity.
Qed.

(** Merging two equal shapes gives that shape. *)
Lemma merge_same (b : dim) (t : list dim) :
  merge_compute_output_shape (b :: t) (b :: t) = Ok (b :: t).
Proof.
  unfold merge_compute_output_shape, compute_elemwise_op_output_shape.
  cbn [tl]; rewrite Nat.ltb_irrefl.
  assert (H : match t with
              | [] => Ok t
              | _ :: _ =>
                  'r <- merge_dims (skipn (List.length t - List.length t) t) t ;;
                  Ok (firstn (List.length t - List.length t) t ++ r)
              end = Ok t).
  { destruct t as [| d t']; [reflexivity |].
    rewrite Nat.sub_diag; cbn [skipn firstn app].
    rewrite merge_dims_same; reflexivity. }
  rewrite H; cbn [bind batch_sizes].
  destruct b as [x |]; [rewrite Z.eqb_refl |]; reflexivity.
Qed.

Lemma map_space_nth {A : Type} (f : A -> dim -> dim) :
  forall (sp : list dim) (amounts : list A) (sp' : list dim),
    map_space f amounts sp = Ok sp' ->
    forall i d, nth_error sp i = Some d ->
      exists a, nth_error amounts i = Some a /\ nth_error sp' i = Some (f a d).
Proof.
  induction sp as [| d0 sp IH]; intros amounts sp' H i d Hi.
  - destruct i; discriminate.
  - destruct amounts as [| a0 amounts]; [discriminate |].
    simpl in H; inv_bind H; injection H as <-.
    destruct i as [| i].
    + injection Hi as <-; exists a0; split; reflexivity.
    + apply (IH amounts x E i d Hi).
Qed.

Lemma map_space_pad_zero :
  forall (sp : list dim) (ps : pairs),
    Forall (fun p => p = (0, 0)) ps -> List.length ps = List.length sp ->
    map_space dim_pad ps sp = Ok sp.
Proof.
  induction sp as [| d sp IH]; intros ps HF Hl; [reflexivity |].
  destruct ps as [| p ps]; [discriminate |].
  inversion HF as [| ? ? Hp HF']; subst.
  simpl; rewrite IH by (assumption || (simpl in Hl; lia)); simpl.
  destruct d as [n |]; simpl; [| reflexivity].
  do 2 f_equal; f_equal; lia.
Qed.

Lemma all_zero_dec (ps : pairs) :
  {Forall (fun p => p = (0, 0)) ps} + {~ Forall (fun p => p = (0, 0)) ps}.
Proof.
  destruct (Nat.leb (List.length ps) (deFlag ps)) eqn:E.
  - left; apply deFlag_all_zero; assumption.
  - right; intros H; apply deFlag_all_zero in H; congruence.
Qed.

Lemma normalize_pad_nd_pairs (name : string) (n : nat) (ps ps' : pairs) :
  normalize_pad_nd name n (PadPairs ps) = Ok ps' -> ps' = ps.
Proof.
  unfold normalize_pad_nd; destruct (Nat.eqb _ _); [| discriminate].
  intros H; injection H as <-; reflexivity.
Qed.

Lemma build_uppool_Ok (self : block) (op : option pad_arg) (s : shape)
    (up : layer) (pad : option layer) (next_shape : shape) :
  build_uppool self op s = Ok (up, pad, next_shape) ->
  exists s1,
    new_uppool self = Ok up /\ layer_compute_output_shape up s = Ok s1 /\
    match op with
    | Some p =>
        exists l, new_padding self p = Ok l /\ pad = Some l /\
                  layer_compute_output_shape l s1 = Ok next_shape
    | None => pad = None /\ next_shape = s1
    end /\
    shape_opt pad s1 = Ok next_shape.
Proof.
  unfold build_uppool; intros H; inv_bind H; inv_bind H.
  apply build_layer_Ok in E0; exists x0.
  destruct op as [p |].
  - inv_bind H; inv_bind H; injection H as <- <- <-.
    apply build_layer_Ok in E2.
    repeat split; try assumption.
    exists x1; repeat split; assumption.
  - injection H as <- <- <-; repeat split; assumption.
Qed.

Lemma build_cropping_Ok (self : block) (oc : option pad_arg) (merged : shape)
    (crop : option layer) :
  build_cropping self oc merged = Ok crop ->
  exists out,
    shape_opt crop merged = Ok out /\
    match oc with
    | Some c => exists l, new_cropping self c = Ok l /\ crop = Some l
    | None => crop = None
    end.
Proof.
  unfold build_cropping; intros H.
  destruct oc as [c |].
  - inv_bind H; inv_bind H; injection H as <-.
    apply build_layer_Ok in E0; exists x0; split; [exact E0 |].
    exists x; split; [assumption | reflexivity].
  - injection H as <-; exists merged; split; reflexivity.
Qed.

(** After [build], [compute_output_shape] on the build-time input shape
    retraces the shapes that [build] computed. *)
Lemma compute_output_shape_built (self : block) (s : shape) (b : block) :
  build self s = Ok b ->
  exists channel_axis channelIn lg lf filters next_shape br op oc up pad crop,
    build_channels self s = Ok (channel_axis, channelIn) /\
    build_latent self channelIn = Ok (lg, lf, filters) /\
    build_branches self channelIn channel_axis filters lg next_shape = Ok br /\
    (if is_transpose (cls self) then
       exists uppool merged,
         infer_output_padding self s = Ok (op, oc) /\
         build_uppool self op s = Ok (uppool, pad, next_shape) /\
         up = Some uppool /\
         merge_compute_output_shape (left_shape br) (right_shape br)
           = Ok merged /\
         build_cropping self oc merged = Ok crop
     else next_shape = s) /\
    compute_output_shape b s =
    ('merged <- merge_compute_output_shape (left_shape br) (right_shape br) ;;
     if is_transpose (cls self) then shape_opt crop merged else Ok merged).
Proof.
  intros H; apply build_Ok in H.
  destruct H as (channel_axis & channelIn & lg & lf & filters & next_shape
                 & br & op & oc & up & pad & crop
                 & Hc & Hl & Hb & Hm & Ht & ->).
  exists channel_axis, channelIn, lg, lf, filters, next_shape, br, op, oc,
    up, pad, crop.
  split; [assumption | split; [assumption | split; [assumption |]]].
  pose proof (build_branches_Ok _ _ _ _ _ _ _ Hb)
    as (act & cfg & _ & _ & _ & _ & _ & Hmid & _ & Hls
        & s0 & s1 & s2 & Hs0 & Hs1 & Hs2 & Hs3).
  assert (Hlen : Nat.ltb (List.length s) (rank self + 2) = false).
  { unfold build_channels in Hc.
    destruct (Nat.ltb _ _); [discriminate | reflexivity]. }
  assert (Hchain : shape_middle (br_middle br) (seq 0 (Z.to_nat (depth self))) s1
                   = Ok s2).
  { rewrite Hmid, shape_middle_map, <- Hmid; exact Hs2. }
  split.
  - destruct (is_transpose (cls self)); [exact Ht | apply Ht].
  - unfold compute_output_shape.
    cbn [layers built getattr bind cls rank depth layer_uppool layer_padding
           layer_branch_left layer_dropout layer_first layer_middle
           layer_last layer_merge layer_cropping].
    destruct (is_transpose (cls self)).
    + destruct Ht as (uppool & merged & _ & Hu & -> & Hmg & _).
      apply build_uppool_Ok in Hu.
      destruct Hu as (s' & _ & Hup & _ & Hpad).
      rewrite Hlen; cbn [getattr bind]; rewrite Hup; cbn [bind].
      rewrite Hpad; cbn [bind].
      rewrite Hls; cbn [bind]; rewrite Hs0; cbn [bind]; rewrite Hs1; cbn [bind].
      rewrite Hchain; cbn [bind]; rewrite Hs3; cbn [bind merge_shape].
      reflexivity.
    + destruct Ht as (-> & _).
      cbn [bind].
      rewrite Hls; cbn [bind]; rewrite Hs0; cbn [bind]; rewrite Hs1; cbn [bind].
      rewrite Hchain; cbn [bind]; rewrite Hs3; cbn [bind merge_shape].
      destruct (merge_compute_output_shape _ _); reflexivity.
Qed.

Lemma Forall2_nth_error {A B : Type} (R : A -> B -> Prop) :
  forall (l : list A) (l' : list B),
    Forall2 R l l' ->
    forall i x y, nth_error l i = Some x -> nth_error l' i = Some y -> R x y.
Proof.
  induction 1 as [| x0 y0 l l' H0 _ IH]; intros i x y Hx Hy.
  - destruct i; discriminate.
  - destruct i as [| i].
    + injection Hx as <-; injection Hy as <-; assumption.
    + eapply IH; eassumption.
Qed.

(** The arithmetic of one axis: up-sampling by [st], padding by [p] and
    cropping by [c] turns [n] into the desired [o] when the inference used
    the factor [st]. *)
Lemma axis_arithmetic (o n st : Z) (p c : Z * Z) :
  let diff := o - n * st in
  (0 < diff -> p = (diff / 2, diff / 2 + diff mod 2) /\ c = (0, 0)) ->
  (diff < 0 ->
   c = (Z.abs diff / 2, Z.abs diff / 2 + Z.abs diff mod 2) /\ p = (0, 0)) ->
  (diff = 0 -> p = (0, 0) /\ c = (0, 0)) ->
  st * n + fst p + snd p - fst c - snd c = o.
Proof.
  intros diff Hpos Hneg Hzero.
  destruct (Z.lt_trichotomy diff 0) as [H | [H | H]].
  - destruct (Hneg H) as [-> ->]; cbn [fst snd].
    pose proof (Z.div_mod (Z.abs diff) 2 ltac:(lia)).
    rewrite Z.abs_neq in * by lia; subst diff; lia.
  - destruct (Hzero H) as [-> ->]; cbn [fst snd]; subst diff; lia.
  - destruct (Hpos ltac:(lia)) as [-> ->]; cbn [fst snd].
    pose proof (Z.div_mod diff 2 ltac:(lia)); subst diff; lia.
Qed.

Lemma split_amount_nonneg (d : Z) :
  0 < d -> 0 <= fst (split_amount d) /\ 0 <= snd (split_amount d).
Proof.
  intros H; unfold split_amount; cbn [fst snd].
  pose proof (Z.div_pos d 2 ltac:(lia) ltac:(lia)).
  pose proof (Z.mod_pos_bound d 2 ltac:(lia)); lia.
Qed.

(** X1: for [channels_last] transposed blocks with positive strides in which
    no dilation exceeds the stride of its axis, built on an input whose
    known spatial sizes are positive, the block reproduces the desired
    shape: on the build-time input shape [compute_output_shape] returns a
    shape whose spatial entries are those of [output_mshape]. *)
Theorem transpose_output_shape :
  forall (k : klass) (a : init_args) (self : block) (s : shape) (b : block)
         (m : shape) (sp_out sp_in : list dim),
    is_transpose k = true -> init k a = Ok self -> build self s = Ok b ->
    output_mshape self = Some m ->
    data_format_ self = channels_last ->
    spatial channels_last (rank self) m = Ok sp_out ->
    spatial channels_last (rank self) s = Ok sp_in ->
    Forall (fun d => forall n, d = Some n -> 0 < n) sp_in ->
    Forall (fun st => 0 < st) (strides self) ->
    Forall2 (fun st d => d <= st) (strides self) (dilation_rate self) ->
    exists out,
      compute_output_shape b s = Ok out /\
      spatial channels_last (rank self) out = Ok sp_out.
Proof.
  intros k a self s b m sp_out sp_in Hk Hi Hb Hm Hdf Hout Hin Hpos Hstpos Hdil.
  assert (Hcls : cls self = k).
  { apply init_Ok_inv in Hi.
    destruct Hi as (ks & st & dl & _ & _ & _ & _ & _ & ->); reflexivity. }
  apply compute_output_shape_built in Hb.
  destruct Hb as (channel_axis & cin & lg & lf & filters & next_shape & br
                  & op & oc & up & pad & crop & Hc & _ & Hbr & Ht & Hcomp).
  rewrite Hcls, Hk in Ht, Hcomp.
  destruct Ht as (uppool & merged & Hinf & Hu & _ & Hmg & Hcrop).
  rewrite Hmg in Hcomp; cbn [bind] in Hcomp.
  (* the up-sampled shape *)
  apply build_uppool_Ok in Hu.
  destruct Hu as (s1 & Hnew & Hup & Hpad & _).
  destruct (uppool_shape self uppool s s1 (fun _ => Hdf) Hnew Hup)
    as (bd & sp & c & sp1 & Hs & Hlsp & Hmul & Hs1 & Hlsp1).
  rewrite Hdf in Hs, Hs1.
  (* the inferred amounts *)
  pose proof (infer_output_padding_Ok self s m op oc Hm Hinf) as Hamounts.
  rewrite (slice_spatial _ _ _ Hout) in Hamounts.
  assert (Hslice : slice_1_m1 s = sp).
  { rewrite Hs; unfold slice_1_m1; cbn [join_shape tl]; apply removelast_last. }
  rewrite Hslice in Hamounts.
  assert (Hsp : sp_in = sp).
  { rewrite <- Hslice; symmetry; exact (slice_spatial _ _ _ Hin). }
  rewrite Hsp in Hpos; clear Hsp Hin.
  destruct Hamounts as (ps & cs & Hlps & Hlcs & Haxes & Hp0 & Hp1 & Hc0 & Hc1).
  (* the padded shape *)
  assert (Hnext : exists sp2,
             map_space dim_pad ps sp1 = Ok sp2 /\
             next_shape = join_shape channels_last bd sp2 c).
  { destruct (all_zero_dec ps) as [Hz | Hz].
    - rewrite (Hp0 Hz) in Hpad; destruct Hpad as [_ ->].
      exists sp1; split; [apply map_space_pad_zero; congruence | exact Hs1].
    - rewrite (Hp1 Hz) in Hpad; destruct Hpad as (l & Hl & _ & Hshape).
      destruct (padding_shape self _ l _ _ Hl Hshape)
        as (ps' & b' & sp0 & c' & sp2 & Hnorm & Hj & _ & Hmap & -> & _).
      apply normalize_pad_nd_pairs in Hnorm; subst ps'.
      rewrite Hdf, Hs1 in Hj.
      apply join_shape_inj in Hj; destruct Hj as [<- [<- <-]].
      exists sp2; split; [exact Hmap | rewrite Hdf; reflexivity]. }
  destruct Hnext as (sp2 & Hmap2 & ->).
  assert (Hlsp2 : List.length sp2 = rank self).
  { apply map_space_length in Hmap2; congruence. }
  (* the two branches and their merge *)
  assert (Hcin : c = Some cin).
  { unfold build_channels in Hc.
    destruct (Nat.ltb _ _); [discriminate |].
    rewrite Hs, Hdf in Hc.
    pose proof (getitem_channel channels_last bd sp c) as Hg.
    cbn [data_format_eqb] in Hg, Hc; rewrite Hg in Hc; cbn [bind] in Hc.
    destruct c; [injection Hc as _ <-; reflexivity | discriminate]. }
  subst c.
  rewrite <- Hdf in Hbr.
  destruct (branches_shapes self cin channel_axis filters lg bd sp2 br Hlsp2 Hbr)
    as (sts & sp2' & Hsts & Hst & Hleft & Hright).
  assert (sp2' = sp2) as ->.
  { unfold unit_strides in Hsts; rewrite Hcls, Hk in Hsts.
    unfold normalize_tuple in Hsts; injection Hsts as <-.
    rewrite stride_space_ones in Hst;
      [injection Hst as <-; reflexivity
      | rewrite repeat_length; symmetry; assumption
      | apply check_dl_func_repeat]. }
  rewrite Hdf in Hleft, Hright.
  rewrite Hleft, Hright in Hmg; cbn [join_shape] in Hmg.
  rewrite merge_same in Hmg; injection Hmg as <-.
  (* the cropped shape *)
  apply build_cropping_Ok in Hcrop.
  destruct Hcrop as (out & Hshape & Hcrop).
  assert (Hfinal : exists sp3,
             out = join_shape channels_last bd sp3 (Some (ofilters self)) /\
             List.length sp3 = rank self /\
             forall i v ci,
               nth_error sp2 i = Some (Some v) -> v <> 0 ->
               nth_error cs i = Some ci ->
               nth_error sp3 i = Some (Some (v - fst ci - snd ci))).
  { destruct (all_zero_dec cs) as [Hz | Hz].
    - rewrite (Hc0 Hz) in Hcrop; subst crop.
      injection Hshape as <-.
      exists sp2; split; [reflexivity | split; [assumption |]].
      intros i v ci Hv _ Hci.
      rewrite Forall_forall in Hz.
      rewrite (Hz ci (nth_error_In _ _ Hci)); cbn [fst snd].
      rewrite Hv; do 2 f_equal; lia.
    - rewrite (Hc1 Hz) in Hcrop; destruct Hcrop as (l & Hl & ->).
      cbn [shape_opt] in Hshape.
      destruct (cropping_shape self _ l _ _ Hl Hshape)
        as (cs' & b' & sp0 & c' & sp3 & Hnorm & Hj & _ & Hmap & -> & Hl3).
      apply normalize_pad_nd_pairs in Hnorm; subst cs'.
      apply (join_shape_inj channels_last bd b' sp2 sp0) in Hj.
      destruct Hj as [<- [<- <-]].
      exists sp3; split; [reflexivity | split; [assumption |]].
      intros i v ci Hv Hne Hci.
      destruct (map_space_nth _ _ _ _ Hmap i _ Hv) as (c' & Hc' & H3).
      rewrite Hci in Hc'; injection Hc' as <-.
      rewrite H3; destruct (Nat.eqb (rank self) 2);
        cbn [dim_crop dim_crop_2d option_map]; [| reflexivity].
      apply Z.eqb_neq in Hne; rewrite Hne; reflexivity. }
  destruct Hfinal as (sp3 & -> & Hlsp3 & Hnth3).
  exists (join_shape channels_last bd sp3 (Some (ofilters self))).
  split; [rewrite Hcomp; exact Hshape |].
  unfold spatial; rewrite split_join by assumption; cbn [bind].
  f_equal; apply nth_error_ext; intros i.
  assert (Hlout : List.length sp_out = rank self).
  { unfold spatial in Hout; inv_bind Hout; destruct x as [[b0 sp0] c0].
    injection Hout as <-; apply split_shape_Ok in E; apply E. }
  destruct (Nat.lt_ge_cases i (rank self)) as [Hlt | Hge].
  - destruct (Haxes i Hlt)
      as (o & n & st & d & Ho & Hn & Hsti & Hdi & p & ci & Hpi & Hci & Hcases).
    rewrite Ho.
    destruct (map_space_nth _ _ _ _ Hmul i _ Hn) as (st' & Hst' & H1).
    rewrite Hsti in Hst'; injection Hst' as <-.
    destruct (map_space_nth _ _ _ _ Hmap2 i _ H1) as (p' & Hp' & H2).
    rewrite Hpi in Hp'; injection Hp' as <-.
    cbn [dim_mul dim_pad option_map] in H2.
    pose proof (Forall2_nth_error _ _ _ Hdil i st d Hsti Hdi) as Hle.
    cbv zeta in Hcases; rewrite Z.max_l in Hcases by exact Hle.
    destruct Hcases as (Hdpos & Hdneg & Hdzero).
    assert (Hn0 : 0 < n).
    { rewrite Forall_forall in Hpos.
      apply (Hpos (Some n) (nth_error_In _ _ Hn)); reflexivity. }
    assert (Hst0 : 0 < st).
    { rewrite Forall_forall in Hstpos.
      apply (Hstpos st (nth_error_In _ _ Hsti)). }
    assert (Hp00 : 0 <= fst p /\ 0 <= snd p).
    { destruct (Z_lt_le_dec 0 (o - n * st)) as [Hd | Hd].
      - destruct (Hdpos Hd) as [-> _]; apply (split_amount_nonneg _ Hd).
      - destruct (Z.eq_dec (o - n * st) 0) as [Hd0 | Hd0].
        + destruct (Hdzero Hd0) as [-> _]; cbn [fst snd]; lia.
        + destruct (Hdneg ltac:(lia)) as [_ ->]; cbn [fst snd]; lia. }
    rewrite (Hnth3 i _ ci H2) by (assumption || nia).
    do 2 f_equal; apply axis_arithmetic; assumption.
  - unfold dim in *.
    transitivity (@None (option Z)).
    + apply nth_error_None; lia.
    + symmetry; apply nth_error_None; lia.
Qed.

(** On the sample transposed block: the desired 19x14 output is
    reproduced from the 9x8 input. *)
Lemma transpose_output_shape_witness :
  exists out,
    compute_output_shape transpose_sample_block residual_sample_shape = Ok out /\
    spatial channels_last 2 out = Ok [Some 19; Some 14].
Proof.
  refine (transpose_output_shape ResidualTranspose transpose_sample_args
            transpose_sample_self residual_sample_shape transpose_sample_block
            [None; Some 19; Some 14; Some 16] [Some 19; Some 14]
            [Some 9; Some 8]
            eq_refl transpose_sample_init transpose_sample_build
            eq_refl eq_refl eq_refl eq_refl _ _ _).
  - repeat constructor; intros n Hn; injection Hn as <-; reflexivity.
  - repeat constructor.
  - repeat constructor; discriminate.
Defined.

(** ** The latent counts of a ResNeXt block *)

Lemma infer_lfilters_ge_1 (depth : Z) (ks : list Z) (cin cout g f : Z) :
  infer_lfilters depth ks cin cout g = Ok f -> 1 <= f.
Proof.
  unfold infer_lfilters; intros H; inv_bind H.
  destruct (get_prod ks); [| discriminate].
  inv_bind H; inv_bind H; inv_bind H; inv_bind H; injection H as <-; lia.
Qed.

Lemma infer_lgroups_ge_1 (depth : Z) (ks : list Z) (cin cout f g : Z) :
  infer_lgroups depth ks cin cout f = Ok g -> 1 <= g.
Proof.
  unfold infer_lgroups; intros H; inv_bind H; inv_bind H; inv_bind H.
  destruct (get_prod ks); [| discriminate].
  inv_bind H; inv_bind H; inv_bind H; inv_bind H; inv_bind H; inv_bind H.
  injection H as <-; lia.
Qed.

(** X3: the inference of the latent counts in the ResNeXt [build]: a count
    that was given is kept; when both are unset, [lgroups] is 32; and a
    count that is inferred is at least 1. *)
Theorem infer_latent_counts :
  forall (depth : Z) (ks : list Z) (cin cout : Z) (lg lf : option Z) (g f : Z),
    infer_latent depth ks cin cout lg lf = Ok (g, f) ->
    (forall g', lg = Some g' -> g = g') /\
    (forall f', lf = Some f' -> f = f') /\
    (lg = None -> lf = None -> g = 32) /\
    (lf = None -> 1 <= f) /\
    (lg = None -> lf <> None -> 1 <= g).
Proof.
  intros depth ks cin cout lg lf g f H; unfold infer_latent in H.
  destruct lg as [g0 |], lf as [f0 |];
    [| inv_bind H | inv_bind H | inv_bind H]; injection H as <- <-;
    repeat split; intros; try discriminate; try congruence;
    try (eapply infer_lfilters_ge_1; eassumption);
    try (eapply infer_lgroups_ge_1; eassumption).
Qed.

Lemma resnext_sample_latent :
  infer_latent 1 [3; 3] 64 64 None None = Ok (32, 3).
Proof. vm_compute; reflexivity. Qed.

(** On the sample ResNeXt block (64 channels in and out, one 3x3 middle
    unit): 32 groups of 3 filters. *)
Lemma infer_latent_counts_witness :
  exists g f,
    infer_latent 1 [3; 3] 64 64 None None = Ok (g, f) /\ g = 32 /\ 1 <= f.
Proof.
  exists 32, 3.
  destruct (infer_latent_counts 1 [3; 3] 64 64 None None 32 3
              resnext_sample_latent) as (_ & _ & Hg & Hf & _).
  split; [exact resnext_sample_latent |].
  split; [exact (Hg eq_refl eq_refl) | exact (Hf eq_refl)].
Defined.

(** ** The round trip through the configuration *)

(** On the sample plain block, constructed with [depth = 4] and
    [activation = 'prelu']. *)
Lemma get_config_round_trip_witness :
  exists c,
    get_config residual_sample_self = Ok c /\ c_depth c = 4 /\
    from_config Residual 2 c = Ok residual_sample_self.
Proof.
  refine (get_config_round_trip Residual residual_sample_args
            residual_sample_self residual_sample_init _).
  left; discriminate.
Defined.

(** ** Building a block constructed without an activation *)

Lemma build_needs_activation (self : block) (s : shape) (b : block) :
  build self s = Ok b -> activation self <> None.
Proof.
  intros Hb; apply build_layers in Hb.
  destruct Hb as (channel_axis & cin & lg & lf & filters & act & cfg & op & oc
                  & up & pad & crop & _ & _ & Hact & _).
  congruence.
Qed.

Lemma init_without_activation (k : klass) (a : init_args) (self : block) :
  a_activation a = None -> a_high_activation a = None ->
  init k a = Ok self -> activation self = None.
Proof.
  intros Ha Hh H; apply init_Ok_inv in H.
  destruct H as (ks & st & dl & _ & _ & _ & _ & _ & ->).
  unfold init_block, init_activation; simpl; rewrite Ha, Hh; reflexivity.
Qed.

(** X5: a block of any class constructed without activation (the
    default [activation = None], no [_high_activation]) cannot be built:
    [build] raises on every input shape, and on every shape on which the
    same block constructed with an activation is built, [build] gets as
    far as its first unit, reads [self.activation], which the constructor
    never assigned, and raises [AttributeError]. *)
Theorem build_default_activation :
  forall (k : klass) (a : init_args) (self : block),
    a_activation a = None -> a_high_activation a = None ->
    init k a = Ok self ->
    (forall s, raises (build self s)) /\
    (forall (act : string) (self' : block) (s : shape) (b' : block),
       init k (with_activation a (Some act)) = Ok self' ->
       build self' s = Ok b' ->
       build self s = Raise (AttributeError "activation")).
Proof.
  intros k a self Ha Hh Hi.
  pose proof (init_without_activation k a self Ha Hh Hi) as Hact.
  split.
  { intros s; destruct (build self s) as [b | e] eqn:Hb.
    - apply build_needs_activation in Hb; contradiction.
    - exists e; reflexivity. }
  intros act self' s b' Hi' Hb'.
  apply init_Ok_inv in Hi, Hi'.
  destruct Hi as (ks & st & dl & _ & Hks & Hst & Hdl & _ & Hself).
  destruct Hi' as (ks' & st' & dl' & _ & Hks' & Hst' & Hdl' & _ & Hself').
  cbn [a_kernel_size a_strides a_dilation_rate a_rank with_activation]
    in Hks', Hst', Hdl'.
  rewrite Hks in Hks'; rewrite Hst in Hst'; rewrite Hdl in Hdl'.
  injection Hks' as <-; injection Hst' as <-; injection Hdl' as <-.
  subst self self'.
  set (self := init_block k a ks st dl) in *.
  set (self' := init_block k (with_activation a (Some act)) ks st dl) in *.
  unfold build in Hb' |- *.
  change (build_channels self' s) with (build_channels self s) in Hb'.
  inv_bind Hb'; destruct x as [channel_axis cin]; rewrite E; cbn [bind].
  change (build_latent self' cin) with (build_latent self cin) in Hb'.
  inv_bind Hb'; destruct x as [[lg lf] filters]; rewrite E0; cbn [bind].
  change (cls self') with (cls self) in Hb'.
  assert (Hbr : forall next_shape br,
             build_branches self' cin channel_axis filters lg next_shape
             = Ok br ->
             build_branches self cin channel_axis filters lg next_shape
             = Raise (AttributeError "activation")).
  { intros next_shape br Hbr; unfold build_branches in Hbr |- *.
    cbv zeta in Hbr |- *.
    change (unit_strides self') with (unit_strides self) in Hbr.
    change (identity_left self' cin) with (identity_left self cin) in Hbr.
    change (branch_left_args self') with (branch_left_args self) in Hbr.
    inv_bind Hbr; destruct x as [[last_use_bias branch_left] lshape].
    rewrite E1; cbn [bind].
    change (return_dropout (dropout self') (dropout_rate self') channel_axis
              (rank self'))
      with (return_dropout (dropout self) (dropout_rate self) channel_axis
              (rank self)) in Hbr.
    inv_bind Hbr; rewrite E2; cbn [bind].
    rewrite Hact; reflexivity. }
  destruct (is_transpose (cls self)).
  - change (infer_output_padding self' s) with (infer_output_padding self s)
      in Hb'.
    inv_bind Hb'; destruct x as [op oc]; rewrite E1; cbn [bind].
    change (build_uppool self' op s) with (build_uppool self op s) in Hb'.
    inv_bind Hb'; destruct x as [[uppool pad] next_shape];
      rewrite E2; cbn [bind].
    inv_bind Hb'; rewrite (Hbr _ _ E3); reflexivity.
  - inv_bind Hb'; rewrite (Hbr _ _ E1); reflexivity.
Qed.

Lemma inactive_sample_init :
  init Residual inactive_sample_args = Ok inactive_sample_self.
Proof. vm_compute; reflexivity. Qed.

Lemma active_sample_init :
  init Residual (with_activation inactive_sample_args (Some "prelu"%string))
  = Ok residual_sample_self.
Proof. vm_compute; reflexivity. Qed.

(** X5, on an instance: the sample plain block without activation. *)
Lemma build_default_activation_witness :
  build inactive_sample_self residual_sample_shape
  = Raise (AttributeError "activation").
Proof.
  exact (proj2 (build_default_activation Residual inactive_sample_args
                  inactive_sample_self eq_refl eq_refl inactive_sample_init)
           "prelu"%string residual_sample_self residual_sample_shape
           residual_sample_block active_sample_init residual_sample_build).
Defined.

(** * Further properties of the constructors *)

Lemma init_cls (k : klass) (a : init_args) (self : block) :
  init k a = Ok self -> cls self = k.
Proof.
  intros Hi; apply init_Ok_inv in Hi.
  destruct Hi as (ks & st & dl & _ & _ & _ & _ & _ & ->); reflexivity.
Qed.

Lemma init_lengths (k : klass) (a : init_args) (self : block) :
  init k a = Ok self ->
  List.length (kernel_size self) = rank self /\
  List.length (strides self) = rank self /\
  List.length (dilation_rate self) = rank self.
Proof.
  intros Hi; apply init_Ok_inv in Hi.
  destruct Hi as (ks & st & dl & _ & Hks & Hst & Hdl & _ & ->).
  apply normalize_tuple_length in Hks, Hst, Hdl.
  cbn [rank kernel_size strides dilation_rate init_block]; auto.
Qed.

(** X6: what holds of every instance that a constructor returns: it has
    the class and the rank asked for, [self.depth] is [depth - 2] and at
    least 1, [kernel_size], [strides] and [dilation_rate] are tuples of
    [rank] entries, one of [dilation_rate] and [strides] is all ones, a 1D
    transposed block is [channels_last], and [channelIn] is still
    [None]. *)
Theorem init_invariants :
  forall (k : klass) (a : init_args) (self : block),
    init k a = Ok self ->
    cls self = k /\ rank self = a_rank a /\
    depth self = a_depth a - 2 /\ 1 <= depth self /\
    List.length (kernel_size self) = rank self /\
    List.length (strides self) = rank self /\
    List.length (dilation_rate self) = rank self /\
    (Forall (fun x => x = 1) (dilation_rate self) \/
     Forall (fun x => x = 1) (strides self)) /\
    (is_transpose k = true -> rank self = 1%nat ->
     data_format_ self = channels_last) /\
    channelIn self = None.
Proof.
  intros k a self H.
  pose proof (init_rank_1_format k a self H) as Hfmt.
  apply init_Ok_inv in H.
  destruct H as (ks & st & dl & [Hd _] & Hks & Hst & Hdl & Hone & ->).
  cbn [cls rank depth kernel_size strides dilation_rate channelIn init_block]
    in *.
  apply normalize_tuple_length in Hks, Hst, Hdl.
  repeat split; try assumption; try lia.
  destruct Hone as [Hone | Hone]; apply check_dl_func_true in Hone;
    [left | right]; assumption.
Qed.

(** On the sample plain block. *)
Lemma init_invariants_witness :
  rank residual_sample_self = 2%nat /\ depth residual_sample_self = 2 /\
  List.length (strides residual_sample_self) = 2%nat.
Proof.
  destruct (init_invariants Residual residual_sample_args residual_sample_self
              residual_sample_init)
    as (_ & Hr & Hd & _ & _ & Hs & _).
  split; [exact Hr | split; [exact Hd | exact Hs]].
Defined.

(** X7: a 1D transposed class given [data_format = 'channels_first'] is
    never constructed: the constructor raises a [ValueError] whatever the
    other arguments are, and it is the one of the 1D guard as soon as
    [depth], [kernel_size] and [strides] are accepted. *)
Theorem init_transpose_1d_channels_first :
  forall (k : klass) (a : init_args),
    is_transpose k = true -> a_rank a = 1%nat ->
    a_data_format a = Some channels_first ->
    raises_ValueError (init k a) /\
    (3 <= a_depth a ->
     (exists ks, normalize_tuple (a_kernel_size a) 1 "kernel_size" = Ok ks) ->
     (exists st, normalize_tuple (a_strides a) 1 "strides" = Ok st) ->
     init k a = Raise (ValueError channels_first_1d_message)).
Proof.
  intros k a Hk Hr Hdf.
  assert (Hguard : (is_transpose k && Nat.eqb (a_rank a) 1
                    && data_format_eqb (normalize_data_format (a_data_format a))
                         channels_first)%bool = true).
  { rewrite Hk, Hr, Hdf; reflexivity. }
  pose proof (init_cases k a) as Hc.
  split.
  - inversion Hc as [Hd Hi | e Hd He Hi | ks e Hd Hks He Hi
                     | ks st Hd Hks Hst Hg Hi | ks st e Hreach Hks Hst He Hi
                     | ks st dl Hreach Hks Hst Hdl H1 H2 Hi
                     | ks st dl Hreach Hks Hst Hdl Hone Hi].
    + eexists; reflexivity.
    + apply normalize_tuple_Raise in He; subst e; eexists; reflexivity.
    + apply normalize_tuple_Raise in He; subst e; eexists; reflexivity.
    + eexists; reflexivity.
    + destruct Hreach as (_ & _ & Hf); congruence.
    + destruct Hreach as (_ & _ & Hf); congruence.
    + destruct Hreach as (_ & _ & Hf); congruence.
  - intros Hd [ks Hks] [st Hst]; rewrite <- Hr in Hks, Hst.
    inversion Hc as [Hd' Hi | e Hd' He Hi | ks' e Hd' Hks' He Hi
                     | ks' st' Hd' Hks' Hst' Hg Hi
                     | ks' st' e Hreach Hks' Hst' He Hi
                     | ks' st' dl Hreach Hks' Hst' Hdl H1 H2 Hi
                     | ks' st' dl Hreach Hks' Hst' Hdl Hone Hi];
      try reflexivity; try lia; try congruence;
      try (destruct Hreach as (_ & _ & Hf); congruence).
Qed.

(** On [Residual1DTranspose(16, 3, strides=2, data_format='channels_first',
    ...)]. *)
Lemma init_transpose_1d_channels_first_witness :
  init ResidualTranspose
    (with_output_mshape transpose_1d_args channels_first
       [None; Some 16; Some 16])
  = Raise (ValueError channels_first_1d_message).
Proof.
  apply (init_transpose_1d_channels_first ResidualTranspose
           (with_output_mshape transpose_1d_args channels_first
              [None; Some 16; Some 16]) eq_refl eq_refl eq_refl).
  - discriminate.
  - exists [3]; reflexivity.
  - exists [2]; reflexivity.
Defined.

(** ** The activation arguments *)

(** X8: [activity_config] is read only with ['prelu'] or ['lrelu']: with
    any other activation the constructor returns the same instance (or
    raises the same error) whatever [activity_config] is. *)
Theorem activity_config_ignored :
  forall (k : klass) (a : init_args) (s : string) (cfg : option config_dict),
    given_activation a = Some s -> is_prelu_lrelu (casefold s) = false ->
    init k (with_activity_config a cfg) = init k a.
Proof.
  intros k a s cfg Hs Hp.
  assert (Hia : init_activation (with_activity_config a cfg) = init_activation a).
  { unfold init_activation; cbn [a_high_activation a_activation
                                  a_activity_config with_activity_config].
    unfold given_activation in Hs; rewrite Hs, Hp; reflexivity. }
  unfold init; rewrite Hia; reflexivity.
Qed.

(** With [activation = 'relu'] and a configuration for the slope. *)
Lemma activity_config_ignored_witness :
  init Residual
    (with_activity_config
       (with_activation residual_sample_args (Some "relu"%string))
       (Some [("alpha"%string, 0x1p-2%float)]))
  = init Residual (with_activation residual_sample_args (Some "relu"%string)).
Proof.
  apply (activity_config_ignored Residual
           (with_activation residual_sample_args (Some "relu"%string))
           "relu"); reflexivity.
Defined.

(** X9: the names ['prelu'] and ['lrelu'] are recognised in any letter
    case: the constructor returns the same instance for the name and for
    its case-folded form. *)
Theorem prelu_any_case :
  forall (k : klass) (a : init_args) (s : string),
    a_high_activation a = None ->
    is_prelu_lrelu (casefold s) = true ->
    init k (with_activation a (Some s))
    = init k (with_activation a (Some (casefold s))).
Proof.
  intros k a s Hh Hp.
  assert (Hia : init_activation (with_activation a (Some s))
                = init_activation (with_activation a (Some (casefold s)))).
  { unfold init_activation; cbn [a_high_activation a_activation
                                  a_activity_config with_activation].
    rewrite Hh, (is_prelu_lrelu_casefold s Hp), Hp; reflexivity. }
  unfold init; rewrite Hia; reflexivity.
Qed.

(** With [activation = 'PReLU']. *)
Lemma prelu_any_case_witness :
  init Residual (with_activation residual_sample_args (Some "PReLU"%string))
  = init Residual (with_activation residual_sample_args (Some "prelu"%string)).
Proof.
  apply (prelu_any_case Residual residual_sample_args "PReLU"); reflexivity.
Defined.

Lemma from_config_get_config (k : klass) (a : init_args) (self : block)
    (c : config) :
  init k a = Ok self -> get_config self = Ok c ->
  from_config k (rank self) c = Ok self.
Proof.
  intros H Hc; apply init_Ok_inv in H.
  destruct H as [ks [st [dl [Hr [Hk [Hs [Hl [Hone ->]]]]]]]].
  unfold get_config in Hc; cbn [activation activity_config init_block] in Hc.
  destruct (fst (fst (init_activation a))) as [act |] eqn:Ea;
    [| discriminate Hc].
  destruct (snd (init_activation a)) as [cfg |] eqn:Ec; [| discriminate Hc].
  cbn [bind getattr] in Hc; injection Hc as <-.
  apply normalize_tuple_length in Hk, Hs, Hl.
  destruct Hr as [Hd [_ Hcf]].
  unfold from_config; simpl.
  match goal with |- init k ?x = _ => set (a' := x) end.
  assert (Hia : init_activation a' = init_activation a).
  { apply (init_activation_round_trip a a' act Ea);
      [reflexivity | reflexivity | symmetry; exact Ec]. }
  rewrite (init_Ok_intro k a' ks st dl).
  - f_equal; unfold init_block; rewrite Hia; subst a'; simpl.
    replace (a_depth a - 2 + 2 - 2) with (a_depth a - 2) by lia.
    destruct k; simpl; rewrite ?keep_if_idem; reflexivity.
  - split; [simpl; lia | split].
    + simpl; eexists; apply normalize_tuple_SeqArg; assumption.
    + simpl; exact Hcf.
  - apply normalize_tuple_SeqArg; assumption.
  - apply normalize_tuple_SeqArg; assumption.
  - apply normalize_tuple_SeqArg; assumption.
  - exact Hone.
Qed.

Lemma get_config_with_activation (k : klass) (a : init_args) (self : block) :
  init k a = Ok self ->
  a_activation a <> None \/ a_high_activation a <> None ->
  exists c, get_config self = Ok c.
Proof.
  intros H Hact; apply init_Ok_inv in H.
  destruct H as (ks & st & dl & _ & _ & _ & _ & _ & ->).
  destruct (init_activation_given a Hact) as [act Ea].
  destruct (init_activation_config a act Ea) as [cfg Ec].
  unfold get_config; cbn [activation activity_config init_block].
  rewrite Ea, Ec; eexists; reflexivity.
Qed.

(** X10: the activity regularizer through [get_config].  A block
    constructed with an activation and a regularizer object [r] stores
    [r] in [self.sub_activity_regularizer], and can be serialised and
    rebuilt from its configuration with the same other attributes.  For
    a plain class the ['activity_regularizer'] entry is the serialised
    [r] and the rebuilt instance is the same; for a transposed class the
    entry is [None] and the rebuilt instance has lost its
    [sub_activity_regularizer]. *)
Theorem activity_regularizer_round_trip :
  forall (k : klass) (a : init_args) (r : regularizer) (x : regularized),
    init_regularized k a (Some (reg_object r)) = Ok x ->
    a_activation a <> None \/ a_high_activation a <> None ->
    sub_activity_regularizer x = Some r /\
    exists c x',
      get_config_regularized x = Ok c /\
      from_config_regularized k (rank (base x)) c = Ok x' /\
      base x' = base x /\
      if is_transpose k
      then c_activity_regularizer c = None /\
           sub_activity_regularizer x' = None
      else c_activity_regularizer c = Some (reg_config "L1L2" (l1 r) (l2 r)) /\
           x' = x.
Proof.
  intros k a r x Hi Hact.
  unfold init_regularized in Hi; inv_bind Hi; rename x0 into self.
  unfold init_regularizers in Hi; cbn [regularizers_get bind] in Hi.
  injection Hi as <-.
  destruct (get_config_with_activation k a self E Hact) as [c0 Hc].
  pose proof (init_cls k a self E) as Hcls.
  pose proof (from_config_get_config k a self c0 E Hc) as Hf.
  split; [reflexivity |].
  unfold get_config_regularized, from_config_regularized;
    cbn [base activity_regularizer sub_activity_regularizer].
  rewrite Hc, Hcls; cbn [bind]; unfold init_regularizers.
  destruct (is_transpose k); cbn [regularizers_serialize].
  - eexists; eexists; split; [reflexivity |].
    cbn [c_base c_activity_regularizer]; rewrite Hf.
    cbn [regularizers_get bind].
    split; [reflexivity |]; repeat split.
  - eexists; eexists; split; [reflexivity |].
    cbn [c_base c_activity_regularizer]; rewrite Hf.
    cbn [regularizers_get bind String.eqb l1 l2].
    split; [reflexivity |]; destruct r; repeat split.
Qed.

Lemma regularized_sample_init :
  init_regularized ResidualTranspose transpose_sample_args
    (Some (reg_object sample_regularizer))
  = Ok regularized_sample.
Proof. vm_compute; reflexivity. Qed.

(** X10, on an instance: the sample transposed block, constructed with
    a regularizer, comes back from its configuration without it. *)
Lemma activity_regularizer_round_trip_witness :
  exists c x',
    get_config_regularized regularized_sample = Ok c /\
    from_config_regularized ResidualTranspose 2 c = Ok x' /\
    base x' = transpose_sample_self /\
    c_activity_regularizer c = None /\ sub_activity_regularizer x' = None.
Proof.
  destruct (activity_regularizer_round_trip ResidualTranspose
              transpose_sample_args sample_regularizer regularized_sample
              regularized_sample_init)
    as (_ & c & x' & Hc & Hf & Hb & Hn & Hs).
  { left; discriminate. }
  exists c, x'; repeat split; assumption.
Defined.

(** ** Blocks constructed without an activation *)

(** X11: each of the twelve public classes, called with its two required
    arguments only ([ofilters] and an integer [kernel_size]), returns a
    [channels_last] block of its rank with one middle unit; but, the
    default [activation] being [None], that block can neither be
    serialised ([get_config] raises [AttributeError]) nor built ([build]
    raises on every input shape). *)
Theorem public_default_activation :
  forall (p : public_class) (ofilters ksize : Z),
  exists self,
    public_init p (default_args p ofilters (IntArg ksize)) = Ok self /\
    rank self = rank_of (pc_ndim p) /\ depth self = 1 /\
    data_format_ self = channels_last /\
    get_config self = Raise (AttributeError "activation") /\
    forall s, raises (build self s).
Proof.
  intros [k n] ofilters ksize.
  assert (H : exists self,
             public_init {| pc_base := k; pc_ndim := n |}
               (default_args {| pc_base := k; pc_ndim := n |} ofilters
                  (IntArg ksize)) = Ok self /\
             rank self = rank_of n /\ depth self = 1 /\
             data_format_ self = channels_last /\ activation self = None).
  { destruct k, n; eexists; (split; [reflexivity |]); repeat split. }
  destruct H as (self & Hi & Hr & Hd & Hdf & Hact).
  exists self; repeat split; try assumption.
  - unfold get_config; rewrite Hact; reflexivity.
  - intros s; destruct (build self s) as [b | e] eqn:Hb.
    + apply build_needs_activation in Hb; contradiction.
    + exists e; reflexivity.
Qed.

(** * Further properties of [build] *)

(** ** The inferred amounts *)

Lemma split_amount_balanced (d : Z) :
  0 <= d ->
  0 <= fst (split_amount d) /\ fst (split_amount d) <= snd (split_amount d) /\
  snd (split_amount d) <= fst (split_amount d) + 1 /\
  fst (split_amount d) + snd (split_amount d) = d.
Proof.
  intros H; unfold split_amount; cbn [fst snd].
  pose proof (Z.div_pos d 2 H ltac:(lia)).
  pose proof (Z.mod_pos_bound d 2 ltac:(lia)).
  pose proof (Z.div_mod d 2 ltac:(lia)); lia.
Qed.

(** X12: the amounts inferred for one axis.  At most one of the padding
    and the cropping is not [(0, 0)]; each pair is non-negative and
    balanced, its second entry being the first or the first plus one; and
    padding then cropping the size [n * max(stride, dilation)] by them
    gives the desired size exactly. *)
Theorem infer_axis_balanced :
  forall (lo li : list dim) (st dl : list Z) (i : nat) (p c : Z * Z),
    infer_axis lo li st dl i = Ok (p, c) ->
    exists o n s d,
      nth_error lo i = Some (Some o) /\ nth_error li i = Some (Some n) /\
      nth_error st i = Some s /\ nth_error dl i = Some d /\
      (p = (0, 0) \/ c = (0, 0)) /\
      0 <= fst p <= snd p /\ snd p <= fst p + 1 /\
      0 <= fst c <= snd c /\ snd c <= fst c + 1 /\
      n * Z.max s d + fst p + snd p - fst c - snd c = o.
Proof.
  intros lo li st dl i p c H; unfold infer_axis in H.
  inv_bind H; inv_bind H; inv_bind H; inv_bind H.
  apply getitem_nat in E, E0, E1, E2.
  destruct x as [o |]; [| discriminate]; destruct x0 as [n |]; [| discriminate].
  exists o, n, x1, x2; repeat (split; [assumption |]).
  cbv zeta in H.
  destruct (0 <? o - n * Z.max x1 x2) eqn:Hpos.
  - apply Z.ltb_lt in Hpos; injection H as <- <-.
    destruct (split_amount_balanced (o - n * Z.max x1 x2)) as (? & ? & ? & ?);
      [lia |].
    cbn [fst snd]; split; [right; reflexivity | lia].
  - apply Z.ltb_ge in Hpos.
    destruct (o - n * Z.max x1 x2 <? 0) eqn:Hneg.
    + apply Z.ltb_lt in Hneg; injection H as <- <-.
      destruct (split_amount_balanced (- (o - n * Z.max x1 x2)))
        as (? & ? & ? & ?); [lia |].
      cbn [fst snd]; split; [left; reflexivity | lia].
    + apply Z.ltb_ge in Hneg; injection H as <- <-.
      cbn [fst snd]; split; [left; reflexivity | lia].
Qed.

(** On the second axis of the sample transposed block: [14 - 8 * 2 = -2]
    is cropped by [(1, 1)]. *)
Lemma infer_axis_balanced_witness :
  exists o n s d,
    nth_error [Some 19; Some 14] 1 = Some (Some o) /\
    nth_error [Some 9; Some 8] 1 = Some (Some n) /\
    nth_error [2; 2] 1 = Some s /\ nth_error [1; 1] 1 = Some d /\
    n * Z.max s d + 0 + 0 - 1 - 1 = o.
Proof.
  destruct (infer_axis_balanced [Some 19; Some 14] [Some 9; Some 8]
              [2; 2] [1; 1] 1 (0, 0) (1, 1) eq_refl)
    as (o & n & s & d & Ho & Hn & Hs & Hd & _ & _ & _ & _ & _ & H).
  exists o, n, s, d; repeat split; assumption.
Defined.

Lemma getitem_nth {A : Type} (l : list A) (i : nat) (x : A) :
  nth_error l i = Some x -> getitem l (Z.of_nat i) = Ok x.
Proof.
  intros H; unfold getitem.
  replace (Z.of_nat i <? 0) with false by (symmetry; apply Z.ltb_ge; lia).
  replace (Z.of_nat i <? 0) with false by (symmetry; apply Z.ltb_ge; lia).
  rewrite Nat2Z.id, H; reflexivity.
Qed.

Lemma nth_error_lt {A : Type} (l : list A) (i : nat) :
  (i < List.length l)%nat -> exists x, nth_error l i = Some x.
Proof.
  intros H; destruct (nth_error l i) eqn:E; [eexists; reflexivity |].
  apply nth_error_None in E; lia.
Qed.

(** On an axis that all four sequences cover, the inference either
    returns or fails on an unknown size. *)
Lemma infer_axis_cases (lo li : list dim) (st dl : list Z) (i : nat) :
  (i < List.length lo)%nat -> (i < List.length li)%nat ->
  (i < List.length st)%nat -> (i < List.length dl)%nat ->
  (exists r, infer_axis lo li st dl i = Ok r /\
             exists o n, nth_error lo i = Some (Some o) /\
                         nth_error li i = Some (Some n)) \/
  (infer_axis lo li st dl i = Raise none_arith /\
   (nth_error lo i = Some None \/ nth_error li i = Some None)).
Proof.
  intros H1 H2 H3 H4.
  destruct (nth_error_lt lo i H1) as [o Ho], (nth_error_lt li i H2) as [n Hn],
    (nth_error_lt st i H3) as [s Hs], (nth_error_lt dl i H4) as [d Hd].
  unfold infer_axis.
  rewrite (getitem_nth _ _ _ Ho), (getitem_nth _ _ _ Hn),
    (getitem_nth _ _ _ Hs), (getitem_nth _ _ _ Hd); cbn [bind].
  destruct o as [o |], n as [n |];
    try (right; split; [reflexivity | auto]; fail).
  left; cbv zeta.
  destruct (0 <? _); [| destruct (_ <? 0)];
    (eexists; split; [reflexivity | exists o, n; split; assumption]).
Qed.

Lemma infer_axes_unknown (lo li : list dim) (st dl : list Z) :
  forall range : list nat,
    Forall (fun i => (i < List.length lo)%nat /\ (i < List.length li)%nat /\
                     (i < List.length st)%nat /\ (i < List.length dl)%nat)
           range ->
    Exists (fun i => nth_error lo i = Some None \/ nth_error li i = Some None)
           range ->
    infer_axes lo li st dl range = Raise none_arith.
Proof.
  induction range as [| i range IH]; intros Hall Hex.
  - inversion Hex.
  - inversion Hall as [| ? ? (H1 & H2 & H3 & H4) Hall']; subst.
    cbn [infer_axes].
    destruct (infer_axis_cases lo li st dl i H1 H2 H3 H4)
      as [(r & -> & o & n & Ho & Hn) | [-> _]]; [| reflexivity].
    cbn [bind]; destruct r as [p c].
    inversion Hex as [? ? Hi | ? ? Hex']; subst.
    + destruct Hi as [Hi | Hi]; congruence.
    + rewrite (IH Hall' Hex'); reflexivity.
Qed.

Lemma slice_1_m1_length {A : Type} (l : list A) :
  List.length (slice_1_m1 l) = (List.length l - 2)%nat.
Proof.
  unfold slice_1_m1; destruct l as [| x l]; [reflexivity |].
  cbn [tl List.length]; rewrite removelast_firstn_len, length_firstn; lia.
Qed.

(** X13: [output_mshape] needs known sizes.  When a transposed block
    with [output_mshape] is built on an input one of whose sizes, or with
    a desired shape one of whose sizes, is unknown ([None]) on one of the
    [rank] axes after the first, the inference does arithmetic on [None]
    and [build] raises [TypeError]. *)
Theorem build_unknown_spatial_size :
  forall (k : klass) (a : init_args) (self : block) (s m : shape)
         (channel_axis cin : Z) (latent : option Z * Z * Z) (i : nat),
    is_transpose k = true -> init k a = Ok self ->
    output_mshape self = Some m ->
    (rank self + 2 <= List.length m)%nat ->
    build_channels self s = Ok (channel_axis, cin) ->
    build_latent self cin = Ok latent ->
    (i < rank self)%nat ->
    nth_error (slice_1_m1 s) i = Some None \/
    nth_error (slice_1_m1 m) i = Some None ->
    build self s = Raise none_arith.
Proof.
  intros k a self s m channel_axis cin latent i Hk Hi Hm Hlen Hc Hl Hlt Hnone.
  assert (Hs : (rank self + 2 <= List.length s)%nat).
  { unfold build_channels in Hc.
    destruct (Nat.ltb (List.length s) (rank self + 2)) eqn:E; [discriminate |].
    apply Nat.ltb_ge in E; exact E. }
  pose proof (init_cls k a self Hi) as Hcls.
  destruct (init_lengths k a self Hi) as (_ & Hst & Hdl).
  unfold build; rewrite Hc; cbn [bind]; rewrite Hl; cbn [bind].
  destruct latent as [[lg lf] f]; rewrite Hcls, Hk.
  unfold infer_output_padding; rewrite Hm.
  rewrite infer_axes_unknown; [reflexivity | |].
  - apply Forall_forall; intros j Hj; apply in_seq in Hj.
    rewrite !slice_1_m1_length, Hst, Hdl; lia.
  - apply Exists_exists; exists i; split; [apply in_seq; lia | tauto].
Qed.

(** The sample transposed block on an input of unknown height. *)
Lemma build_unknown_spatial_size_witness :
  build transpose_sample_self unknown_height_shape = Raise none_arith.
Proof.
  apply (build_unknown_spatial_size ResidualTranspose transpose_sample_args
           transpose_sample_self unknown_height_shape
           [None; Some 19; Some 14; Some 16] (-1) 4 (None, 2, 2) 0
           eq_refl transpose_sample_init eq_refl).
  - cbn; lia.
  - reflexivity.
  - reflexivity.
  - cbn; lia.
  - left; reflexivity.
Defined.

(** X14: [output_mshape] takes precedence.  In a transposed block with
    [output_mshape], the values of [output_padding] and [output_cropping]
    given to the constructor have no effect on [build]. *)
Theorem output_mshape_precedence :
  forall (self : block) (s : shape) (p c : option pad_arg),
    is_transpose (cls self) = true -> output_mshape self <> None ->
    build (with_output_amounts self p c) s = build self s.
Proof.
  intros self s p c Hk Hm.
  unfold build, infer_output_padding.
  cbn [cls output_mshape with_output_amounts]; rewrite Hk.
  destruct (output_mshape self) as [m |]; [reflexivity | congruence].
Qed.

(** The sample transposed block given [output_padding = 5] as well. *)
Lemma output_mshape_precedence_witness :
  build (with_output_amounts transpose_sample_self (Some (PadInt 5)) None)
    residual_sample_shape
  = build transpose_sample_self residual_sample_shape.
Proof.
  apply (output_mshape_precedence transpose_sample_self residual_sample_shape
           (Some (PadInt 5)) None); [reflexivity | discriminate].
Defined.

(** ** 1D transposed blocks *)

Lemma new_padding_1d (self : block) (p : pad_arg) :
  rank self = 1%nat -> raises (new_padding self p).
Proof.
  intros Hr; unfold new_padding, new_ZeroPadding1D; rewrite Hr.
  destruct (normalize_pad_1d "padding" p) as [x | e]; eexists; reflexivity.
Qed.

Lemma new_cropping_1d (self : block) (c : pad_arg) :
  rank self = 1%nat -> raises (new_cropping self c).
Proof.
  intros Hr; unfold new_cropping, new_Cropping1D; rewrite Hr.
  destruct (normalize_pad_1d "cropping" c) as [x | e]; eexists; reflexivity.
Qed.

Lemma slice_1_m1_nth {A : Type} (l : list A) (i : nat) (x : A) :
  nth_error (slice_1_m1 l) i = Some x -> nth_error l (S i) = Some x.
Proof.
  unfold slice_1_m1; destruct l as [| y l]; [destruct i; discriminate |].
  cbn [tl nth_error]; revert i; induction l as [| z l IH]; intros i H.
  - destruct i; discriminate.
  - destruct l as [| w l]; [destruct i; discriminate |].
    destruct i as [| i]; [exact H |].
    cbn [removelast nth_error] in H |- *; apply IH; exact H.
Qed.

Lemma split_amount_zero (d : Z) : 0 <= d -> split_amount d = (0, 0) -> d = 0.
Proof.
  unfold split_amount; intros Hd H; injection H as H1 H2.
  pose proof (Z.div_mod d 2 ltac:(lia)); lia.
Qed.

(** X15: a 1D transposed block is built without padding and without
    cropping, or not at all: creating either layer raises (the new layer
    is subscripted).  So every built 1D transposed block has neither, and
    its [output_mshape], if any, asks for exactly
    [n * max(stride, dilation)]. *)
Theorem transpose_1d_no_padding :
  forall (k : klass) (a : init_args) (self : block) (s : shape) (b : block),
    is_transpose k = true -> init k a = Ok self -> rank self = 1%nat ->
    build self s = Ok b ->
    output_padding b = None /\ output_cropping b = None /\
    (exists L, layers b = Some L /\
               layer_padding L = None /\ layer_cropping L = None) /\
    forall m, output_mshape self = Some m ->
      exists o n st d,
        nth_error m 1 = Some (Some o) /\ nth_error s 1 = Some (Some n) /\
        strides self = [st] /\ dilation_rate self = [d] /\
        o = n * Z.max st d.
Proof.
  intros k a self s b Hk Hi Hr Hb.
  pose proof (init_cls k a self Hi) as Hcls.
  destruct (init_lengths k a self Hi) as (_ & Hlst & Hldl).
  apply build_Ok in Hb.
  destruct Hb as (channel_axis & cin & lg & lf & filters & next_shape & br
                  & op & oc & up & pad & crop & _ & _ & _ & _ & Ht & ->).
  rewrite Hcls, Hk in Ht.
  destruct Ht as (uppool & merged & Hinf & Hu & _ & _ & Hcrop).
  assert (Hop : op = None /\ pad = None).
  { apply build_uppool_Ok in Hu; destruct Hu as (s1 & _ & _ & Hpad & _).
    destruct op as [p |]; [| tauto].
    destruct Hpad as (l & Hl & _).
    destruct (new_padding_1d self p Hr) as [e He]; congruence. }
  assert (Hoc : oc = None /\ crop = None).
  { apply build_cropping_Ok in Hcrop; destruct Hcrop as (out & _ & Hcr).
    destruct oc as [c |]; [| tauto].
    destruct Hcr as (l & Hl & _).
    destruct (new_cropping_1d self c Hr) as [e He]; congruence. }
  destruct Hop as [-> ->], Hoc as [-> ->].
  cbn [output_padding output_cropping layers built].
  split; [reflexivity | split; [reflexivity | split]].
  - eexists; repeat split.
  - intros m Hm.
    destruct (infer_output_padding_Ok self s m None None Hm Hinf)
      as (ps & cs & Hlps & Hlcs & Haxes & Hp0 & Hp1 & Hc0 & Hc1).
    destruct (Haxes 0%nat ltac:(lia))
      as (o & n & st & d & Ho & Hn & Hst & Hd & p & c & Hp & Hc & Hcases).
    assert (Hpz : p = (0, 0)).
    { destruct (all_zero_dec ps) as [Hz | Hz];
        [| specialize (Hp1 Hz); discriminate].
      rewrite Forall_forall in Hz; apply Hz; eapply nth_error_In; eassumption. }
    assert (Hcz : c = (0, 0)).
    { destruct (all_zero_dec cs) as [Hz | Hz];
        [| specialize (Hc1 Hz); discriminate].
      rewrite Forall_forall in Hz; apply Hz; eapply nth_error_In; eassumption. }
    exists o, n, st, d.
    split; [apply slice_1_m1_nth; assumption |].
    split; [apply slice_1_m1_nth; assumption |].
    rewrite Hr in Hlst, Hldl.
    split.
    { destruct (strides self) as [| x [| y l]]; try discriminate.
      injection Hst as ->; reflexivity. }
    split.
    { destruct (dilation_rate self) as [| x [| y l]]; try discriminate.
      injection Hd as ->; reflexivity. }
    cbv zeta in Hcases; destruct Hcases as (Hpos & Hneg & _).
    destruct (Z.lt_trichotomy (o - n * Z.max st d) 0) as [H | [H | H]].
    + destruct (Hneg H) as [Hc' _]; rewrite Hcz in Hc'.
      symmetry in Hc'; apply (split_amount_zero (Z.abs (o - n * Z.max st d)))
        in Hc'; lia.
    + lia.
    + destruct (Hpos H) as [Hp' _]; rewrite Hpz in Hp'.
      symmetry in Hp'; apply (split_amount_zero (o - n * Z.max st d)) in Hp'; lia.
Qed.

Lemma transpose_1d_init :
  init ResidualTranspose transpose_1d_args = Ok transpose_1d_self.
Proof. vm_compute; reflexivity. Qed.

Lemma transpose_1d_build :
  build transpose_1d_self transpose_1d_shape = Ok transpose_1d_block.
Proof. vm_compute; reflexivity. Qed.

(** On the sample 1D transposed block, whose desired length [16] is
    [8 * 2]. *)
Lemma transpose_1d_no_padding_witness :
  output_padding transpose_1d_block = None /\
  output_cropping transpose_1d_block = None.
Proof.
  destruct (transpose_1d_no_padding ResidualTranspose transpose_1d_args
              transpose_1d_self transpose_1d_shape transpose_1d_block
              eq_refl transpose_1d_init eq_refl transpose_1d_build)
    as (Hp & Hc & _).
  split; [exact Hp | exact Hc].
Defined.

(** ** Shapes *)

Lemma build_channels_join (self : block) (b : dim) (sp : list dim) (c : dim)
    (channel_axis cin : Z) :
  build_channels self (join_shape (data_format_ self) b sp c)
  = Ok (channel_axis, cin) ->
  c = Some cin.
Proof.
  unfold build_channels; intros Hc.
  destruct (Nat.ltb _ _); [discriminate |].
  rewrite getitem_channel in Hc; cbn [bind] in Hc.
  destruct c; [injection Hc as _ <-; reflexivity | discriminate].
Qed.

(** The input shape of a successful [build]. *)
Lemma build_input_join (k : klass) (a : init_args) (self : block) (s : shape)
    (b : block) :
  init k a = Ok self -> build self s = Ok b ->
  exists batch sp channel_axis cin,
    s = join_shape (data_format_ self) batch sp (Some cin) /\
    List.length sp = rank self /\
    build_channels self s = Ok (channel_axis, cin).
Proof.
  intros Hi Hb.
  pose proof (init_cls k a self Hi) as Hcls.
  pose proof (init_rank_1_format k a self Hi) as Hdf.
  apply build_Ok in Hb.
  destruct Hb as (channel_axis & cin & lg & lf & filters & next_shape & br
                  & op & oc & up & pad & crop & Hc & Hl & Hbr & Hm & Ht & _).
  rewrite Hcls in Ht.
  destruct (is_transpose k) eqn:Hk.
  - destruct Ht as (uppool & merged & _ & Hu & _).
    apply build_uppool_Ok in Hu; destruct Hu as (s1 & Hnew & Hup & _).
    destruct (uppool_shape self uppool s s1 (Hdf eq_refl) Hnew Hup)
      as (bd & sp & c & sp1 & Hs & Hlsp & _).
    subst s; pose proof (build_channels_join _ _ _ _ _ _ Hc) as ->.
    exists bd, sp, channel_axis, cin; repeat split; assumption || reflexivity.
  - destruct Ht as (-> & _).
    assert (Hn : if is_transpose (cls self) then
                   exists op uppool pad,
                     build_uppool self op s = Ok (uppool, pad, s)
                 else s = s) by (rewrite Hcls, Hk; reflexivity).
    assert (Hdf' : is_transpose (cls self) = true -> rank self = 1%nat ->
                   data_format_ self = channels_last)
      by (rewrite Hcls, Hk; discriminate).
    destruct (build_next_shape self s channel_axis cin filters lg s br
                Hdf' Hc Hn Hbr) as (bd & sp & Hj & Hlen).
    exists bd, sp, channel_axis, cin; repeat split; assumption.
Qed.

(** The sizes after a [same] convolution, axis by axis. *)
Lemma stride_space_nth :
  forall (sp : list dim) (sts : list Z) (sp' : list dim),
    stride_space sp sts = Ok sp' ->
    forall i d, nth_error sp i = Some d ->
      exists st, nth_error sts i = Some st /\
                 nth_error sp' i
                 = Some (option_map (fun n => (n + st - 1) / st) d).
Proof.
  induction sp as [| d0 sp IH]; intros sts sp' H i d Hd.
  - destruct i; discriminate.
  - destruct sts as [| st sts]; [discriminate |].
    cbn [stride_space] in H; inv_bind H; inv_bind H; injection H as <-.
    destruct i as [| i].
    + injection Hd as <-; exists st; split; [reflexivity |].
      unfold conv_output_length in E; destruct d0 as [n |].
      * destruct (st =? 0); [discriminate |].
        injection E as <-; cbn [nth_error option_map].
        do 3 f_equal; lia.
      * injection E as <-; reflexivity.
    + cbn [nth_error] in *; eapply IH; eassumption.
Qed.

(** X17: the output shape of a plain block (residual or ResNeXt), with
    the shape function of the units taken as that of a [same]
    convolution.  On its build-time input shape, of [rank + 2] axes,
    [compute_output_shape] returns the same batch entry, [ofilters]
    channels and, on each spatial axis, [(n + stride - 1) div stride] for
    a known size [n] (an unknown size stays unknown), whatever
    [kernel_size], [dilation_rate] and [depth] are. *)
Theorem residual_output_shape :
  forall (k : klass) (a : init_args) (self : block) (s : shape) (b : block),
    is_transpose k = false -> init k a = Ok self -> build self s = Ok b ->
    List.length s = (rank self + 2)%nat ->
    exists (batch : dim) (sp sp' : list dim) (cin : Z),
      s = join_shape (data_format_ self) batch sp (Some cin) /\
      List.length sp = rank self /\ List.length sp' = rank self /\
      (forall i d, nth_error sp i = Some d ->
         exists st, nth_error (strides self) i = Some st /\
                    nth_error sp' i
                    = Some (option_map (fun n => (n + st - 1) / st) d)) /\
      compute_output_shape b s
      = Ok (join_shape (data_format_ self) batch sp' (Some (ofilters self))).
Proof.
  intros k a self s b Hk Hi Hb _.
  pose proof (init_cls k a self Hi) as Hcls.
  destruct (init_lengths k a self Hi) as (_ & Hlst & _).
  destruct (build_input_join k a self s b Hi Hb)
    as (batch & sp & channel_axis & cin & Hs & Hlen & Hc).
  apply compute_output_shape_built in Hb.
  destruct Hb as (channel_axis' & cin' & lg & lf & filters & next_shape & br
                  & op & oc & up & pad & crop & Hc' & _ & Hbr & Ht & Hcomp).
  rewrite Hc in Hc'; injection Hc' as <- <-.
  rewrite Hcls, Hk in Ht, Hcomp; subst next_shape.
  rewrite Hs in Hbr.
  destruct (branches_shapes self cin channel_axis filters lg batch sp br Hlen Hbr)
    as (sts & sp' & Hsts & Hst & Hleft & Hright).
  unfold unit_strides in Hsts; rewrite Hcls, Hk in Hsts.
  rewrite normalize_tuple_SeqArg in Hsts by assumption; injection Hsts as <-.
  exists batch, sp, sp', cin; repeat split; try assumption.
  - apply stride_space_length in Hst; congruence.
  - intros i d Hd; eapply stride_space_nth; eassumption.
  - rewrite Hcomp, Hleft, Hright.
    destruct (data_format_ self); cbn [join_shape];
      rewrite merge_same; reflexivity.
Qed.

(** On the sample plain block, whose strides 2 turn 9x8 into 5x4. *)
Lemma residual_output_shape_witness :
  exists (batch : dim) (sp sp' : list dim) (cin : Z),
    residual_sample_shape = join_shape channels_last batch sp (Some cin) /\
    List.length sp = 2%nat /\ List.length sp' = 2%nat /\
    (forall i d, nth_error sp i = Some d ->
       exists st, nth_error [2; 2] i = Some st /\
                  nth_error sp' i
                  = Some (option_map (fun n => (n + st - 1) / st) d)) /\
    compute_output_shape residual_sample_block residual_sample_shape
    = Ok (join_shape channels_last batch sp' (Some 16)).
Proof.
  exact (residual_output_shape Residual residual_sample_args
           residual_sample_self residual_sample_shape residual_sample_block
           eq_refl residual_sample_init residual_sample_build eq_refl).
Defined.

(** X18: the output shape of a transposed block without [output_mshape],
    [output_padding] and [output_cropping], under the same reading of the
    units: on its build-time input shape, of [rank + 2] axes,
    [compute_output_shape] returns the same batch entry, [ofilters]
    channels and, on each spatial axis, [stride * n] for a known size
    [n], in both data formats. *)
Theorem transpose_plain_output_shape :
  forall (k : klass) (a : init_args) (self : block) (s : shape) (b : block),
    is_transpose k = true -> init k a = Ok self -> build self s = Ok b ->
    List.length s = (rank self + 2)%nat ->
    output_mshape self = None -> output_padding self = None ->
    output_cropping self = None ->
    exists (batch : dim) (sp sp' : list dim) (cin : Z),
      s = join_shape (data_format_ self) batch sp (Some cin) /\
      List.length sp = rank self /\ List.length sp' = rank self /\
      (forall i d, nth_error sp i = Some d ->
         exists st, nth_error (strides self) i = Some st /\
                    nth_error sp' i = Some (option_map (Z.mul st) d)) /\
      compute_output_shape b s
      = Ok (join_shape (data_format_ self) batch sp' (Some (ofilters self))).
Proof.
  intros k a self s b Hk Hi Hb _ Hm Hp Hcr.
  pose proof (init_cls k a self Hi) as Hcls.
  pose proof (init_rank_1_format k a self Hi Hk) as Hdf.
  destruct (build_input_join k a self s b Hi Hb)
    as (batch & sp & channel_axis & cin & Hs & Hlen & Hc).
  apply compute_output_shape_built in Hb.
  destruct Hb as (channel_axis' & cin' & lg & lf & filters & next_shape & br
                  & op & oc & up & pad & crop & Hc' & _ & Hbr & Ht & Hcomp).
  rewrite Hc in Hc'; injection Hc' as <- <-.
  rewrite Hcls, Hk in Ht, Hcomp.
  destruct Ht as (uppool & merged & Hinf & Hu & _ & Hmg & Hcrop).
  unfold infer_output_padding in Hinf; rewrite Hm, Hp, Hcr in Hinf.
  injection Hinf as <- <-.
  cbn [build_cropping] in Hcrop; injection Hcrop as <-.
  apply build_uppool_Ok in Hu.
  destruct Hu as (s1 & Hnew & Hup & (_ & ->) & _).
  destruct (uppool_shape self uppool s s1 Hdf Hnew Hup)
    as (bd & sp0 & c & sp1 & Hs' & Hlsp & Hmul & Hs1 & Hlsp1).
  rewrite Hs in Hs'; apply join_shape_inj in Hs'.
  destruct Hs' as (<- & <- & <-).
  rewrite Hs1 in Hbr.
  destruct (branches_shapes self cin channel_axis filters lg batch sp1 br
              Hlsp1 Hbr) as (sts & sp2 & Hsts & Hst & Hleft & Hright).
  assert (sp2 = sp1) as ->.
  { unfold unit_strides in Hsts; rewrite Hcls, Hk in Hsts.
    unfold normalize_tuple in Hsts; injection Hsts as <-.
    rewrite stride_space_ones in Hst;
      [injection Hst as <-; reflexivity
      | rewrite repeat_length; symmetry; assumption
      | apply check_dl_func_repeat]. }
  exists batch, sp, sp1, cin; repeat split; try assumption.
  - intros i d Hd.
    destruct (map_space_nth _ _ _ _ Hmul i d Hd) as (st & Hst' & Hn).
    exists st; split; assumption.
  - rewrite Hcomp, Hleft, Hright.
    destruct (data_format_ self); cbn [join_shape];
      rewrite merge_same; reflexivity.
Qed.

Lemma transpose_plain_init :
  init ResidualTranspose transpose_plain_args = Ok transpose_plain_self.
Proof. vm_compute; reflexivity. Qed.

Lemma transpose_plain_build :
  build transpose_plain_self residual_sample_shape = Ok transpose_plain_block.
Proof. vm_compute; reflexivity. Qed.

(** On the sample transposed block without [output_mshape], whose
    strides 2 turn 9x8 into 18x16. *)
Lemma transpose_plain_output_shape_witness :
  exists (batch : dim) (sp sp' : list dim) (cin : Z),
    residual_sample_shape = join_shape channels_last batch sp (Some cin) /\
    List.length sp = 2%nat /\ List.length sp' = 2%nat /\
    (forall i d, nth_error sp i = Some d ->
       exists st, nth_error [2; 2] i = Some st /\
                  nth_error sp' i = Some (option_map (Z.mul st) d)) /\
    compute_output_shape transpose_plain_block residual_sample_shape
    = Ok (join_shape channels_last batch sp' (Some 16)).
Proof.
  exact (transpose_plain_output_shape ResidualTranspose transpose_plain_args
           transpose_plain_self residual_sample_shape transpose_plain_block
           eq_refl transpose_plain_init transpose_plain_build
           eq_refl eq_refl eq_refl eq_refl).
Defined.

(** ** [call] and [compute_output_shape] *)

Lemma apply_opt_shape (l : option layer) (x : tensor) :
  tensor_shape (apply_opt l x) = ('s <- tensor_shape x ;; shape_opt l s).
Proof.
  destruct l as [l |]; cbn [apply_opt tensor_shape shape_opt].
  - reflexivity.
  - destruct (tensor_shape x); reflexivity.
Qed.

Lemma call_middle_shape (middle : list layer) :
  forall (range : list nat) (x t : tensor),
    call_middle middle range x = Ok t ->
    tensor_shape t = ('s <- tensor_shape x ;; shape_middle middle range s).
Proof.
  induction range as [| i range IH]; intros x t H; cbn [call_middle] in H.
  - injection H as <-; cbn [shape_middle].
    destruct (tensor_shape x); reflexivity.
  - inv_bind H; rewrite (IH _ _ H); cbn [tensor_shape shape_middle].
    rewrite E; cbn [bind getattr].
    destruct (tensor_shape x); reflexivity.
Qed.

(** X19: [call] and [compute_output_shape] agree.  On every built block
    and every input tensor of shape [s] (of at least [rank + 2] axes in a
    transposed block), the shape of the tensor that [call] returns,
    computed layer by layer along the tensor, is what
    [compute_output_shape] returns on [s]; they raise the same error when
    a layer rejects its input shape. *)
Theorem call_shape :
  forall (self : block) (s0 : shape) (b : block) (x t : tensor) (s : shape),
    build self s0 = Ok b ->
    tensor_shape x = Ok s -> call b x = Ok t ->
    (is_transpose (cls b) = true -> (rank b + 2 <= List.length s)%nat) ->
    tensor_shape t = compute_output_shape b s.
Proof.
  intros self s0 b x t s Hb Hx Hcall Hlen.
  apply build_Ok in Hb.
  destruct Hb as (channel_axis & cin & lg & lf & filters & next_shape & br
                  & op & oc & up & pad & crop & _ & _ & _ & _ & _ & ->).
  unfold call in Hcall; unfold compute_output_shape.
  cbn [layers built getattr bind cls rank depth layer_uppool layer_padding
       layer_branch_left layer_dropout layer_first layer_middle layer_last
       layer_merge layer_cropping] in *.
  destruct (is_transpose (cls self)) eqn:Hk.
  - replace (Nat.ltb (List.length s) (rank self + 2)) with false
      by (symmetry; apply Nat.ltb_ge; auto).
    destruct up as [uppool |]; [| discriminate].
    cbn [getattr bind] in Hcall |- *.
    inv_bind Hcall; injection Hcall as <-.
    apply call_middle_shape in E.
    rewrite apply_opt_shape; cbn [tensor_shape]; rewrite E.
    cbn [tensor_shape]; rewrite !apply_opt_shape; cbn [tensor_shape].
    rewrite Hx; cbn [bind].
    destruct (layer_compute_output_shape uppool s) as [s1 | e]; [| reflexivity].
    cbn [bind]; destruct (shape_opt pad s1) as [s2 | e]; [| reflexivity].
    cbn [bind merge_shape].
    destruct (shape_opt (br_left br) s2) as [sl | e]; [| reflexivity].
    cbn [bind].
    destruct (shape_opt (br_dropout br) s2) as [sd | e]; [| reflexivity].
    cbn [bind].
    destruct (layer_compute_output_shape (br_first br) sd) as [sf | e];
      [| reflexivity].
    cbn [bind].
    destruct (shape_middle (br_middle br) (seq 0 (Z.to_nat (depth self))) sf)
      as [sm | e]; [| reflexivity].
    cbn [bind].
    destruct (layer_compute_output_shape (br_last br) sm) as [sr | e];
      [| reflexivity].
    cbn [bind].
    destruct (merge_compute_output_shape sl sr); reflexivity.
  - cbn [bind] in Hcall |- *.
    inv_bind Hcall; injection Hcall as <-.
    apply call_middle_shape in E.
    cbn [tensor_shape]; rewrite E.
    cbn [tensor_shape]; rewrite !apply_opt_shape; rewrite Hx;
      cbn [bind merge_shape].
    destruct (shape_opt (br_left br) s) as [sl | e]; [| reflexivity].
    cbn [bind].
    destruct (shape_opt (br_dropout br) s) as [sd | e]; [| reflexivity].
    cbn [bind].
    destruct (layer_compute_output_shape (br_first br) sd) as [sf | e];
      [| reflexivity].
    cbn [bind].
    destruct (shape_middle (br_middle br) (seq 0 (Z.to_nat (depth self))) sf)
      as [sm | e]; [| reflexivity].
    cbn [bind].
    destruct (layer_compute_output_shape (br_last br) sm) as [sr | e];
      [| reflexivity].
    cbn [bind].
    destruct (merge_compute_output_shape sl sr); reflexivity.
Qed.

Lemma residual_sample_call :
  call residual_sample_block (Input residual_sample_shape)
  = Ok residual_sample_output.
Proof. vm_compute; reflexivity. Qed.

(** On the sample plain block and an input of its build-time shape. *)
Lemma call_shape_witness :
  tensor_shape residual_sample_output
  = compute_output_shape residual_sample_block residual_sample_shape.
Proof.
  apply (call_shape residual_sample_self residual_sample_shape
           residual_sample_block (Input residual_sample_shape)
           residual_sample_output residual_sample_shape
           residual_sample_build eq_refl residual_sample_call).
  discriminate.
Defined.

(** ** Building twice, and reloading a built block *)

(** The latent counts that [build] has stored are found again. *)
Lemma build_latent_built (self : block) (cin : Z) (lg : option Z)
    (lf filters : Z) (op oc : option pad_arg) (L : sublayers) :
  build_latent self cin = Ok (lg, lf, filters) ->
  build_latent (built self cin lg lf op oc L) cin = Ok (lg, lf, filters).
Proof.
  unfold build_latent; cbn [cls depth kernel_size ofilters lgroups lfilters built].
  destruct (is_resnext (cls self)).
  - intros H; inv_bind H; destruct x as [g f]; injection H as <- <- <-.
    reflexivity.
  - intros H; injection H as <- <- <-; reflexivity.
Qed.

Lemma infer_output_padding_built (self : block) (s : shape) (cin : Z)
    (lg : option Z) (lf : Z) (op oc : option pad_arg) (L : sublayers) :
  infer_output_padding self s = Ok (op, oc) ->
  infer_output_padding (built self cin lg lf op oc L) s = Ok (op, oc).
Proof.
  unfold infer_output_padding;
    cbn [output_mshape output_padding output_cropping strides dilation_rate
         rank built].
  destruct (output_mshape self); [intros H; exact H | reflexivity].
Qed.

(** X20: [build] is idempotent.  Building a built block again on the
    same input shape succeeds and gives the same block, that is the same
    attributes and sub-layers created with the same arguments: the latent
    counts that the first [build] inferred and stored are kept, and the
    padding and cropping are inferred again to the same values. *)
Theorem build_idempotent :
  forall (self : block) (s : shape) (b : block),
    build self s = Ok b -> build b s = Ok b.
Proof.
  intros self s b Hb; pose proof Hb as Hb0.
  apply build_Ok in Hb.
  destruct Hb as (channel_axis & cin & lg & lf & filters & next_shape & br
                  & op & oc & up & pad & crop & Hc & Hl & Hbr & Hm & Ht & Hbuilt).
  rewrite <- Hb0; subst b.
  match goal with
  | |- build (built self cin lg lf op oc ?L) s = _ => set (L0 := L)
  end.
  unfold build at 1.
  change (build_channels (built self cin lg lf op oc L0) s)
    with (build_channels self s).
  rewrite Hc; cbn [bind].
  rewrite (build_latent_built self cin lg lf filters op oc L0 Hl); cbn [bind].
  change (cls (built self cin lg lf op oc L0)) with (cls self).
  unfold build at 1; rewrite Hc; cbn [bind]; rewrite Hl; cbn [bind].
  destruct (is_transpose (cls self)).
  - destruct Ht as (uppool & merged & Hinf & _).
    rewrite (infer_output_padding_built self s cin lg lf op oc L0 Hinf).
    rewrite Hinf; cbn [bind]; reflexivity.
  - destruct Ht as (_ & -> & -> & _); reflexivity.
Qed.

(** On the sample transposed block. *)
Lemma build_idempotent_witness :
  build transpose_sample_block residual_sample_shape
  = Ok transpose_sample_block.
Proof.
  exact (build_idempotent transpose_sample_self residual_sample_shape
           transpose_sample_block transpose_sample_build).
Defined.

Lemma none_if_all_zero_truthy (n : nat) (ps : pairs) :
  List.length ps = n -> n <> 0%nat ->
  keep_if pad_arg_truthy (none_if_all_zero n ps) = none_if_all_zero n ps.
Proof.
  intros Hl Hn; unfold none_if_all_zero.
  destruct (Nat.leb n (deFlag ps)); [reflexivity |].
  cbn [keep_if pad_arg_truthy]; rewrite Hl.
  destruct n; [contradiction | reflexivity].
Qed.

(** The cropping stored by a successful [build] survives the truth test
    of the constructor. *)
Lemma built_amounts (k : klass) (a : init_args) (ks st dl : list Z)
    (s : shape) (op oc : option pad_arg) (up : layer) :
  let self := init_block k a ks st dl in
  new_uppool self = Ok up ->
  infer_output_padding self s = Ok (op, oc) ->
  keep_if pad_arg_truthy oc = oc.
Proof.
  intros self Hup Hinf; unfold infer_output_padding in Hinf.
  destruct (output_mshape self) as [m |] eqn:Hm.
  - inv_bind Hinf; destruct x as [ps cs]; injection Hinf as <- <-.
    apply infer_axes_Ok in E; destruct E as (_ & Hl & _).
    rewrite length_seq in Hl.
    apply none_if_all_zero_truthy; [assumption |].
    unfold new_uppool in Hup; intros Hr.
    change (rank self) with (a_rank a) in Hup, Hr.
    rewrite Hr in Hup; discriminate.
  - injection Hinf as _ <-.
    subst self; cbn [output_cropping init_block].
    destruct (is_transpose k); [apply keep_if_idem | reflexivity].
Qed.

(** X21: reloading a built block.  The configuration of a built block
    carries the latent counts and the amounts that [build] stored; the
    constructor applied to it returns the block as it was before it was
    built, with those values in place ([unbuilt b]), and building that
    instance on the same input shape gives the built block back (the
    same attributes, sub-layers created with the same arguments).  The
    entries that the records leave out (initializers, regularizers and
    constraints) are not covered. *)
Theorem build_reload :
  forall (k : klass) (a : init_args) (self : block) (s : shape) (b : block),
    init k a = Ok self -> build self s = Ok b ->
    exists c,
      get_config b = Ok c /\
      c_lfilters c = lfilters b /\ lfilters b <> None /\
      from_config k (rank b) c = Ok (unbuilt b) /\
      build (unbuilt b) s = Ok b.
Proof.
  intros k a self s b Hi Hb.
  pose proof (build_idempotent self s b Hb) as Hagain.
  apply build_Ok in Hb.
  destruct Hb as (channel_axis & cin & lg & lf & filters & next_shape & br
                  & op & oc & up & pad & crop & Hc & Hl & Hbr & Hm & Ht & ->).
  apply build_branches_Ok in Hbr.
  destruct Hbr as (act & cfg & Hact & Hcfg & _).
  apply init_Ok_inv in Hi.
  destruct Hi as (ks & st & dl & Hr & Hks & Hst & Hdl & Hone & ->).
  match goal with
  | _ : build (built ?x cin lg lf op oc ?L) s = _ |- _ =>
      set (self := x) in *; set (L0 := L) in *
  end.
  unfold get_config.
  cbn [activation activity_config built] in *; rewrite Hact, Hcfg.
  cbn [bind getattr].
  eexists; split; [reflexivity |].
  split; [reflexivity |]; split; [discriminate |].
  split; [| exact Hagain].
  apply normalize_tuple_length in Hks, Hst, Hdl.
  destruct Hr as [Hd [_ Hcf]].
  unfold from_config.
  match goal with |- init k ?x = _ => set (a' := x) end.
  assert (Hia : init_activation a' = init_activation a).
  { apply (init_activation_round_trip a a' act Hact);
      [reflexivity | reflexivity | symmetry; exact Hcfg]. }
  assert (Hlg : (if is_resnext k then lg else None) = lg).
  { unfold build_latent in Hl; cbn [cls init_block self] in Hl.
    destruct (is_resnext k); [reflexivity |].
    injection Hl as <- _ _; reflexivity. }
  assert (Hop : (if is_transpose k then op else None) = op /\
                (if is_transpose k then keep_if pad_arg_truthy oc else None)
                = oc).
  { cbn [cls init_block self] in Ht.
    destruct (is_transpose k) eqn:Hk.
    - destruct Ht as (uppool & merged & Hinf & Hu & _).
      apply build_uppool_Ok in Hu; destruct Hu as (s1 & Hup & _).
      split; [reflexivity |].
      exact (built_amounts k a ks st dl s op oc uppool Hup Hinf).
    - destruct Ht as (_ & -> & -> & _).
      cbn [output_padding output_cropping init_block self]; rewrite Hk.
      split; reflexivity. }
  destruct Hop as [Hop Hoc].
  rewrite (init_Ok_intro k a' ks st dl).
  - f_equal; unfold init_block at 1; rewrite Hia.
    subst a'; cbn [a_rank a_depth a_ofilters a_lgroups a_lfilters
                   a_output_mshape a_output_padding a_output_cropping
                   a_data_format a_normalization a_groups a_dropout
                   a_dropout_rate c_depth c_ofilters c_lgroups c_lfilters
                   c_output_mshape c_output_padding c_output_cropping
                   c_data_format c_normalization c_groups c_dropout
                   c_dropout_rate normalize_data_format].
    unfold unbuilt;
      cbn [cls rank depth ofilters lgroups lfilters kernel_size strides
           output_mshape output_padding output_cropping data_format_
           dilation_rate normalization groups dropout dropout_rate activation
           activity_config high_activation built init_block self].
    rewrite Hlg, Hop, Hoc.
    replace (a_depth a - 2 + 2 - 2) with (a_depth a - 2) by lia.
    destruct (is_transpose k); rewrite ?keep_if_idem; reflexivity.
  - split; [cbn; lia | split].
    + cbn; eexists; apply normalize_tuple_SeqArg; assumption.
    + cbn; exact Hcf.
  - apply normalize_tuple_SeqArg; assumption.
  - apply normalize_tuple_SeqArg; assumption.
  - apply normalize_tuple_SeqArg; assumption.
  - exact Hone.
Qed.

(** On the sample ResNeXt block, whose latent counts [build] inferred. *)
Lemma build_reload_witness :
  exists c,
    get_config resnext_sample_block = Ok c /\
    c_lfilters c = Some 3 /\ Some 3 <> None /\
    from_config Resnext 2 c = Ok (unbuilt resnext_sample_block) /\
    build (unbuilt resnext_sample_block) resnext_sample_shape
    = Ok resnext_sample_block.
Proof.
  exact (build_reload Resnext (sample_args 2 3 64) resnext_sample_self
           resnext_sample_shape resnext_sample_block
           resnext_sample_init resnext_sample_build).
Defined.

(** ** ResNeXt blocks given [lfilters = 0] *)

(** X22: a latent count of 0 is not rejected by the constructor.  A
    ResNeXt block given [lfilters = 0] and no [lgroups] fails in [build]:
    the inference of [lgroups] divides by [lfilters] and raises
    [ZeroDivisionError] (the input having a known channel count whose
    half is a float). *)
Theorem build_lfilters_zero :
  forall (self : block) (s : shape) (channel_axis cin : Z) (q : float),
    is_resnext (cls self) = true ->
    lgroups self = None -> lfilters self = Some 0 ->
    build_channels self s = Ok (channel_axis, cin) ->
    int_truediv_2 cin = Ok q ->
    build self s = Raise ZeroDivisionError.
Proof.
  intros self s channel_axis cin q Hk Hg Hf Hc Hq.
  unfold build; rewrite Hc; cbn [bind].
  unfold build_latent; rewrite Hk, Hg, Hf.
  unfold infer_latent, infer_lgroups; rewrite Hq; reflexivity.
Qed.

(** On a ResNeXt block constructed with [lfilters = 0]. *)
Lemma build_lfilters_zero_witness :
  build zero_lfilters_self resnext_sample_shape = Raise ZeroDivisionError.
Proof.
  apply (build_lfilters_zero zero_lfilters_self resnext_sample_shape
           (-1) 64 32%float); reflexivity.
Defined.

(** * Further properties of the inference *)

Lemma getitem_past_end {A : Type} (l : list A) (i : nat) :
  (List.length l <= i)%nat -> getitem l (Z.of_nat i) = Raise IndexError.
Proof.
  intros H; unfold getitem.
  replace (Z.of_nat i <? 0) with false by (symmetry; apply Z.ltb_ge; lia).
  replace (Z.of_nat i <? 0) with false by (symmetry; apply Z.ltb_ge; lia).
  rewrite Nat2Z.id.
  replace (nth_error l i) with (@None A)
    by (symmetry; apply nth_error_None; exact H).
  reflexivity.
Qed.

(** The loop fails with [e] as soon as one round does, the rounds before
    it returning. *)
Lemma infer_axes_raise (lo li : list dim) (st dl : list Z) (e : exn) :
  forall range : list nat,
    Forall (fun i => (exists r, infer_axis lo li st dl i = Ok r) \/
                     infer_axis lo li st dl i = Raise e) range ->
    Exists (fun i => infer_axis lo li st dl i = Raise e) range ->
    infer_axes lo li st dl range = Raise e.
Proof.
  induction range as [| i range IH]; intros Hall Hex.
  - inversion Hex.
  - inversion Hall as [| ? ? Hi Hall']; subst.
    cbn [infer_axes].
    destruct Hi as [[r Hr] | Hr]; rewrite Hr; [| reflexivity].
    cbn [bind]; destruct r as [p c].
    inversion Hex as [? ? Hi | ? ? Hex']; subst; [congruence |].
    rewrite (IH Hall' Hex'); reflexivity.
Qed.

Lemma Forall_known_nth (l : list dim) (i : nat) :
  Forall (fun d => d <> None) l -> (i < List.length l)%nat ->
  exists n, nth_error l i = Some (Some n).
Proof.
  intros Hall Hi; destruct (nth_error_lt l i Hi) as [d Hd].
  rewrite Forall_forall in Hall.
  pose proof (Hall d (nth_error_In _ _ Hd)) as Hne.
  destruct d as [n |]; [exists n; exact Hd | contradiction].
Qed.

Lemma Forall_slice_1_m1 {A : Type} (P : A -> Prop) (l : list A) :
  Forall P l -> Forall P (slice_1_m1 l).
Proof.
  intros H; apply Forall_forall; intros x Hx.
  rewrite Forall_forall in H; apply H.
  unfold slice_1_m1 in Hx.
  destruct l as [| y l]; [contradiction |]; right.
  cbn [tl] in Hx; clear H y.
  induction l as [| z l IH]; [contradiction |].
  destruct l as [| w l]; [contradiction |].
  destruct Hx as [-> | Hx]; [left; reflexivity | right; apply IH; exact Hx].
Qed.

(** X24: [output_mshape] is a whole shape.  A transposed block of rank
    at least 1 whose [output_mshape] has fewer than [rank + 2] entries
    (the spatial sizes alone, say), all of them known, fails in [build]
    on an input of known sizes: the inference reads
    [output_mshape[1:-1]] past its end and raises [IndexError]. *)
Theorem build_short_output_mshape :
  forall (k : klass) (a : init_args) (self : block) (s m : shape)
         (channel_axis cin : Z) (latent : option Z * Z * Z),
    is_transpose k = true -> init k a = Ok self ->
    output_mshape self = Some m ->
    (0 < rank self)%nat -> (List.length m < rank self + 2)%nat ->
    Forall (fun d => d <> None) m ->
    Forall (fun d => d <> None) (slice_1_m1 s) ->
    build_channels self s = Ok (channel_axis, cin) ->
    build_latent self cin = Ok latent ->
    build self s = Raise IndexError.
Proof.
  intros k a self s m channel_axis cin latent Hk Hi Hm Hr Hlen Hkm Hks Hc Hl.
  assert (Hs : (rank self + 2 <= List.length s)%nat).
  { unfold build_channels in Hc.
    destruct (Nat.ltb (List.length s) (rank self + 2)) eqn:E; [discriminate |].
    apply Nat.ltb_ge in E; exact E. }
  pose proof (init_cls k a self Hi) as Hcls.
  destruct (init_lengths k a self Hi) as (_ & Hst & Hdl).
  unfold build; rewrite Hc; cbn [bind]; rewrite Hl; cbn [bind].
  destruct latent as [[lg lf] f]; rewrite Hcls, Hk.
  unfold infer_output_padding; rewrite Hm.
  pose proof (Forall_slice_1_m1 _ m Hkm) as Hkm'.
  pose proof (slice_1_m1_length m) as Hlm.
  pose proof (slice_1_m1_length s) as Hls.
  rewrite infer_axes_raise with (e := IndexError); [reflexivity | |].
  - apply Forall_forall; intros i Hin; apply in_seq in Hin.
    destruct (Nat.lt_ge_cases i (List.length (slice_1_m1 m))) as [Hlt | Hge].
    + left.
      destruct (Forall_known_nth _ i Hkm' Hlt) as [o Ho].
      destruct (Forall_known_nth (slice_1_m1 s) i Hks ltac:(lia)) as [n Hn].
      destruct (nth_error_lt (strides self) i ltac:(lia)) as [st Hsti].
      destruct (nth_error_lt (dilation_rate self) i ltac:(lia)) as [d Hdi].
      unfold infer_axis.
      rewrite (getitem_nth _ _ _ Ho), (getitem_nth _ _ _ Hn),
        (getitem_nth _ _ _ Hsti), (getitem_nth _ _ _ Hdi); cbn [bind].
      cbv zeta; destruct (0 <? _); [| destruct (_ <? 0)];
        eexists; reflexivity.
    + right; unfold infer_axis.
      rewrite (getitem_past_end _ _ Hge); reflexivity.
  - apply Exists_exists; exists (List.length (slice_1_m1 m)); split.
    + apply in_seq; lia.
    + unfold infer_axis.
      rewrite (getitem_past_end _ _ (Nat.le_refl _)); reflexivity.
Qed.

(** The sample transposed block given [output_mshape = (19, 14)]. *)
Lemma build_short_output_mshape_witness :
  build short_mshape_self residual_sample_shape = Raise IndexError.
Proof.
  apply (build_short_output_mshape ResidualTranspose
           (with_output_mshape
              (with_strides (sample_args 2 3 16) (IntArg 2) (IntArg 1))
              channels_last [Some 19; Some 14])
           short_mshape_self residual_sample_shape [Some 19; Some 14]
           (-1) 4 (None, 2, 2) eq_refl eq_refl eq_refl).
  - cbn; lia.
  - cbn; lia.
  - repeat constructor; discriminate.
  - repeat constructor; discriminate.
  - reflexivity.
  - reflexivity.
Defined.

(** The arithmetic of one axis in general: up-sampling by [st], padding
    by [p] and cropping by [c] misses the desired [o] by [n] times the
    excess of the inferred factor [max(st, d)] over [st]. *)
Lemma axis_arithmetic_max (o n st d : Z) (p c : Z * Z) :
  let diff := o - n * Z.max st d in
  (0 < diff -> p = (diff / 2, diff / 2 + diff mod 2) /\ c = (0, 0)) ->
  (diff < 0 ->
   c = (Z.abs diff / 2, Z.abs diff / 2 + Z.abs diff mod 2) /\ p = (0, 0)) ->
  (diff = 0 -> p = (0, 0) /\ c = (0, 0)) ->
  st * n + fst p + snd p - fst c - snd c = o - n * (Z.max st d - st).
Proof.
  intros diff Hpos Hneg Hzero.
  pose proof (axis_arithmetic o n (Z.max st d) p c Hpos Hneg Hzero) as H.
  nia.
Qed.

(** X25: what a [channels_last] transposed block with [output_mshape]
    returns in general.  With positive strides, on a build-time input of
    known positive spatial sizes, [compute_output_shape] returns on each
    spatial axis [o - n * (max(stride, dilation) - stride)], where [o] is
    the desired size and [n] the input size: the desired size itself when
    the dilation does not exceed the stride, and [n * (dilation - stride)]
    less when it does, the inference having counted an up-sampling by
    [max(stride, dilation)] where the block up-samples by [stride].  (The
    sizes returned are supposed not to be negative, the framework
    refusing a negative size.) *)
Theorem transpose_output_shape_general :
  forall (k : klass) (a : init_args) (self : block) (s : shape) (b : block)
         (m : shape) (sp_out sp_in : list dim),
    is_transpose k = true -> init k a = Ok self -> build self s = Ok b ->
    output_mshape self = Some m ->
    data_format_ self = channels_last ->
    spatial channels_last (rank self) m = Ok sp_out ->
    spatial channels_last (rank self) s = Ok sp_in ->
    Forall (fun d => forall n, d = Some n -> 0 < n) sp_in ->
    Forall (fun st => 0 < st) (strides self) ->
    (forall i o n st d,
       nth_error sp_out i = Some (Some o) -> nth_error sp_in i = Some (Some n) ->
       nth_error (strides self) i = Some st ->
       nth_error (dilation_rate self) i = Some d ->
       0 <= o - n * (Z.max st d - st)) ->
    exists out sp,
      compute_output_shape b s = Ok out /\
      spatial channels_last (rank self) out = Ok sp /\
      List.length sp = rank self /\
      forall i, (i < rank self)%nat ->
        exists o n st d,
          nth_error sp_out i = Some (Some o) /\
          nth_error sp_in i = Some (Some n) /\
          nth_error (strides self) i = Some st /\
          nth_error (dilation_rate self) i = Some d /\
          nth_error sp i = Some (Some (o - n * (Z.max st d - st))).
Proof.
  intros k a self s b m sp_out sp_in Hk Hi Hb Hm Hdf Hout Hin Hpos Hstpos _.
  pose proof (init_cls k a self Hi) as Hcls.
  apply compute_output_shape_built in Hb.
  destruct Hb as (channel_axis & cin & lg & lf & filters & next_shape & br
                  & op & oc & up & pad & crop & Hc & _ & Hbr & Ht & Hcomp).
  rewrite Hcls, Hk in Ht, Hcomp.
  destruct Ht as (uppool & merged & Hinf & Hu & _ & Hmg & Hcrop).
  rewrite Hmg in Hcomp; cbn [bind] in Hcomp.
  (* the up-sampled shape *)
  apply build_uppool_Ok in Hu.
  destruct Hu as (s1 & Hnew & Hup & Hpad & _).
  destruct (uppool_shape self uppool s s1 (fun _ => Hdf) Hnew Hup)
    as (bd & sp & c & sp1 & Hs & Hlsp & Hmul & Hs1 & Hlsp1).
  rewrite Hdf in Hs, Hs1.
  (* the inferred amounts *)
  pose proof (infer_output_padding_Ok self s m op oc Hm Hinf) as Hamounts.
  rewrite (slice_spatial _ _ _ Hout) in Hamounts.
  assert (Hslice : slice_1_m1 s = sp).
  { rewrite Hs; unfold slice_1_m1; cbn [join_shape tl]; apply removelast_last. }
  rewrite Hslice in Hamounts.
  assert (Hsp : sp_in = sp).
  { rewrite <- Hslice; symmetry; exact (slice_spatial _ _ _ Hin). }
  rewrite Hsp in *; clear Hsp Hin.
  destruct Hamounts as (ps & cs & Hlps & Hlcs & Haxes & Hp0 & Hp1 & Hc0 & Hc1).
  (* the padded shape *)
  assert (Hnext : exists sp2,
             map_space dim_pad ps sp1 = Ok sp2 /\
             next_shape = join_shape channels_last bd sp2 c).
  { destruct (all_zero_dec ps) as [Hz | Hz].
    - rewrite (Hp0 Hz) in Hpad; destruct Hpad as [_ ->].
      exists sp1; split; [apply map_space_pad_zero; congruence | exact Hs1].
    - rewrite (Hp1 Hz) in Hpad; destruct Hpad as (l & Hl & _ & Hshape).
      destruct (padding_shape self _ l _ _ Hl Hshape)
        as (ps' & b' & sp0 & c' & sp2 & Hnorm & Hj & _ & Hmap & -> & _).
      apply normalize_pad_nd_pairs in Hnorm; subst ps'.
      rewrite Hdf, Hs1 in Hj.
      apply join_shape_inj in Hj; destruct Hj as [<- [<- <-]].
      exists sp2; split; [exact Hmap | rewrite Hdf; reflexivity]. }
  destruct Hnext as (sp2 & Hmap2 & ->).
  assert (Hlsp2 : List.length sp2 = rank self).
  { apply map_space_length in Hmap2; congruence. }
  (* the two branches and their merge *)
  assert (Hcin : c = Some cin).
  { rewrite Hs, <- Hdf in Hc; exact (build_channels_join _ _ _ _ _ _ Hc). }
  subst c.
  rewrite <- Hdf in Hbr.
  destruct (branches_shapes self cin channel_axis filters lg bd sp2 br Hlsp2 Hbr)
    as (sts & sp2' & Hsts & Hst & Hleft & Hright).
  assert (sp2' = sp2) as ->.
  { unfold unit_strides in Hsts; rewrite Hcls, Hk in Hsts.
    unfold normalize_tuple in Hsts; injection Hsts as <-.
    rewrite stride_space_ones in Hst;
      [injection Hst as <-; reflexivity
      | rewrite repeat_length; symmetry; assumption
      | apply check_dl_func_repeat]. }
  rewrite Hdf in Hleft, Hright.
  rewrite Hleft, Hright in Hmg; cbn [join_shape] in Hmg.
  rewrite merge_same in Hmg; injection Hmg as <-.
  (* the cropped shape *)
  apply build_cropping_Ok in Hcrop.
  destruct Hcrop as (out & Hshape & Hcrop).
  assert (Hfinal : exists sp3,
             out = join_shape channels_last bd sp3 (Some (ofilters self)) /\
             List.length sp3 = rank self /\
             forall i v ci,
               nth_error sp2 i = Some (Some v) -> v <> 0 ->
               nth_error cs i = Some ci ->
               nth_error sp3 i = Some (Some (v - fst ci - snd ci))).
  { destruct (all_zero_dec cs) as [Hz | Hz].
    - rewrite (Hc0 Hz) in Hcrop; subst crop.
      injection Hshape as <-.
      exists sp2; split; [reflexivity | split; [assumption |]].
      intros i v ci Hv _ Hci.
      rewrite Forall_forall in Hz.
      rewrite (Hz ci (nth_error_In _ _ Hci)); cbn [fst snd].
      rewrite Hv; do 2 f_equal; lia.
    - rewrite (Hc1 Hz) in Hcrop; destruct Hcrop as (l & Hl & ->).
      cbn [shape_opt] in Hshape.
      destruct (cropping_shape self _ l _ _ Hl Hshape)
        as (cs' & b' & sp0 & c' & sp3 & Hnorm & Hj & _ & Hmap & -> & Hl3).
      apply normalize_pad_nd_pairs in Hnorm; subst cs'.
      apply (join_shape_inj channels_last bd b' sp2 sp0) in Hj.
      destruct Hj as [<- [<- <-]].
      exists sp3; split; [reflexivity | split; [assumption |]].
      intros i v ci Hv Hne Hci.
      destruct (map_space_nth _ _ _ _ Hmap i _ Hv) as (c' & Hc' & H3).
      rewrite Hci in Hc'; injection Hc' as <-.
      rewrite H3; destruct (Nat.eqb (rank self) 2);
        cbn [dim_crop dim_crop_2d option_map]; [| reflexivity].
      apply Z.eqb_neq in Hne; rewrite Hne; reflexivity. }
  destruct Hfinal as (sp3 & -> & Hlsp3 & Hnth3).
  exists (join_shape channels_last bd sp3 (Some (ofilters self))), sp3.
  split; [rewrite Hcomp; exact Hshape |].
  split; [unfold spatial; rewrite split_join by assumption; reflexivity |].
  split; [assumption |].
  intros i Hlt.
  destruct (Haxes i Hlt)
    as (o & n & st & d & Ho & Hn & Hsti & Hdi & p & ci & Hpi & Hci & Hcases).
  exists o, n, st, d; repeat (split; [assumption |]).
  destruct (map_space_nth _ _ _ _ Hmul i _ Hn) as (st' & Hst' & H1).
  rewrite Hsti in Hst'; injection Hst' as <-.
  destruct (map_space_nth _ _ _ _ Hmap2 i _ H1) as (p' & Hp' & H2).
  rewrite Hpi in Hp'; injection Hp' as <-.
  cbn [dim_mul dim_pad option_map] in H2.
  cbv zeta in Hcases.
  pose proof (axis_arithmetic_max o n st d p ci) as Harith.
  cbv zeta in Harith.
  destruct Hcases as (Hdpos & Hdneg & Hdzero).
  specialize (Harith Hdpos Hdneg Hdzero).
  assert (Hn0 : 0 < n).
  { rewrite Forall_forall in Hpos.
    apply (Hpos (Some n) (nth_error_In _ _ Hn)); reflexivity. }
  assert (Hst0 : 0 < st).
  { rewrite Forall_forall in Hstpos.
    apply (Hstpos st (nth_error_In _ _ Hsti)). }
  assert (Hp00 : 0 <= fst p /\ 0 <= snd p).
  { destruct (Z_lt_le_dec 0 (o - n * Z.max st d)) as [Hd | Hd].
    - destruct (Hdpos Hd) as [-> _]; apply (split_amount_nonneg _ Hd).
    - destruct (Z.eq_dec (o - n * Z.max st d) 0) as [Hd0 | Hd0].
      + destruct (Hdzero Hd0) as [-> _]; cbn [fst snd]; lia.
      + destruct (Hdneg ltac:(lia)) as [_ ->]; cbn [fst snd]; lia. }
  rewrite (Hnth3 i _ ci H2) by (assumption || nia).
  do 2 f_equal; exact Harith.
Qed.

Lemma dilated_sample_init :
  init ResidualTranspose dilated_sample_args = Ok dilated_sample_self.
Proof. vm_compute; reflexivity. Qed.

Lemma dilated_sample_build :
  build dilated_sample_self dilated_sample_shape = Ok dilated_sample_block.
Proof. vm_compute; reflexivity. Qed.

(** On the sample block with [dilation_rate = 2] and strides 1: the
    desired 12x12 is missed by [8 * (2 - 1)] on each axis. *)
Lemma transpose_output_shape_general_witness :
  exists out sp,
    compute_output_shape dilated_sample_block dilated_sample_shape = Ok out /\
    spatial channels_last 2 out = Ok sp /\
    List.length sp = 2%nat /\
    forall i, (i < 2)%nat ->
      exists o n st d,
        nth_error [Some 12; Some 12] i = Some (Some o) /\
        nth_error [Some 8; Some 8] i = Some (Some n) /\
        nth_error [1; 1] i = Some st /\
        nth_error [2; 2] i = Some d /\
        nth_error sp i = Some (Some (o - n * (Z.max st d - st))).
Proof.
  refine (transpose_output_shape_general ResidualTranspose dilated_sample_args
            dilated_sample_self dilated_sample_shape dilated_sample_block
            [None; Some 12; Some 12; Some 4] [Some 12; Some 12]
            [Some 8; Some 8]
            eq_refl dilated_sample_init dilated_sample_build
            eq_refl eq_refl eq_refl eq_refl _ _ _).
  - repeat constructor; intros n Hn; injection Hn as <-; reflexivity.
  - repeat constructor.
  - intros i o n st d Ho Hn Hst Hd.
    destruct i as [| [| i]]; cbn [nth_error] in Ho, Hn, Hst, Hd;
      try (destruct i; discriminate);
      injection Ho as <-; injection Hn as <-; injection Hst as <-;
      injection Hd as <-; discriminate.
Defined.

(** * Properties of the demo script *)

(** ** [str2bool] *)

Lemma casefold_upper_ascii (c : ascii) :
  casefold_ascii (upper_ascii c) = casefold_ascii c.
Proof.
  destruct c as [[] [] [] [] [] [] [] []]; vm_compute; reflexivity.
Qed.

Lemma casefold_ascii_idem (c : ascii) :
  casefold_ascii (casefold_ascii c) = casefold_ascii c.
Proof.
  destruct c as [[] [] [] [] [] [] [] []]; vm_compute; reflexivity.
Qed.

Lemma lower_modulo_case (v v' : string) :
  same_modulo_case v v' -> lower v = lower v'.
Proof.
  unfold lower; induction 1 as [| c c' s s' Hc _ IH]; [reflexivity |].
  cbn [casefold]; rewrite IH; f_equal.
  destruct Hc as [-> | [-> | ->]];
    rewrite ?casefold_upper_ascii; reflexivity.
Qed.

(** X16: [str2bool] does not see the case of the letters: two words that
    differ only by the case of ASCII letters get the same answer ([True],
    [False], or the error). *)
Theorem str2bool_case_insensitive :
  forall v v' : string,
    same_modulo_case v v' -> str2bool v = str2bool v'.
Proof.
  intros v v' H; unfold str2bool.
  rewrite (lower_modulo_case v v' H); reflexivity.
Qed.

(** [Yes] and [yES] are both read as [True]. *)
Lemma str2bool_case_insensitive_witness :
  str2bool "Yes" = str2bool "yES" /\ str2bool "yES" = Some true.
Proof.
  split; [| reflexivity].
  apply str2bool_case_insensitive.
  repeat (constructor; [vm_compute; tauto |]); constructor.
Defined.

(** ** [plot_sample] *)

Lemma and_then_Ok (t t' : list plot_call) (r : result unit) :
  and_then (t, Ok tt) (t', r) = (t ++ t', r).
Proof. reflexivity. Qed.

Lemma plot_row_Ok (rows : Z) (x : dataset) (src : source) (row : Z)
    (N i : nat) :
  samples_28x28 x N -> (i < N)%nat -> 0 <= row < rows ->
  plot_row rows x src row (Z.of_nat N) i
  = (row_calls rows src row (Z.of_nat N) i, Ok tt).
Proof.
  intros Hx Hi Hrow; unfold plot_row, subplot, imshow_sample.
  rewrite (Hx i Hi); cbn [Nat.eqb].
  replace ((1 <=? rows) && (1 <=? Z.of_nat N)
           && (1 <=? Z.of_nat i + 1 + row * Z.of_nat N)
           && (Z.of_nat i + 1 + row * Z.of_nat N <=? rows * Z.of_nat N))%bool
    with true; [reflexivity |].
  symmetry; rewrite !andb_true_iff, !Z.leb_le.
  repeat split; nia.
Qed.

Lemma plot_row_opt_Ok (rows : Z) (x : option dataset) (src : source)
    (row : Z) (N i : nat) :
  samples_28x28_opt x N -> (i < N)%nat ->
  (x <> None -> 0 <= row < rows) ->
  plot_row_opt rows x src row (Z.of_nat N) i
  = (row_calls_opt rows x src row (Z.of_nat N) i, Ok tt).
Proof.
  intros Hx Hi Hrow; destruct x as [x |]; [| reflexivity].
  apply plot_row_Ok; [exact Hx | exact Hi | apply Hrow; discriminate].
Qed.

Lemma plot_for_Ok (body : nat -> plot) (calls : nat -> list plot_call) :
  forall range : list nat,
    (forall i, In i range -> body i = (calls i, Ok tt)) ->
    plot_for body range = (flat_map calls range, Ok tt).
Proof.
  induction range as [| i range IH]; intros H; [reflexivity |].
  cbn [plot_for flat_map].
  rewrite (H i (or_introl eq_refl)), IH by (intros j Hj; apply H; right; exact Hj).
  reflexivity.
Qed.

(** The calls of a run in which nothing raises. *)
Lemma plot_sample_Ok (x_test : dataset) (x_input decoded_imgs : option dataset)
    (n : Z) :
  samples_28x28 x_test (Z.to_nat n) ->
  samples_28x28_opt x_input (Z.to_nat n) ->
  samples_28x28_opt decoded_imgs (Z.to_nat n) ->
  plot_sample x_test x_input decoded_imgs n
  = (plt_figure
       :: flat_map (round_calls x_input decoded_imgs n) (seq 0 (Z.to_nat n))
       ++ [plt_show],
     Ok tt).
Proof.
  intros Ht Hi Hd; unfold plot_sample; cbv zeta.
  rewrite (plot_for_Ok _ (round_calls x_input decoded_imgs n)); [reflexivity |].
  intros i Hin; apply in_seq in Hin.
  remember (Z.to_nat n) as N eqn:HN.
  assert (Hn : n = Z.of_nat N) by lia.
  unfold round_calls; cbv zeta; rewrite Hn.
  set (rows := 1 + count_given decoded_imgs + count_given x_input).
  assert (H0 : 0 <= 0 < rows)
    by (subst rows; destruct decoded_imgs, x_input; cbn [count_given]; lia).
  assert (H1 : x_input <> None -> 0 <= 1 < rows).
  { subst rows; intros H; destruct x_input; [| contradiction].
    destruct decoded_imgs; cbn [count_given]; lia. }
  assert (H2 : decoded_imgs <> None -> 0 <= 1 + count_given x_input < rows).
  { subst rows; intros H; destruct decoded_imgs; [| contradiction].
    destruct x_input; cbn [count_given]; lia. }
  rewrite (plot_row_Ok rows x_test from_x_test 0 N i Ht (proj2 Hin) H0).
  rewrite (plot_row_opt_Ok rows x_input from_x_input 1 N i Hi (proj2 Hin) H1).
  rewrite (plot_row_opt_Ok rows decoded_imgs from_decoded_imgs
             (1 + count_given x_input) N i Hd (proj2 Hin) H2).
  reflexivity.
Qed.

Lemma images_row (rows : Z) (src : source) (row n : Z) (i : nat)
    (t : list plot_call) :
  images (row_calls rows src row n i ++ t)
  = (Z.of_nat i + 1 + row * n, src, i) :: images t.
Proof. reflexivity. Qed.

Lemma images_row_opt (rows : Z) (x : option dataset) (src : source)
    (row n : Z) (i : nat) (t : list plot_call) :
  images (row_calls_opt rows x src row n i ++ t)
  = image_opt x src row n i ++ images t.
Proof. destruct x; [apply images_row | reflexivity]. Qed.

Lemma images_rounds (x_input decoded_imgs : option dataset) (n : Z)
    (t : list plot_call) :
  forall range : list nat,
    images (flat_map (round_calls x_input decoded_imgs n) range ++ t)
    = flat_map (round_images x_input decoded_imgs n) range ++ images t.
Proof.
  induction range as [| i range IH]; [reflexivity |].
  cbn [flat_map]; unfold round_calls at 1, round_images at 1; cbv zeta.
  rewrite <- !app_assoc, images_row, !images_row_opt, IH.
  cbn [app]; rewrite <- !app_assoc; reflexivity.
Qed.

Lemma round_images_length (x_input decoded_imgs : option dataset) (n : Z)
    (i : nat) :
  List.length (round_images x_input decoded_imgs n i)
  = Z.to_nat (1 + count_given decoded_imgs + count_given x_input).
Proof. destruct x_input, decoded_imgs; reflexivity. Qed.

Lemma round_images_rows (x_input decoded_imgs : option dataset) (n : Z)
    (i : nat) :
  Forall (fun c => fst (fst c)
                   = Z.of_nat (snd c) + 1 + row_of x_input (snd (fst c)) * n)
         (round_images x_input decoded_imgs n i).
Proof.
  destruct x_input, decoded_imgs; repeat constructor.
Qed.

(** Every cell of the grid holds an image. *)
Lemma round_images_cover (x_input decoded_imgs : option dataset) (N : nat)
    (k : Z) :
  1 <= k <= (1 + count_given decoded_imgs + count_given x_input) * Z.of_nat N ->
  In k (map (fun c => fst (fst c))
          (flat_map (round_images x_input decoded_imgs (Z.of_nat N))
             (seq 0 N))).
Proof.
  intros Hk.
  assert (HN : 0 < Z.of_nat N)
    by (destruct x_input, decoded_imgs; cbn [count_given] in Hk; lia).
  pose proof (Z.div_mod (k - 1) (Z.of_nat N) ltac:(lia)) as Hdm.
  pose proof (Z.mod_pos_bound (k - 1) (Z.of_nat N) HN) as Hm.
  set (q := (k - 1) / Z.of_nat N) in *; set (m := (k - 1) mod Z.of_nat N) in *.
  assert (Hq : 0 <= q < 1 + count_given decoded_imgs + count_given x_input)
    by nia.
  apply in_map_iff.
  assert (Hi : In (Z.to_nat m) (seq 0 N)) by (apply in_seq; lia).
  assert (Hidx : forall r, q = r -> k = Z.of_nat (Z.to_nat m) + 1 + r * Z.of_nat N)
    by (intros r <-; lia).
  destruct x_input as [xi |], decoded_imgs as [xd |]; cbn [count_given] in Hq.
  - assert (Hc : q = 0 \/ q = 1 \/ q = 1 + 1) by lia.
    destruct Hc as [Hc | [Hc | Hc]].
    + exists (k, from_x_test, Z.to_nat m); split; [reflexivity |].
      apply in_flat_map; exists (Z.to_nat m); split; [exact Hi |].
      rewrite (Hidx 0 Hc); left; reflexivity.
    + exists (k, from_x_input, Z.to_nat m); split; [reflexivity |].
      apply in_flat_map; exists (Z.to_nat m); split; [exact Hi |].
      rewrite (Hidx 1 Hc); right; left; reflexivity.
    + exists (k, from_decoded_imgs, Z.to_nat m); split; [reflexivity |].
      apply in_flat_map; exists (Z.to_nat m); split; [exact Hi |].
      rewrite (Hidx (1 + 1) Hc); right; right; left; reflexivity.
  - assert (Hc : q = 0 \/ q = 1) by lia.
    destruct Hc as [Hc | Hc].
    + exists (k, from_x_test, Z.to_nat m); split; [reflexivity |].
      apply in_flat_map; exists (Z.to_nat m); split; [exact Hi |].
      rewrite (Hidx 0 Hc); left; reflexivity.
    + exists (k, from_x_input, Z.to_nat m); split; [reflexivity |].
      apply in_flat_map; exists (Z.to_nat m); split; [exact Hi |].
      rewrite (Hidx 1 Hc); right; left; reflexivity.
  - assert (Hc : q = 0 \/ q = 1 + 0) by lia.
    destruct Hc as [Hc | Hc].
    + exists (k, from_x_test, Z.to_nat m); split; [reflexivity |].
      apply in_flat_map; exists (Z.to_nat m); split; [exact Hi |].
      rewrite (Hidx 0 Hc); left; reflexivity.
    + exists (k, from_decoded_imgs, Z.to_nat m); split; [reflexivity |].
      apply in_flat_map; exists (Z.to_nat m); split; [exact Hi |].
      rewrite (Hidx (1 + 0) Hc); right; left; reflexivity.
  - assert (Hc : q = 0) by lia.
    exists (k, from_x_test, Z.to_nat m); split; [reflexivity |].
    apply in_flat_map; exists (Z.to_nat m); split; [exact Hi |].
    rewrite (Hidx 0 Hc); left; reflexivity.
Qed.

(** X23: the figure that [plot_sample] lays out.  When each data set
    given has at least [n] samples of 28x28 = 784 elements, no call
    raises, [plt.show()] comes last, the image of sample [i] of a data set
    is drawn in cell [i + 1 + row * n] with [row] the position of the data
    set among those given ([x_test], then [x_input], then
    [decoded_imgs]), and the cells used are exactly [1 .. rows * n], each
    once: no image replaces another and none falls outside the grid. *)
Theorem plot_sample_grid :
  forall (x_test : dataset) (x_input decoded_imgs : option dataset) (n : Z),
    samples_28x28 x_test (Z.to_nat n) ->
    samples_28x28_opt x_input (Z.to_nat n) ->
    samples_28x28_opt decoded_imgs (Z.to_nat n) ->
    let rows := 1 + count_given decoded_imgs + count_given x_input in
    exists t,
      plot_sample x_test x_input decoded_imgs n = (t, Ok tt) /\
      last t plt_figure = plt_show /\
      Forall (fun c => fst (fst c)
                       = Z.of_nat (snd c) + 1 + row_of x_input (snd (fst c)) * n)
             (images t) /\
      Permutation (map (fun c => fst (fst c)) (images t))
                  (map Z.of_nat (seq 1 (Z.to_nat (rows * n)))).
Proof.
  intros x_test x_input decoded_imgs n Ht Hi Hd rows.
  eexists; split; [apply plot_sample_Ok; assumption |].
  split.
  { rewrite app_comm_cons; apply last_last. }
  cbn [images]; rewrite images_rounds; cbn [images]; rewrite app_nil_r.
  split.
  { apply Forall_flat_map, Forall_forall; intros i _.
    apply round_images_rows. }
  assert (Hrows : 0 <= rows)
    by (subst rows; destruct x_input, decoded_imgs; cbn [count_given]; lia).
  symmetry; apply NoDup_Permutation_bis.
  - apply NoDup_map_NoDup_ForallPairs; [| apply seq_NoDup].
    intros x y _ _; apply Nat2Z.inj.
  - rewrite !length_map, length_seq.
    rewrite (flat_map_constant_length (c := Z.to_nat rows))
      by (intros i _; apply round_images_length).
    rewrite length_seq.
    destruct (Z_lt_le_dec n 0) as [Hneg | Hpos].
    + replace (Z.to_nat n) with 0%nat by lia; apply Nat.le_0_l.
    + rewrite Z2Nat.inj_mul by assumption; lia.
  - intros k Hk; apply in_map_iff in Hk; destruct Hk as (j & <- & Hj).
    apply in_seq in Hj.
    assert (Hn : 0 <= n) by (destruct (Z_lt_le_dec n 0); [nia | assumption]).
    assert (Hrn : n = Z.of_nat (Z.to_nat n)) by lia.
    rewrite Hrn at 1.
    apply round_images_cover; fold rows; lia.
Qed.

(** Ten test samples with their decoded images: two rows of ten. *)
Lemma plot_sample_grid_witness :
  exists t,
    plot_sample (repeat 784%nat 10) None (Some (repeat 784%nat 10)) 10
    = (t, Ok tt) /\
    Permutation (map (fun c => fst (fst c)) (images t))
                (map Z.of_nat (seq 1 20)).
Proof.
  destruct (plot_sample_grid (repeat 784%nat 10) None
              (Some (repeat 784%nat 10)) 10) as (t & Hp & _ & _ & Hperm).
  - intros i Hi; apply nth_error_repeat; exact Hi.
  - exact I.
  - intros i Hi; apply nth_error_repeat; exact Hi.
  - exists t; split; [exact Hp | exact Hperm].
Defined.
